(** * braintools: synchrony metrics and learning-rate schedulers

    A shallow embedding of [braintools/metric/_correlation.py] and
    [braintools/optim/_lr_scheduler.py], together with the properties the
    specification states about them.

    Numbers are modelled by what the code does with them:

    - the bin width and the time step of [cross_correlation] are Python
      floats, IEEE 754 binary64 numbers, and their quotient is the rounded
      quotient of that format, truncated by [int];
    - the spike data, the pair values of [cross_correlation] and the
      series of [weighted_correlation] and [matrix_correlation] are
      modelled over exact real arithmetic: a scalar is either a finite
      real or a non-finite value (the [nan] and [inf] of IEEE arithmetic).
      The binned states are 0 or 1 and their sums are counts, which floats
      hold exactly; for [weighted_correlation] the model stands for the
      program up to rounding;
    - [voltage_fluctuation] compares a computed difference of means with
      0, and the outcome of that comparison depends on rounding: its
      model is generic in the arithmetic, and the arithmetic has an exact
      instance and IEEE instances;
    - the schedulers divide by and raise to arbitrary parameters, so their
      scalar arithmetic is an interface; with an explicit step, which is a
      Python integer, part of that arithmetic is Python's and can
      raise. *)

From Stdlib Require Import String.
From Stdlib Require Import Reals List ZArith QArith Qround Lia Lra Bool.
From Stdlib Require Import Permutation.
From Stdlib Require Import SpecFloat.
Import ListNotations.

Local Open Scope R_scope.

(** ** Python results: a value or a raised exception *)

Inductive exn : Set :=
| ValueError
| ZeroDivisionError
| AssertionError
| OverflowError
| AttributeError
| IndexError
| ShapeError. (* raised by the array library: incompatible or negative shapes *)

Inductive result (A : Type) : Type :=
| Ok (a : A)
| Raise (e : exn).

Arguments Ok {A} a.
Arguments Raise {A} e.

Definition bind {A B : Type} (m : result A) (k : A -> result B) : result B :=
  match m with
  | Ok a => k a
  | Raise e => Raise e
  end.

Notation "x <- m ;; k" := (bind m (fun x => k))
  (at level 61, m at next level, right associativity).

(** ** Scalars *)

(** [Some r] is the finite number [r]; [None] is a non-finite value. *)
Definition num : Type := option R.

Definition fin (r : R) : num := Some r.
Definition nonfinite : num := None.

Definition lift2 (f : R -> R -> R) (a b : num) : num :=
  match a, b with
  | Some x, Some y => Some (f x y)
  | _, _ => None
  end.

Definition nadd : num -> num -> num := lift2 Rplus.
Definition nsub : num -> num -> num := lift2 Rminus.
Definition nmul : num -> num -> num := lift2 Rmult.

(** [a / b]: dividing by zero gives [nan] or [inf]. *)
Definition ndiv (a b : num) : num :=
  match a, b with
  | Some x, Some y => if Req_dec_T y 0 then None else Some (x / y)
  | _, _ => None
  end.

(** [a == b]: false as soon as one side is [nan]; an infinity is never
    compared with itself in the code modelled here. *)
Definition neqb (a b : num) : bool :=
  match a, b with
  | Some x, Some y => if Req_dec_T x y then true else false
  | _, _ => false
  end.

(** [a > b], used on finite operands only. *)
Definition ngtb (a b : num) : bool :=
  match a, b with
  | Some x, Some y => if Rlt_dec y x then true else false
  | _, _ => false
  end.

(** ** Python floats *)

Module PyFloat.

(** A Python float: an IEEE 754 binary64 number. *)
Definition float : Type := spec_float.

Definition prec : Z := 53.
Definition emax : Z := 1024.

(** [float(z)]. *)
Definition of_int (z : Z) : float := binary_normalize prec emax z 0 false.

(** The float that a decimal literal with the value [n / d] denotes, the
    binary64 number nearest to it, for [n] and [d] below [2 ^ 53]:
    [literal 1 10] is [0.1]. *)
Definition literal (n : Z) (d : positive) : float :=
  SFdiv prec emax (of_int n) (of_int (Z.pos d)).

(** [a / b] on two floats; an integer operand is first converted. *)
Definition truediv (a b : float) : result float :=
  match b with
  | S754_zero _ => Raise ZeroDivisionError
  | _ => Ok (SFdiv prec emax a b)
  end.

(** [int(x)] on a float: truncation toward zero. *)
Definition int (x : float) : result Z :=
  match x with
  | S754_zero _ => Ok 0%Z
  | S754_infinity _ => Raise OverflowError
  | S754_nan => Raise ValueError
  | S754_finite s m e =>
      let a := (if 0 <=? e then Z.pos m * 2 ^ e
                else Z.pos m / 2 ^ (- e))%Z in
      Ok (if s then (- a)%Z else a)
  end.

(** The rational number a finite float stands for. *)
Definition to_Q (x : float) : Q :=
  match x with
  | S754_finite s m e =>
      ((if s then - (1) else 1) * inject_Z (Z.pos m) * 2 ^ e)%Q
  | _ => 0%Q
  end.

End PyFloat.

(** [a / b] on two Python integers. The interpreter rounds the quotient
    to a float; the model keeps the exact quotient, which has the same
    ceiling for every count of rows an array can have (below [2 ^ 53]). *)
Definition int_truediv (a b : Z) : result Q :=
  if (b =? 0)%Z then Raise ZeroDivisionError
  else Ok (inject_Z a / inject_Z b)%Q.

(** [int(numpy.ceil(q))]. *)
Definition int_ceil (q : Q) : Z := Qceiling q.

(** ** Array primitives *)

Module jnp.

(** [jnp.sum] of a one-dimensional array. *)
Definition sum (a : list num) : num := fold_right nadd (fin 0) a.

(** [jnp.mean] of a one-dimensional array: [nan] on an empty array. *)
Definition mean (a : list num) : num :=
  ndiv (sum a) (fin (INR (length a))).

(** [jnp.sqrt]: [nan] on a negative number. *)
Definition sqrt (a : num) : num :=
  match a with
  | Some x => if Rlt_dec x 0 then None else Some (R_sqrt.sqrt x)
  | None => None
  end.

(** [jnp.zeros((k, n))]. *)
Definition zeros (k : Z) (n : nat) : result (list (list num)) :=
  if (k <? 0)%Z then Raise ShapeError
  else Ok (repeat (repeat (fin 0) n) (Z.to_nat k)).

(** [jnp.append(a, b, axis=0)] on two-dimensional arrays. *)
Definition append0 (a b : list (list num)) : list (list num) := a ++ b.

(** [a.T] for a two-dimensional array with [ncols] columns. *)
Definition T (ncols : nat) (a : list (list num)) : list (list num) :=
  map (fun c => map (fun row => nth c row nonfinite) a) (seq 0 ncols).

(** [n] consecutive pieces of [size] elements each. *)
Fixpoint chunks {A : Type} (n size : nat) (l : list A) : list (list A) :=
  match n with
  | O => []
  | S n' => firstn size l :: chunks n' size (skipn size l)
  end.

(** [a.reshape((d0, d1, d2))] of a two-dimensional array: the elements
    keep their row-major order. *)
Definition reshape3 (a : list (list num)) (d0 : nat) (d1 d2 : Z)
  : result (list (list (list num))) :=
  if ((d1 <? 0) || (d2 <? 0))%Z then Raise ShapeError
  else
    let flat := concat a in
    let n1 := Z.to_nat d1 in
    let n2 := Z.to_nat d2 in
    if (length flat =? d0 * n1 * n2)%nat
    then Ok (map (chunks n1 n2) (chunks d0 (n1 * n2) flat))
    else Raise ShapeError.

(** [jnp.sum(a, axis=2)] of a three-dimensional array. *)
Definition sum_axis2 (a : list (list (list num))) : list (list num) :=
  map (map sum) a.

(** [jnp.asarray(a > 0., dtype=float)] of a two-dimensional array. *)
Definition gt0_as_float (a : list (list num)) : list (list num) :=
  map (map (fun v => if ngtb v (fin 0) then fin 1 else fin 0)) a.

(** [numpy.tri(n, m, k)] at position [(i, j)]. *)
Definition tri (k : Z) (i j : nat) : bool :=
  (Z.of_nat j <=? Z.of_nat i + k)%Z.

(** [jnp.tril_indices(n, k)]: the positions of the lower triangle in
    row-major order, as a pair of index arrays. *)
Definition tril_indices (n : nat) (k : Z) : list nat * list nat :=
  let pos := filter (fun p => tri k (fst p) (snd p))
                    (list_prod (seq 0 n) (seq 0 n)) in
  (map fst pos, map snd pos).

(** [a[i]] on the leading axis, for an index within bounds. *)
Definition getitem (a : list (list num)) (i : nat) : list num := nth i a [].

(** [a * b] for two one-dimensional arrays of the same length. *)
Fixpoint mul (a b : list num) : list num :=
  match a, b with
  | x :: a', y :: b' => nmul x y :: mul a' b'
  | _, _ => []
  end.

(** [a * b] for two one-dimensional arrays whose lengths the caller
    chooses: equal lengths are multiplied element by element, a length-1
    array is broadcast, any other combination is rejected. *)
Definition multiply (a b : list num) : result (list num) :=
  if (length a =? length b)%nat then Ok (mul a b)
  else if (length a =? 1)%nat then Ok (map (nmul (hd nonfinite a)) b)
  else if (length b =? 1)%nat then Ok (map (fun v => nmul v (hd nonfinite b)) a)
  else Raise ShapeError.

(** [a - s] for a one-dimensional array and a scalar. *)
Definition sub_scalar (a : list num) (s : num) : list num :=
  map (fun v => nsub v s) a.

End jnp.

(** [lax.cond(pred, true_fun, false_fun, operand)]. *)
Definition lax_cond {A B : Type} (pred : bool) (true_fun false_fun : A -> B)
  (operand : A) : B :=
  if pred then true_fun operand else false_fun operand.

(** [bc.transform.for_loop] applied to [f] and its operands: a sequential scan that appends
    one output per step. *)
Definition for_loop {A B : Type} (f : A -> B) (operands : list A) : list B :=
  fold_left (fun acc x => acc ++ [f x]) operands [].

(** [vmap(f)] applied to its operands: the function mapped over the
    leading axis. *)
Definition vmap {A B : Type} (f : A -> B) (operands : list A) : list B :=
  map f operands.

(** ** Array arithmetic, generic in the scalars *)

Module Scalar.

(** The scalar operations of an array dtype that [voltage_fluctuation]
    uses. *)
Class Ops (F : Type) : Type := {
  of_nat : nat -> F;       (* a count, and the literals [0.] and [1.] *)
  add : F -> F -> F;
  sub : F -> F -> F;
  mul : F -> F -> F;
  div : F -> F -> F;
  eq0 : F -> bool;         (* [x == 0.] *)
  nan : F
}.

(** What every arithmetic with a [nan] does with it. *)
Class NaNLaws (F : Type) {O : Ops F} : Prop := {
  div_0_0 : div (of_nat 0) (of_nat 0) = nan;
  add_nan_l : forall x, add nan x = nan;
  sub_nan_l : forall x, sub nan x = nan;
  mul_nan_l : forall x, mul nan x = nan;
  div_nan_l : forall x, div nan x = nan;
  eq0_nan : eq0 nan = false
}.

(** A two-dimensional array of scalars. *)
Record matrix (F : Type) : Type := mk_matrix {
  rows : nat;
  cols : nat;
  entries : list (list F)
}.

Arguments mk_matrix {F} rows cols entries.
Arguments rows {F} m.
Arguments cols {F} m.
Arguments entries {F} m.

Definition wf_matrix {F : Type} (a : matrix F) : bool :=
  (length (entries a) =? rows a)%nat
  && forallb (fun row => (length row =? cols a)%nat) (entries a).

(** [jnp.full((T, N), c)]. *)
Definition full {F : Type} (T N : nat) (c : F) : matrix F :=
  {| rows := T; cols := N; entries := repeat (repeat c N) T |}.

Section Primitives.

Context {F : Type} {O : Ops F}.

(** [jnp.sum] of a one-dimensional array. *)
Definition sum (a : list F) : F := fold_right add (of_nat 0) a.

(** [jnp.mean] of a one-dimensional array. *)
Definition mean (a : list F) : F := div (sum a) (of_nat (length a)).

(** [a ** 2]. *)
Definition square (a : F) : F := mul a a.

(** [a * b] for two one-dimensional arrays of the same length. *)
Fixpoint times (a b : list F) : list F :=
  match a, b with
  | x :: a', y :: b' => mul x y :: times a' b'
  | _, _ => []
  end.

(** [jnp.mean(a, axis=1)] of a two-dimensional array. *)
Definition mean_axis1 (a : list (list F)) : list F := map mean a.

(** [a[:, c]]. *)
Definition column (c : nat) (a : list (list F)) : list F :=
  map (fun row => nth c row nan) a.

(** [jnp.moveaxis(a, 0, 1)] of a two-dimensional array with [ncols]
    columns. *)
Definition moveaxis01 (ncols : nat) (a : list (list F)) : list (list F) :=
  map (fun c => column c a) (seq 0 ncols).

(** [vmap(f, in_axes=1)] applied to a two-dimensional array with [ncols]
    columns. *)
Definition vmap_in_axes1 {B : Type} (f : list F -> B) (ncols : nat)
  (a : list (list F)) : list B :=
  map (fun c => f (column c a)) (seq 0 ncols).

(** [jnp.where(c, a, b)] on scalars. *)
Definition where_ (c : bool) (a b : F) : F := if c then a else b.

End Primitives.

(** Exact real arithmetic with one non-finite value. *)
#[export] Instance exact : Ops num := {|
  of_nat := fun n => fin (INR n);
  add := nadd;
  sub := nsub;
  mul := nmul;
  div := ndiv;
  eq0 := fun x => neqb x (fin 0);
  nan := nonfinite
|}.

(** IEEE 754 arithmetic with [prec] bits of precision and exponents below
    [emax], rounding to nearest, ties to even. *)
Definition ieee (prec emax : Z) : Ops spec_float := {|
  of_nat := fun n => binary_normalize prec emax (Z.of_nat n) 0 false;
  add := SFadd prec emax;
  sub := SFsub prec emax;
  mul := SFmul prec emax;
  div := SFdiv prec emax;
  eq0 := fun x => SFeqb x (S754_zero false);
  nan := S754_nan
|}.

Definition binary32 : Ops spec_float := ieee 24 128.
Definition binary64 : Ops spec_float := ieee 53 1024.

(** The nearest number of the format to the decimal [n / d], for [n] and
    [d] that the format holds exactly. *)
Definition decimal (O : Ops spec_float) (n d : nat) : spec_float :=
  @div _ O (@of_nat _ O n) (@of_nat _ O d).

End Scalar.

(** ** [braintools/metric/_correlation.py] *)

Module Correlation.

(** A two-dimensional input array with finite entries. *)
Record ndarray2 : Type := mk_ndarray2 {
  shape0 : nat;
  shape1 : nat;
  cells : list (list R)
}.

Definition wf_ndarray2 (a : ndarray2) : bool :=
  (length (cells a) =? shape0 a)%nat
  && forallb (fun row => (length row =? shape1 a)%nat) (cells a).

Definition values (a : ndarray2) : list (list num) := map (map fin) (cells a).

(** The closure [_f] of the [loop] branch. *)
Definition _f (states : list (list num)) (ij : nat * nat) : num :=
  let (i, j) := ij in
  let sqrt_ij :=
    jnp.sqrt (nmul (jnp.sum (jnp.getitem states i))
                   (jnp.sum (jnp.getitem states j))) in
  lax_cond (neqb sqrt_ij (fin 0))
    (fun _ => fin 0)
    (fun _ => ndiv (jnp.sum (jnp.mul (jnp.getitem states i)
                                     (jnp.getitem states j))) sqrt_ij)
    tt.

(** The closure [_cc] of the [vmap] branch. *)
Definition _cc (states : list (list num)) (ij : nat * nat) : num :=
  let (i, j) := ij in
  let sqrt_ij :=
    jnp.sqrt (nmul (jnp.sum (jnp.getitem states i))
                   (jnp.sum (jnp.getitem states j))) in
  lax_cond (neqb sqrt_ij (fin 0))
    (fun _ => fin 0)
    (fun _ => ndiv (jnp.sum (jnp.mul (jnp.getitem states i)
                                     (jnp.getitem states j))) sqrt_ij)
    tt.

(** [dt = bc.environ.get_dt() if dt is None else dt] and
    [bin_size = int(bin / dt)], with [environ_dt] the time step of the
    environment. *)
Definition bin_size (environ_dt bin : PyFloat.float)
  (dt : option PyFloat.float) : result Z :=
  let dt := match dt with None => environ_dt | Some d => d end in
  q <- PyFloat.truediv bin dt ;;
  PyFloat.int q.

(** The binned, binarized activity computed before the pairwise pass. *)
Definition binned_states (environ_dt : PyFloat.float) (spikes : ndarray2)
  (bin : PyFloat.float) (dt : option PyFloat.float)
  : result (list (list num)) :=
  bin_size <- bin_size environ_dt bin dt ;;
  let num_hist := Z.of_nat (shape0 spikes) in
  let num_neu := shape1 spikes in
  q <- int_truediv num_hist bin_size ;;
  let num_bin := int_ceil q in
  spikes' <-
    (if negb (num_bin * bin_size =? num_hist)%Z
     then z <- jnp.zeros (num_bin * bin_size - num_hist) num_neu ;;
          Ok (jnp.append0 (values spikes) z)
     else Ok (values spikes)) ;;
  states <- jnp.reshape3 (jnp.T num_neu spikes') num_neu num_bin bin_size ;;
  Ok (jnp.gt0_as_float (jnp.sum_axis2 states)).

Definition cross_correlation (environ_dt : PyFloat.float)
  (spikes : ndarray2) (bin : PyFloat.float) (dt : option PyFloat.float)
  (method : string) : result num :=
  states <- binned_states environ_dt spikes bin dt ;;
  let indices := jnp.tril_indices (shape1 spikes) (-1) in
  res <-
    (if String.eqb method "loop"%string
     then Ok (for_loop (_f states) (combine (fst indices) (snd indices)))
     else if String.eqb method "vmap"%string
     then Ok (vmap (_cc states) (combine (fst indices) (snd indices)))
     else Raise ValueError) ;;
  Ok (jnp.mean res).

Section Voltage.

Import Scalar.

Context {F : Type} {O : Scalar.Ops F}.

Definition _f_signal (signal : list F) : F :=
  sub (mean (times signal signal)) (square (mean signal)).

Definition voltage_fluctuation (potentials : matrix F) (method : string)
  : result F :=
  let avg := mean_axis1 (entries potentials) in
  let avg_var := sub (mean (times avg avg)) (square (mean avg)) in
  _var <-
    (if String.eqb method "loop"
     then Ok (for_loop _f_signal
                (moveaxis01 (cols potentials) (entries potentials)))
     else if String.eqb method "vmap"
     then Ok (vmap_in_axes1 _f_signal (cols potentials) (entries potentials))
     else Raise ValueError) ;;
  let var_mean := mean _var in
  let r := where_ (eq0 var_mean) (of_nat 1) (div avg_var var_mean) in
  Ok r.

End Voltage.

(** An input array of any rank, with finite entries in row-major order. *)
Record ndarray : Type := mk_ndarray {
  shape : list nat;
  data : list R
}.

Definition ndim (a : ndarray) : nat := length (shape a).

Definition array1 (l : list R) : ndarray :=
  {| shape := [length l]; data := l |}.

(** [weighted_correlation] over exact arithmetic. The model stands for
    the program up to rounding: where a mean or a covariance is exactly 0
    in the model, the program can hold a rounding residue. *)
Definition _weighted_mean (x w : list num) : result num :=
  xw <- jnp.multiply x w ;;
  Ok (ndiv (jnp.sum xw) (jnp.sum w)).

Definition _weighted_cov (x y w : list num) : result num :=
  mx <- _weighted_mean x w ;;
  wx <- jnp.multiply w (jnp.sub_scalar x mx) ;;
  my <- _weighted_mean y w ;;
  wxy <- jnp.multiply wx (jnp.sub_scalar y my) ;;
  Ok (ndiv (jnp.sum wxy) (jnp.sum w)).

Definition weighted_correlation (x y w : ndarray) : result num :=
  if negb (ndim x =? 1)%nat then Raise ValueError
  else if negb (ndim y =? 1)%nat then Raise ValueError
  else if negb (ndim w =? 1)%nat then Raise ValueError
  else
    let xs := map fin (data x) in
    let ys := map fin (data y) in
    let ws := map fin (data w) in
    cxy <- _weighted_cov xs ys ws ;;
    cxx <- _weighted_cov xs xs ws ;;
    cyy <- _weighted_cov ys ys ws ;;
    Ok (ndiv cxy (jnp.sqrt (nmul cxx cyy))).

End Correlation.

(** ** The metrics as the specification words them

    These definitions follow the text of the specification, not the code;
    the properties relate the code to them. The module also holds the
    notions the properties are stated with. *)

Module CorrelationSpec.

Import Correlation.

Definition Rlist_sum (l : list R) : R := fold_right Rplus 0 l.

(** The sum of [f t] over [t = 0 .. n-1]. *)
Definition sum_upto (n : nat) (f : nat -> R) : R :=
  Rlist_sum (map f (seq 0 n)).

(** The time step: the ambient one when [dt] is not given. *)
Definition time_step (environ_dt : PyFloat.float)
  (dt : option PyFloat.float) : PyFloat.float :=
  match dt with None => environ_dt | Some d => d end.

(** The least number of bins of [bs] steps that cover [T] steps. *)
Definition num_bins (T bs : nat) : nat := ((T + bs - 1) / bs)%nat.

(** Entry [(t, i)] of the spike matrix extended with zero rows. *)
Definition padded (S : ndarray2) (t i : nat) : R :=
  if (t <? shape0 S)%nat then nth i (nth t (cells S) []) 0 else 0.

(** BinnedActivity[i, t]. *)
Definition B (S : ndarray2) (bs : nat) (i t : nat) : R :=
  if Rlt_dec 0 (sum_upto bs (fun k => padded S (t * bs + k) i)) then 1 else 0.

(** BinnedActivity as an array of shape (neuron, num_bins). *)
Definition binned_activity (S : ndarray2) (bs nb : nat) : list (list num) :=
  map (fun i => map (fun t => fin (B S bs i t)) (seq 0 nb)) (seq 0 (shape1 S)).

Definition pair_value (S : ndarray2) (bs nb : nat) (i j : nat) : R :=
  let dot := sum_upto nb (fun t => B S bs i t * B S bs j t) in
  let norm := sqrt (sum_upto nb (B S bs i) * sum_upto nb (B S bs j)) in
  if Req_dec_T norm 0 then 0 else dot / norm.

(** The pairs [(i, j)] with [j < i < n]. *)
Definition pairs (n : nat) : list (nat * nat) :=
  flat_map (fun i => map (fun j => (i, j)) (seq 0 i)) (seq 0 n).

(** The mean of a list of finite numbers: undefined when the list is
    empty. *)
Definition mean (l : list R) : num :=
  ndiv (fin (Rlist_sum l)) (fin (INR (length l))).

(** The index for bins of [bs] steps. *)
Definition cross_correlation (S : ndarray2) (bs : nat) : num :=
  let nb := num_bins (shape0 S) bs in
  mean (map (fun p => pair_value S bs nb (fst p) (snd p)) (pairs (shape1 S))).

Section VoltageSpec.

Import Scalar.

Context {F : Type} {O : Scalar.Ops F}.

(** The variance of a signal as the documentation of
    [voltage_fluctuation] writes it: the mean of the squares minus the
    square of the mean. *)
Definition variance (x : list F) : F :=
  sub (mean (map square x)) (square (mean x)).

(** The population average at each time step. *)
Definition population_average (V : matrix F) : list F :=
  map mean (entries V).

(** The signal of neuron [i] over time. *)
Definition neuron_signal (V : matrix F) (i : nat) : list F :=
  map (fun row => nth i row nan) (entries V).

Definition voltage_fluctuation (V : matrix F) : F :=
  let mean_var :=
    mean (map (fun i => variance (neuron_signal V i)) (seq 0 (cols V))) in
  if eq0 mean_var then of_nat 1
  else div (variance (population_average V)) mean_var.

End VoltageSpec.


(** Two lengths that the element-wise operations accept together. *)
Definition compatible (a b : nat) : bool :=
  (a =? b)%nat || (a =? 1)%nat || (b =? 1)%nat.

(** Three lengths that [weighted_correlation] accepts together. *)
Definition all_compatible (lx ly lw : nat) : bool :=
  compatible lx lw && compatible ly lw && compatible lx ly.

(** The length of the element-wise combination of two compatible
    arrays. *)
Definition broadcast_length (a b : nat) : nat :=
  if (a =? b)%nat then a else if (a =? 1)%nat then b else a.

(** A spike matrix without any spike. *)
Definition all_zero (S : ndarray2) : Prop :=
  Forall (Forall (fun x => x = 0)) (cells S).

(** The matrix [S[:, p]]: column [i] of the result is column [p[i]] of
    [S]. With [p] a permutation of the column indices this relabels the
    neurons. *)
Definition take_columns (S : ndarray2) (p : list nat) : ndarray2 :=
  {| shape0 := shape0 S;
     shape1 := length p;
     cells := map (fun row => map (fun c => nth c row 0) p) (cells S) |}.

(** The sum of [v x y] over the pairs of elements of [l] with [x] before
    [y]. *)
Fixpoint pair_sum (v : nat -> nat -> R) (l : list nat) : R :=
  match l with
  | [] => 0
  | x :: l' => Rlist_sum (map (v x) l') + pair_sum v l'
  end.

(** [p] lists each of [0 .. n-1] exactly once. *)
Definition is_permutation (n : nat) (p : list nat) : bool :=
  (length p =? n)%nat
  && forallb (fun i => (count_occ Nat.eq_dec p i =? 1)%nat) (seq 0 n).

(** The spike matrix of [test_c], of shape (9, 2). *)
Definition test_c_spikes : ndarray2 :=
  {| shape0 := 9;
     shape1 := 2;
     cells := [[1; 1]; [0; 1]; [1; 1]; [0; 1]; [1; 1]; [0; 1]; [1; 1];
               [0; 0]; [0; 0]] |}.

(** [jnp.ones((T, N))] as an input matrix. *)
Definition ones_spikes (T N : nat) : ndarray2 :=
  {| shape0 := T; shape1 := N; cells := repeat (repeat 1 N) T |}.

(** A spike matrix of shape (4, 3). *)
Definition example_spikes : ndarray2 :=
  {| shape0 := 4;
     shape1 := 3;
     cells := [[1; 0; 0]; [0; 0; 1]; [1; 1; 0]; [0; 0; 0]] |}.

(** [jnp.zeros((T, N))] as an input matrix. *)
Definition zero_spikes (T N : nat) : ndarray2 :=
  {| shape0 := T; shape1 := N; cells := repeat (repeat 0 N) T |}.

End CorrelationSpec.

(** ** [braintools/optim/_lr_scheduler.py] *)

Module LrScheduler.

(** The scalar arithmetic of the array library on floating-point
    numbers. *)
Class FloatOps (float : Type) : Type := {
  of_int : Z -> float;
  f_pi : float;
  f_add : float -> float -> float;
  f_sub : float -> float -> float;
  f_mul : float -> float -> float;
  f_div : float -> float -> float;
  f_pow : float -> float -> float;
  f_mod : float -> float -> float;
  f_minimum : float -> float -> float;
  f_cos : float -> float;
  f_log : float -> float;
  f_floor : float -> float;
  f_ge : float -> float -> bool;
  (* [x ** y] on two Python numbers: it raises [ZeroDivisionError] on a
     zero base with a negative exponent and [OverflowError] on a result
     out of range, where the array library returns [inf] *)
  f_py_pow : float -> float -> result float
}.

(** An integer array scalar: its dtype is fixed when it is created. *)
Record int_scalar : Type := mk_int_scalar {
  bits : Z;
  val : Z
}.

(** Two's-complement wrap-around on [b] bits. *)
Definition wrap (b z : Z) : Z :=
  ((z + 2 ^ (b - 1)) mod 2 ^ b - 2 ^ (b - 1))%Z.

(** [a + 1] on an integer array scalar. *)
Definition int_succ (a : int_scalar) : int_scalar :=
  {| bits := bits a; val := wrap (bits a) (val a + 1) |}.

(** [jnp.asarray(v, dtype=ditype)] of a Python integer. *)
Definition as_int (ditype : Z) (v : Z) : result int_scalar :=
  if ((- 2 ^ (ditype - 1) <=? v) && (v <? 2 ^ (ditype - 1)))%Z
  then Ok {| bits := ditype; val := v |}
  else Raise OverflowError.

Section Schedulers.

Context {float : Type} {ops : FloatOps float}.

Local Infix "+." := f_add (at level 50, left associativity).
Local Infix "-." := f_sub (at level 50, left associativity).
Local Infix "*." := f_mul (at level 40, left associativity).
Local Infix "/." := f_div (at level 40, left associativity).
Local Infix "**." := f_pow (at level 30, right associativity).

(** The mutable attributes of a scheduler; [last_call] exists on the
    call-based classes only. *)
Record state : Type := mk_state {
  lr : float;
  last_epoch : int_scalar;
  last_call : option int_scalar
}.

(** The concrete scheduler classes with their parameters. The
    [milestones] of [MultiStepLR] are the stored array, which the
    constructor extends with a sentinel at each end. *)
Inductive kind : Type :=
| ConstantLR
| StepLR (step_size : Z) (gamma : float)
| MultiStepLR (milestones : list Z) (gamma : float)
| CosineAnnealingLR (T_max : Z) (eta_min : float)
| CosineAnnealingWarmRestarts (num_call_per_epoch T_0 T_mult : Z)
    (eta_min : float)
| ExponentialLR (gamma : float)
| ExponentialDecayLR (decay_steps decay_rate : float)
| InverseTimeDecayLR (decay_steps decay_rate : float) (staircase : bool)
| PolynomialDecayLR (decay_steps final_lr power : float)
| PiecewiseConstantLR (boundaries : list Z) (values : list float).

(** The classes derived from [CallBasedLRScheduler]. *)
Definition call_based (k : kind) : bool :=
  match k with
  | CosineAnnealingWarmRestarts _ _ _ _
  | ExponentialDecayLR _ _
  | InverseTimeDecayLR _ _ _
  | PolynomialDecayLR _ _ _
  | PiecewiseConstantLR _ _ => true
  | _ => false
  end.

(** The classes derived from [LearningRateScheduler] directly. *)
Definition epoch_based (k : kind) : bool :=
  match k with
  | ConstantLR
  | StepLR _ _
  | MultiStepLR _ _
  | CosineAnnealingLR _ _
  | ExponentialLR _ => true
  | _ => false
  end.

(** Methods read and write the attributes and may raise. *)
Definition M (A : Type) : Type := state -> result (A * state).

Definition ret {A : Type} (a : A) : M A := fun s => Ok (a, s).

Definition mbind {A B : Type} (m : M A) (k : A -> M B) : M B :=
  fun s =>
    match m s with
    | Ok (a, s') => k a s'
    | Raise e => Raise e
    end.

Local Notation "x <~ m ;; k" := (mbind m (fun x => k))
  (at level 61, m at next level, right associativity).

Definition get_lr : M float := fun s => Ok (lr s, s).

Definition get_last_epoch : M int_scalar := fun s => Ok (last_epoch s, s).

Definition get_last_call : M int_scalar :=
  fun s =>
    match last_call s with
    | Some c => Ok (c, s)
    | None => Raise AttributeError
    end.

Definition set_last_epoch (v : int_scalar) : M unit :=
  fun s => Ok (tt, {| lr := lr s; last_epoch := v; last_call := last_call s |}).

Definition set_last_call (v : int_scalar) : M unit :=
  fun s => Ok (tt, {| lr := lr s; last_epoch := last_epoch s;
                      last_call := Some v |}).

(** [LearningRateScheduler.step_epoch]. *)
Definition step_epoch : M unit :=
  e <~ get_last_epoch ;;
  set_last_epoch (int_succ e).

(** [LearningRateScheduler.step_call]: its body is [pass]. *)
Definition LearningRateScheduler_step_call : M unit := ret tt.

(** [CallBasedLRScheduler.step_call]. *)
Definition CallBasedLRScheduler_step_call : M unit :=
  c <~ get_last_call ;;
  set_last_call (int_succ c).

(** [scheduler.step_call()]: the method of the nearest class that
    defines it. *)
Definition step_call (k : kind) : M unit :=
  if call_based k
  then CallBasedLRScheduler_step_call
  else LearningRateScheduler_step_call.

(** The step a call works with: the Python integer the caller gave, or
    the array scalar read from a counter. Arithmetic on the first is
    Python's until an array takes part; arithmetic on the second is the
    array library's, which never raises. *)
Inductive step : Type :=
| PyInt (i : Z)
| ArrayInt (i : Z).

Definition step_val (i : step) : Z :=
  match i with PyInt v | ArrayInt v => v end.

(** [x == 0] on a number. *)
Definition is_zero (x : float) : bool :=
  f_ge x (of_int 0) && f_ge (of_int 0) x.

(** [a / b] on two Python numbers. *)
Definition py_truediv (a b : float) : result float :=
  if is_zero b then Raise ZeroDivisionError else Ok (a /. b).

(** [a / b] where [a] is made from the step [i] and [b] is a parameter. *)
Definition step_div (i : step) (a b : float) : result float :=
  match i with
  | PyInt _ => py_truediv a b
  | ArrayInt _ => Ok (a /. b)
  end.

(** [a ** b] where [b] is made from the step [i] and [a] is a
    parameter. *)
Definition step_pow (i : step) (a b : float) : result float :=
  match i with
  | PyInt _ => f_py_pow a b
  | ArrayInt _ => Ok (a **. b)
  end.

Definition lift {A : Type} (r : result A) : M A :=
  fun s =>
    match r with
    | Ok a => Ok (a, s)
    | Raise e => Raise e
    end.

(** [i = (self.last_epoch.value + 1) if i is None else i]. *)
Definition epoch_step (i : option Z) : M step :=
  match i with
  | None => e <~ get_last_epoch ;; ret (ArrayInt (val (int_succ e)))
  | Some i => ret (PyInt i)
  end.

(** [i = (self.last_call.value + 1) if i is None else i]. *)
Definition call_step (i : option Z) : M step :=
  match i with
  | None => c <~ get_last_call ;; ret (ArrayInt (val (int_succ c)))
  | Some i => ret (PyInt i)
  end.

(** [jnp.argmax] of a boolean array: the first index holding [True], 0 when
    there is none. *)
Fixpoint argmax (conditions : list bool) : Z :=
  match conditions with
  | [] => 0
  | c :: rest =>
      if c then 0
      else if existsb (fun b => b) rest then (1 + argmax rest)%Z else 0%Z
  end.

(** [jnp.logical_and(a, b)] of two boolean arrays of the same length. *)
Fixpoint logical_and (a b : list bool) : list bool :=
  match a, b with
  | x :: a', y :: b' => (x && y) :: logical_and a' b'
  | _, _ => []
  end.

(** [jnp.sum(i > boundaries)]. *)
Definition sum_gt (i : Z) (boundaries : list Z) : Z :=
  fold_right Z.add 0%Z (map (fun b => if (b <? i)%Z then 1%Z else 0%Z) boundaries).

(** [values[k]] for a non-negative index: an index past the end is
    clamped to the last element. *)
Definition getitem (values : list float) (k : Z) : result float :=
  match values with
  | [] => Raise IndexError
  | v :: _ =>
      Ok (nth (Nat.min (Z.to_nat k) (length values - 1)) values v)
  end.

Definition ConstantLR_call (i : option Z) : M float :=
  get_lr.

Definition StepLR_call (step_size : Z) (gamma : float) (i : option Z)
  : M float :=
  i <~ epoch_step i ;;
  lr <~ get_lr ;;
  ret (lr *. gamma **. of_int (step_val i / step_size)).

Definition MultiStepLR_call (milestones : list Z) (gamma : float)
  (i : option Z) : M float :=
  i <~ epoch_step i ;;
  let conditions :=
    logical_and (map (fun m => (m <=? step_val i)%Z) (removelast milestones))
                (map (fun m => (step_val i <? m)%Z) (tl milestones)) in
  let p := argmax conditions in
  lr <~ get_lr ;;
  ret (lr *. gamma **. of_int p).

Definition CosineAnnealingLR_call (T_max : Z) (eta_min : float)
  (i : option Z) : M float :=
  i <~ epoch_step i ;;
  lr <~ get_lr ;;
  x <~ lift (step_div i (f_pi *. of_int (step_val i)) (of_int T_max)) ;;
  ret (eta_min +. (lr -. eta_min) *. (of_int 1 +. f_cos x) /. of_int 2).

(** [CosineAnnealingWarmRestarts.current_epoch]. *)
Definition current_epoch (num_call_per_epoch : Z) (i : option Z) : M float :=
  i <~ call_step i ;;
  q <~ lift (step_div i (of_int (step_val i)) (of_int num_call_per_epoch)) ;;
  ret (f_floor q).

Definition _cond1 (T_0 T_mult : Z) (epoch : float) : float * float :=
  if (T_mult =? 1)%Z
  then (f_mod epoch (of_int T_0), of_int T_0)
  else
    let n :=
      f_floor (f_log (epoch /. of_int T_0 *. of_int (T_mult - 1) +. of_int 1)
               /. f_log (of_int T_mult)) in
    let T_cur :=
      epoch -. of_int T_0 *. (of_int T_mult **. n -. of_int 1)
                /. of_int (T_mult - 1) in
    let T_i := of_int T_0 *. of_int T_mult **. n in
    (T_cur, T_i).

Definition _cond2 (T_0 : Z) (epoch : float) : float * float :=
  (epoch, of_int T_0).

Definition CosineAnnealingWarmRestarts_call (num_call_per_epoch T_0 T_mult : Z)
  (eta_min : float) (i : option Z) : M float :=
  epoch <~ current_epoch num_call_per_epoch i ;;
  let (T_cur, T_i) :=
    lax_cond (f_ge epoch (of_int T_0)) (_cond1 T_0 T_mult) (_cond2 T_0) epoch in
  lr <~ get_lr ;;
  ret (eta_min +.
       (lr -. eta_min) *.
       (of_int 1 +. f_cos (f_pi *. T_cur /. T_i)) /. of_int 2).

Definition ExponentialLR_call (gamma : float) (i : option Z) : M float :=
  i <~ epoch_step i ;;
  lr <~ get_lr ;;
  p <~ lift (step_pow i gamma (of_int (step_val i))) ;;
  ret (lr *. p).

Definition ExponentialDecayLR_call (decay_steps decay_rate : float)
  (i : option Z) : M float :=
  i <~ call_step i ;;
  lr <~ get_lr ;;
  q <~ lift (step_div i (of_int (step_val i)) decay_steps) ;;
  p <~ lift (step_pow i decay_rate q) ;;
  ret (lr *. p).

Definition InverseTimeDecayLR_call (decay_steps decay_rate : float)
  (staircase : bool) (i : option Z) : M float :=
  i <~ call_step i ;;
  lr <~ get_lr ;;
  if staircase
  then
    q <~ lift (step_div i (of_int (step_val i)) decay_steps) ;;
    ret (lr /. (of_int 1 +. decay_rate *. f_floor q))
  else
    q <~ lift (step_div i (decay_rate *. of_int (step_val i)) decay_steps) ;;
    ret (lr /. (of_int 1 +. q)).

Definition PolynomialDecayLR_call (decay_steps final_lr power : float)
  (i : option Z) : M float :=
  i <~ call_step i ;;
  let i := f_minimum (of_int (step_val i)) decay_steps in
  let step_mult := (of_int 1 -. i /. decay_steps) **. power in
  lr <~ get_lr ;;
  ret (step_mult *. (lr -. final_lr) +. final_lr).

Definition PiecewiseConstantLR_call (boundaries : list Z)
  (values : list float) (i : option Z) : M float :=
  i <~ call_step i ;;
  lift (getitem values (sum_gt (step_val i) boundaries)).

(** [scheduler(i)]: the [__call__] of the scheduler's class. *)
Definition call (k : kind) (i : option Z) : M float :=
  match k with
  | ConstantLR => ConstantLR_call i
  | StepLR step_size gamma => StepLR_call step_size gamma i
  | MultiStepLR milestones gamma => MultiStepLR_call milestones gamma i
  | CosineAnnealingLR T_max eta_min => CosineAnnealingLR_call T_max eta_min i
  | CosineAnnealingWarmRestarts n T_0 T_mult eta_min =>
      CosineAnnealingWarmRestarts_call n T_0 T_mult eta_min i
  | ExponentialLR gamma => ExponentialLR_call gamma i
  | ExponentialDecayLR decay_steps decay_rate =>
      ExponentialDecayLR_call decay_steps decay_rate i
  | InverseTimeDecayLR decay_steps decay_rate staircase =>
      InverseTimeDecayLR_call decay_steps decay_rate staircase i
  | PolynomialDecayLR decay_steps final_lr power =>
      PolynomialDecayLR_call decay_steps final_lr power i
  | PiecewiseConstantLR boundaries values =>
      PiecewiseConstantLR_call boundaries values i
  end.

(** [LearningRateScheduler.__init__]. *)
Definition LearningRateScheduler_init (ditype : Z) (lr : float)
  (last_epoch : Z) : result state :=
  if negb (-1 <=? last_epoch)%Z then Raise AssertionError
  else
    e <- as_int ditype last_epoch ;;
    Ok {| lr := lr; last_epoch := e; last_call := None |}.

(** [CallBasedLRScheduler.__init__]. *)
Definition CallBasedLRScheduler_init (ditype : Z) (lr : float)
  (last_epoch last_call : Z) : result state :=
  s <- LearningRateScheduler_init ditype lr last_epoch ;;
  if negb (-1 <=? last_call)%Z then Raise AssertionError
  else
    c <- as_int ditype last_call ;;
    let (lr, last_epoch, _) := s in
    Ok {| lr := lr; last_epoch := last_epoch; last_call := Some c |}.

(** [PiecewiseConstantLR.__init__] on two sequences of numbers. *)
Definition PiecewiseConstantLR_init (ditype : Z) (boundaries : list Z)
  (values : list float) (last_epoch last_call : Z) : result (kind * state) :=
  s <- CallBasedLRScheduler_init ditype (of_int 0) last_epoch last_call ;;
  if negb (Z.of_nat (length boundaries) =? Z.of_nat (length values) - 1)%Z
  then Raise ValueError
  else Ok (PiecewiseConstantLR boundaries values, s).

(** A scheduler whose class is call-based has its call counter. *)
Definition has_counters (k : kind) (s : state) : bool :=
  if call_based k
  then match last_call s with Some _ => true | None => false end
  else true.

(** The invariant the constructors establish: the counters of the class
    exist, and a piecewise-constant schedule has one value more than it
    has boundaries. *)
Definition valid (k : kind) (s : state) : bool :=
  has_counters k s &&
  match k with
  | PiecewiseConstantLR boundaries values =>
      (length boundaries + 1 =? length values)%nat
  | _ => true
  end.

(** The value a call returns, or the exception it raises. *)
Definition outcome {A : Type} (r : result (A * state)) : result A :=
  match r with
  | Ok (a, _) => Ok a
  | Raise e => Raise e
  end.

(** The step a call evaluates: the given one, or the next index of the
    counter the class uses. *)
Definition evaluated_step (k : kind) (i : option Z) (s : state) : option Z :=
  match i with
  | Some i => Some i
  | None =>
      if call_based k
      then option_map (fun c => val (int_succ c)) (last_call s)
      else Some (val (int_succ (last_epoch s)))
  end.

(** At the explicit step [j], the Python arithmetic of the class returns
    what the array arithmetic returns at the same step: its divisor is
    not zero and its power does not raise. This holds by itself for the
    classes without such arithmetic. *)
Definition python_agrees (k : kind) (j : Z) : Prop :=
  match k with
  | CosineAnnealingLR T_max _ => is_zero (of_int T_max) = false
  | CosineAnnealingWarmRestarts num_call_per_epoch _ _ _ =>
      is_zero (of_int num_call_per_epoch) = false
  | ExponentialLR gamma =>
      f_py_pow gamma (of_int j) = Ok (gamma **. of_int j)
  | ExponentialDecayLR decay_steps decay_rate =>
      is_zero decay_steps = false /\
      f_py_pow decay_rate (of_int j /. decay_steps) =
      Ok (decay_rate **. (of_int j /. decay_steps))
  | InverseTimeDecayLR decay_steps _ _ => is_zero decay_steps = false
  | _ => True
  end.

End Schedulers.

Arguments state float : clear implicits.
Arguments kind float : clear implicits.

(** The count of boundaries strictly below [i]. *)
Definition count_below (i : Z) (boundaries : list Z) : nat :=
  length (filter (fun b => (b <? i)%Z) boundaries).

(** Exact real arithmetic as scalar arithmetic; the operations left
    undefined by the reals take the value chosen by the library of
    reals. *)
#[export] Instance real_ops : FloatOps R := {|
  of_int := IZR;
  f_pi := PI;
  f_add := Rplus;
  f_sub := Rminus;
  f_mul := Rmult;
  f_div := Rdiv;
  f_pow := Rpower;
  f_mod := fun x y => x - IZR (Int_part (x / y)) * y;
  f_minimum := Rmin;
  f_cos := cos;
  f_log := ln;
  f_floor := fun x => IZR (Int_part x);
  f_ge := fun x y => if Rle_dec y x then true else false;
  f_py_pow := fun x y =>
    if Req_dec_T x 0
    then if Rlt_dec y 0 then Raise ZeroDivisionError else Ok (Rpower x y)
    else Ok (Rpower x y)
|}.

(** The attributes of a scheduler built with the default counters
    [last_epoch = -1] and [last_call = -1] on 32-bit integers. *)
Definition fresh_epoch_state (lr : R) : state R :=
  {| lr := lr; last_epoch := {| bits := 32; val := -1 |}; last_call := None |}.

Definition fresh_call_state (lr : R) : state R :=
  {| lr := lr; last_epoch := {| bits := 32; val := -1 |};
     last_call := Some {| bits := 32; val := -1 |} |}.

End LrScheduler.

(** ** Input matrices the further properties are stated with *)

Module CorrelationInputs.

Import Correlation.

(** A matrix of [N] identical columns: every neuron carries the series
    [xs]. *)
Definition identical_columns (xs : list R) (N : nat) : ndarray2 :=
  {| shape0 := length xs;
     shape1 := N;
     cells := map (fun x => repeat x N) xs |}.

(** [c * S], entry by entry. *)
Definition scale_matrix (c : R) (S : ndarray2) : ndarray2 :=
  {| shape0 := shape0 S;
     shape1 := shape1 S;
     cells := map (map (Rmult c)) (cells S) |}.

(** [S] followed by [k] rows of zeros. *)
Definition append_zero_rows (S : ndarray2) (k : nat) : ndarray2 :=
  {| shape0 := shape0 S + k;
     shape1 := shape1 S;
     cells := cells S ++ repeat (repeat 0 (shape1 S)) k |}.

End CorrelationInputs.

(** ** Weighted means and covariances of indexed families of reals *)

Module RealStatistics.

Import CorrelationSpec.

(** The weighted mean of [f] over the index list [l], with weights [w]. *)
Definition wmean {A : Type} (l : list A) (w f : A -> R) : R :=
  Rlist_sum (map (fun a => f a * w a) l) / Rlist_sum (map w l).

(** The weighted covariance of [f] and [g]. *)
Definition wcov {A : Type} (l : list A) (w f g : A -> R) : R :=
  Rlist_sum (map (fun a => w a * (f a - wmean l w f) * (g a - wmean l w g)) l)
  / Rlist_sum (map w l).

End RealStatistics.

(** ** Constructors and repeated method calls of the schedulers *)

Module LrSchedulerInit.

Import LrScheduler.

(** [np.iinfo(np.int32).max]. *)
Definition int32_max : Z := 2147483647.

(** [all([milestones[i] < milestones[i + 1] for i in
    range(len(milestones) - 1)])]. *)
Fixpoint increasing (milestones : list Z) : bool :=
  match milestones with
  | a :: (b :: _) as rest => (a <? b)%Z && increasing rest
  | _ => true
  end.

(** [jnp.asarray(t, dtype=ditype)] of a tuple of Python integers. *)
Definition as_ints (ditype : Z) (t : list Z) : result (list Z) :=
  if forallb (fun v => (- 2 ^ (ditype - 1) <=? v) && (v <? 2 ^ (ditype - 1)))%Z
             t
  then Ok t
  else Raise OverflowError.

Section Init.

Context {float : Type} {ops : FloatOps float}.

(** [MultiStepLR.__init__]. *)
Definition MultiStepLR_init (ditype : Z) (lr : float) (milestones : list Z)
  (gamma : float) (last_epoch : Z) : result (kind float * state float) :=
  s <- LearningRateScheduler_init ditype lr last_epoch ;;
  if negb (0 <? length milestones)%nat then Raise AssertionError
  else if negb (increasing milestones) then Raise AssertionError
  else if negb (f_ge (of_int 1) gamma && f_ge gamma (of_int 0))
  then Raise AssertionError
  else
    ms <- as_ints ditype ((-1)%Z :: milestones ++ [int32_max]) ;;
    Ok (MultiStepLR ms gamma, s).

(** A method called [n] times in a row. *)
Fixpoint times (n : nat) (m : @M float unit) : @M float unit :=
  match n with
  | O => ret tt
  | S n' => mbind m (fun _ => times n' m)
  end.

(** The parameter that Python divides an explicit step by, in the
    classes whose constructor does not check it. *)
Definition unchecked_divisor (k : kind float) : option float :=
  match k with
  | ExponentialDecayLR decay_steps _
  | InverseTimeDecayLR decay_steps _ _ => Some decay_steps
  | CosineAnnealingWarmRestarts num_call_per_epoch _ _ _ =>
      Some (of_int num_call_per_epoch)
  | _ => None
  end.

End Init.

(** The count of milestones at or below [i]. *)
Definition count_reached (i : Z) (milestones : list Z) : Z :=
  Z.of_nat (length (filter (fun m => (m <=? i)%Z) milestones)).

End LrSchedulerInit.

(** ** [matrix_correlation] *)

Module MatrixCorrelation.

Import Correlation.

(** [jnp.triu_indices_from(arr, k)]: the positions where
    [tri(n, m, k - 1)] does not hold, in row-major order, for the last two
    axes [n] and [m] of the array. *)
Definition triu_indices_from (arr : ndarray) (k : Z) : list (nat * nat) :=
  let n := nth 0 (shape arr) 0%nat in
  let m := nth 1 (shape arr) 0%nat in
  filter (fun p => negb (jnp.tri (k - 1) (fst p) (snd p)))
         (list_prod (seq 0 n) (seq 0 m)).

(** [x[i, j]] of a two-dimensional array stored in row-major order. *)
Definition entry (x : ndarray) (i j : nat) : R :=
  nth (i * nth 1 (shape x) 0%nat + j) (data x) 0.

(** [x[indices]] for a pair of index arrays. *)
Definition take (x : ndarray) (indices : list (nat * nat)) : list R :=
  map (fun p => entry x (fst p) (snd p)) indices.

Section Corrcoef.

(** [jnp.corrcoef(x, y)[0, 1]] of the array library. *)
Variable corrcoef01 : list R -> list R -> result num.

Definition matrix_correlation (x y : ndarray) : result num :=
  if negb (ndim x =? 2)%nat then Raise ValueError
  else if negb (ndim y =? 2)%nat then Raise ValueError
  else
    let x := take x (triu_indices_from x 1) in
    let y := take y (triu_indices_from y 1) in
    corrcoef01 x y.

End Corrcoef.

End MatrixCorrelation.

(** * Properties *)

(** ** The primitives on small inputs *)

Module Examples.

Import LrScheduler.

Example tril_indices_3 :
  jnp.tril_indices 3 (-1) = ([1; 2; 2]%nat, [0; 0; 1]%nat).
Proof. reflexivity. Qed.

Example chunks_2_3 :
  jnp.chunks 2 3 [1; 2; 3; 4; 5; 6]%nat = [[1; 2; 3]; [4; 5; 6]]%nat.
Proof. reflexivity. Qed.

Example int_toward_zero :
  PyFloat.int (PyFloat.literal (-7) 2) = Ok (-3)%Z /\
  PyFloat.int (PyFloat.literal 7 2) = Ok 3%Z.
Proof. split; reflexivity. Qed.

Example float_0_1 :
  PyFloat.literal 1 10 = S754_finite false 7205759403792794 (-56).
Proof. reflexivity. Qed.

(** [int(1.0 / 0.1)] is 10 and [int(0.3 / 0.1)] is 2: the quotients are
    rounded before they are truncated. *)
Example bin_size_1_by_0_1 :
  Correlation.bin_size (PyFloat.literal 1 10) (PyFloat.of_int 1) None =
  Ok 10%Z.
Proof. reflexivity. Qed.

Example bin_size_0_3_by_0_1 :
  Correlation.bin_size (PyFloat.literal 1 10) (PyFloat.literal 3 10) None =
  Ok 2%Z.
Proof. reflexivity. Qed.

Example bin_size_by_zero :
  Correlation.bin_size (PyFloat.of_int 0) (PyFloat.of_int 1) None =
  Raise ZeroDivisionError.
Proof. reflexivity. Qed.

Example ceiling_9_by_2 : int_truediv 9 2 = Ok (9 # 2) /\ int_ceil (9 # 2) = 5%Z.
Proof. split; reflexivity. Qed.

Example num_bins_9_by_2 : CorrelationSpec.num_bins 9 2 = 5%nat.
Proof. reflexivity. Qed.

Example pairs_3 : CorrelationSpec.pairs 3 = [(1, 0); (2, 0); (2, 1)]%nat.
Proof. reflexivity. Qed.

Example for_loop_order :
  for_loop (fun x => x * 2)%nat [1; 2; 3]%nat = [2; 4; 6]%nat.
Proof. reflexivity. Qed.

Example wrap_int32_max : wrap 32 (2147483647 + 1) = (-2147483648)%Z.
Proof. reflexivity. Qed.

Example argmax_first_true :
  argmax [false; true; true] = 1%Z /\ argmax [false; false] = 0%Z.
Proof. split; reflexivity. Qed.

Example sum_gt_15 : sum_gt 15 [10; 20]%Z = 1%Z.
Proof. reflexivity. Qed.

Example as_int_overflow : as_int 32 2147483648 = Raise OverflowError.
Proof. reflexivity. Qed.

Example step_epoch_fresh :
  step_epoch (fresh_epoch_state 1) =
  Ok (tt, {| lr := 1; last_epoch := {| bits := 32; val := 0 |};
             last_call := None |}).
Proof. reflexivity. Qed.

Example step_call_counts :
  step_call (PiecewiseConstantLR [10; 20]%Z [0.1; 0.01; 0.001])
            (fresh_call_state 0) =
  Ok (tt, {| lr := 0; last_epoch := {| bits := 32; val := -1 |};
             last_call := Some {| bits := 32; val := 0 |} |}).
Proof. reflexivity. Qed.

Example piecewise_init_ok :
  PiecewiseConstantLR_init 32 [10; 20]%Z [0.1; 0.01; 0.001] (-1) (-1) =
  Ok (PiecewiseConstantLR [10; 20]%Z [0.1; 0.01; 0.001], fresh_call_state 0).
Proof. reflexivity. Qed.

Example multiply_broadcast :
  jnp.multiply [fin 1; fin 2; fin 3] [fin 2] =
  Ok [nmul (fin 1) (fin 2); nmul (fin 2) (fin 2); nmul (fin 3) (fin 2)].
Proof. reflexivity. Qed.

Example multiply_mismatch :
  jnp.multiply [fin 1; fin 2; fin 3] [fin 2; fin 2] = Raise ShapeError.
Proof. reflexivity. Qed.

End Examples.

(** ** Lists, sums and scalars *)

Module ListFacts.

Lemma seq_as_shift (s n : nat) : seq s n = map (fun k => (s + k)%nat) (seq 0 n).
Proof.
  revert s. induction n as [|n IH]; intros s; simpl.
  - reflexivity.
  - rewrite Nat.add_0_r. f_equal.
    rewrite (IH (S s)), <- seq_shift, map_map.
    apply map_ext. intros k. lia.
Qed.

Lemma nth_map_seq {A : Type} (f : nat -> A) (d : A) (n i : nat) :
  (i < n)%nat -> nth i (map f (seq 0 n)) d = f i.
Proof.
  intros Hi.
  rewrite (nth_indep _ d (f 0%nat)) by now rewrite length_map, length_seq.
  rewrite (map_nth f), seq_nth by assumption. reflexivity.
Qed.

Lemma list_as_map_nth {A : Type} (d : A) (l : list A) :
  l = map (fun i => nth i l d) (seq 0 (length l)).
Proof.
  apply (nth_ext _ _ d d).
  - now rewrite length_map, length_seq.
  - intros n Hn. now rewrite nth_map_seq.
Qed.

Lemma for_loop_acc {A B : Type} (f : A -> B) (l : list A) (acc : list B) :
  fold_left (fun acc x => acc ++ [f x]) l acc = acc ++ map f l.
Proof.
  revert acc. induction l as [|x l IH]; intros acc; simpl.
  - now rewrite app_nil_r.
  - rewrite IH, <- app_assoc. reflexivity.
Qed.

Lemma for_loop_map {A B : Type} (f : A -> B) (l : list A) :
  for_loop f l = map f l.
Proof. unfold for_loop. now rewrite for_loop_acc. Qed.

Lemma chunks_concat {A : Type} (m : nat) (rows : list (list A)) :
  Forall (fun r => length r = m) rows ->
  jnp.chunks (length rows) m (concat rows) = rows.
Proof.
  induction 1 as [|r rows Hr _ IH]; simpl.
  - reflexivity.
  - rewrite firstn_app, <- Hr, Nat.sub_diag, firstn_all, firstn_O, app_nil_r.
    rewrite skipn_app, Nat.sub_diag, skipn_all. simpl.
    rewrite Hr. now rewrite IH.
Qed.

Lemma chunks_map_seq {A : Type} (f : nat -> A) (n m s : nat) :
  jnp.chunks n m (map f (seq s (n * m))) =
  map (fun b => map (fun k => f (s + b * m + k)%nat) (seq 0 m)) (seq 0 n).
Proof.
  revert s. induction n as [|n IH]; intros s.
  - reflexivity.
  - cbn [jnp.chunks Nat.mul]. 
    rewrite seq_app, map_app.
    rewrite firstn_app, length_map, length_seq, Nat.sub_diag, firstn_O, app_nil_r.
    rewrite firstn_all2 by now rewrite length_map, length_seq.
    rewrite skipn_app, length_map, length_seq, Nat.sub_diag.
    rewrite skipn_all2 by now rewrite length_map, length_seq.
    cbn [skipn app]. rewrite IH.
    cbn [seq map]. f_equal.
    + rewrite (seq_as_shift s m), map_map.
      apply map_ext. intros k. f_equal. lia.
    + rewrite <- seq_shift, map_map.
      apply map_ext. intros b. apply map_ext. intros k. f_equal. lia.
Qed.

End ListFacts.

Module NumFacts.

Import CorrelationSpec.

Lemma jnp_sum_fin (l : list R) : jnp.sum (map fin l) = fin (Rlist_sum l).
Proof.
  induction l as [|x l IH].
  - reflexivity.
  - cbn [map]. change (jnp.sum (fin x :: map fin l))
      with (nadd (fin x) (jnp.sum (map fin l))).
    rewrite IH. reflexivity.
Qed.

Lemma jnp_sum_fin_seq (f : nat -> R) (n : nat) :
  jnp.sum (map (fun k => fin (f k)) (seq 0 n)) = fin (sum_upto n f).
Proof.
  unfold sum_upto. rewrite <- jnp_sum_fin, map_map. reflexivity.
Qed.

Lemma jnp_mean_fin (l : list R) : jnp.mean (map fin l) = mean l.
Proof.
  unfold jnp.mean, mean. now rewrite jnp_sum_fin, length_map.
Qed.

Lemma jnp_mul_fin (f g : nat -> R) (l : list nat) :
  jnp.mul (map (fun t => fin (f t)) l) (map (fun t => fin (g t)) l) =
  map (fun t => fin (f t * g t)) l.
Proof.
  induction l as [|x l IH]; simpl; [reflexivity | now rewrite IH].
Qed.

Lemma Rlist_sum_nonneg (l : list R) :
  Forall (fun x => 0 <= x) l -> 0 <= Rlist_sum l.
Proof.
  induction 1 as [|x l Hx _ IH]; simpl; lra.
Qed.

Lemma Rlist_sum_app (l1 l2 : list R) :
  Rlist_sum (l1 ++ l2) = Rlist_sum l1 + Rlist_sum l2.
Proof.
  induction l1 as [|x l1 IH]; simpl; [lra | rewrite IH; lra].
Qed.

End NumFacts.

(** ** Bin arithmetic of [cross_correlation] *)

Module BinFacts.

Import CorrelationSpec.

Lemma int_truediv_ok (a b : Z) :
  b <> 0%Z -> int_truediv a b = Ok (inject_Z a / inject_Z b)%Q.
Proof.
  intros Hb. unfold int_truediv.
  destruct (Z.eqb_spec b 0); [contradiction | reflexivity].
Qed.

(** A division by a zero float raises before anything is truncated. *)
Lemma bin_size_zero_step (environ_dt bin : PyFloat.float)
  (dt : option PyFloat.float) (sg : bool) :
  time_step environ_dt dt = S754_zero sg ->
  Correlation.bin_size environ_dt bin dt = Raise ZeroDivisionError.
Proof.
  unfold Correlation.bin_size, time_step. intros ->. reflexivity.
Qed.

Lemma Z_ceil_div (a b : Z) :
  (0 < b)%Z -> (- ((- a) / b) = (a + b - 1) / b)%Z.
Proof.
  intros Hb.
  pose proof (Z.div_mod (a + b - 1) b ltac:(lia)) as E.
  pose proof (Z.mod_pos_bound (a + b - 1) b Hb) as Hr.
  symmetry. apply Z.opp_inj. rewrite Z.opp_involutive.
  apply (Z.div_unique_pos (- a) b _ (b - 1 - (a + b - 1) mod b)); lia.
Qed.

Lemma ceiling_num_bins (T bs : nat) :
  (1 <= bs)%nat ->
  int_ceil (inject_Z (Z.of_nat T) / inject_Z (Z.of_nat bs)) =
  Z.of_nat (num_bins T bs).
Proof.
  intros Hbs. unfold num_bins.
  rewrite Nat2Z.inj_div, Nat2Z.inj_sub, Nat2Z.inj_add by lia.
  change (Z.of_nat 1) with 1%Z.
  rewrite <- Z_ceil_div by lia.
  unfold int_ceil, Qceiling. f_equal.
  destruct bs as [|n]; [lia|].
  unfold Qfloor, Qdiv, Qmult, Qinv, Qopp, inject_Z. cbn.
  now rewrite Z.mul_1_r.
Qed.

Lemma num_bins_cover (T bs : nat) :
  (1 <= bs)%nat -> (T <= num_bins T bs * bs)%nat.
Proof.
  intros Hbs. unfold num_bins.
  pose proof (Nat.div_mod (T + bs - 1) bs ltac:(lia)) as E.
  pose proof (Nat.mod_upper_bound (T + bs - 1) bs ltac:(lia)) as Hr.
  nia.
Qed.

End BinFacts.

(** ** Binning: the array pipeline computes BinnedActivity *)

Module BinningFacts.

Import Correlation CorrelationSpec ListFacts NumFacts BinFacts.

Lemma wf_length (S : ndarray2) :
  wf_ndarray2 S = true -> length (cells S) = shape0 S.
Proof.
  unfold wf_ndarray2. intros H. apply andb_prop in H as [H _].
  now apply Nat.eqb_eq.
Qed.

Lemma wf_row_length (S : ndarray2) (t : nat) :
  wf_ndarray2 S = true -> (t < shape0 S)%nat ->
  length (nth t (cells S) []) = shape1 S.
Proof.
  intros H Ht. pose proof (wf_length S H) as HL.
  unfold wf_ndarray2 in H. apply andb_prop in H as [_ H].
  rewrite forallb_forall in H.
  apply Nat.eqb_eq, H, nth_In. lia.
Qed.

Lemma map_const_repeat {A B : Type} (x : B) (l : list A) :
  map (fun _ => x) l = repeat x (length l).
Proof. induction l as [|a l IH]; simpl; [reflexivity | now rewrite IH]. Qed.

Lemma values_rows (S : ndarray2) :
  wf_ndarray2 S = true ->
  values S =
  map (fun t => map (fun i => fin (padded S t i)) (seq 0 (shape1 S)))
      (seq 0 (shape0 S)).
Proof.
  intros H. unfold values.
  apply (nth_ext _ _ (map fin []) []).
  - rewrite !length_map, length_seq. now apply wf_length.
  - intros t Ht. rewrite length_map, (wf_length S H) in Ht.
    rewrite map_nth, nth_map_seq by assumption.
    rewrite (list_as_map_nth 0 (nth t (cells S) [])) at 1.
    rewrite map_map, (wf_row_length S t H Ht).
    apply map_ext. intros i. unfold padded.
    apply Nat.ltb_lt in Ht. now rewrite Ht.
Qed.

Lemma padded_rows (S : ndarray2) (k : nat) :
  wf_ndarray2 S = true ->
  jnp.append0 (values S) (repeat (repeat (fin 0) (shape1 S)) k) =
  map (fun t => map (fun i => fin (padded S t i)) (seq 0 (shape1 S)))
      (seq 0 (shape0 S + k)).
Proof.
  intros H. unfold jnp.append0.
  rewrite seq_app, map_app, <- (values_rows S H). f_equal.
  rewrite <- (length_seq k (0 + shape0 S)) at 1.
  rewrite <- map_const_repeat.
  apply map_ext_in. intros t Ht. apply in_seq in Ht.
  rewrite <- (length_seq (shape1 S) 0) at 1.
  rewrite <- map_const_repeat.
  apply map_ext. intros i. unfold padded.
  destruct (Nat.ltb_spec t (shape0 S)); [lia | reflexivity].
Qed.

Lemma transpose_rows (g : nat -> nat -> num) (N L : nat) :
  jnp.T N (map (fun t => map (fun i => g t i) (seq 0 N)) (seq 0 L)) =
  map (fun i => map (fun t => g t i) (seq 0 L)) (seq 0 N).
Proof.
  unfold jnp.T. apply map_ext_in. intros c Hc. apply in_seq in Hc.
  rewrite map_map. apply map_ext. intros t.
  apply nth_map_seq. lia.
Qed.

Lemma length_concat_uniform {A : Type} (m : nat) (rows : list (list A)) :
  Forall (fun r => length r = m) rows ->
  length (concat rows) = (length rows * m)%nat.
Proof.
  induction 1 as [|r rows Hr _ IH]; simpl.
  - reflexivity.
  - rewrite length_app, IH, Hr. reflexivity.
Qed.

Lemma reshape3_rows (g : nat -> nat -> num) (N nb bs : nat) :
  jnp.reshape3 (map (fun i => map (fun t => g t i) (seq 0 (nb * bs))) (seq 0 N))
               N (Z.of_nat nb) (Z.of_nat bs) =
  Ok (map (fun i => map (fun b => map (fun k => g (b * bs + k)%nat i)
                                      (seq 0 bs)) (seq 0 nb)) (seq 0 N)).
Proof.
  set (rows := map (fun i => map (fun t => g t i) (seq 0 (nb * bs))) (seq 0 N)).
  assert (Hrows : Forall (fun r => length r = (nb * bs)%nat) rows).
  { apply Forall_forall. intros r Hr. apply in_map_iff in Hr as [i [<- _]].
    now rewrite length_map, length_seq. }
  assert (Hlen : length rows = N).
  { unfold rows. now rewrite length_map, length_seq. }
  unfold jnp.reshape3.
  destruct (Z.ltb_spec (Z.of_nat nb) 0); [lia|].
  destruct (Z.ltb_spec (Z.of_nat bs) 0); [lia|].
  cbn [orb]. rewrite !Nat2Z.id.
  rewrite (length_concat_uniform _ _ Hrows), Hlen.
  rewrite <- Nat.mul_assoc, Nat.eqb_refl.
  rewrite <- Hlen at 1. rewrite (chunks_concat _ _ Hrows).
  unfold rows. rewrite map_map. f_equal.
  apply map_ext. intros i.
  now rewrite (chunks_map_seq (fun t => g t i) nb bs 0).
Qed.

Lemma gt0_sum_rows (S : ndarray2) (bs nb : nat) :
  jnp.gt0_as_float (jnp.sum_axis2
    (map (fun i => map (fun b => map (fun k => fin (padded S (b * bs + k) i))
                                     (seq 0 bs)) (seq 0 nb))
         (seq 0 (shape1 S)))) =
  binned_activity S bs nb.
Proof.
  unfold jnp.gt0_as_float, jnp.sum_axis2, binned_activity.
  rewrite !map_map. apply map_ext. intros i.
  rewrite !map_map. apply map_ext. intros b.
  rewrite jnp_sum_fin_seq. unfold B, ngtb, fin.
  destruct (Rlt_dec 0 _); reflexivity.
Qed.

(** The binning pipeline of the code yields BinnedActivity as soon as
    the bin holds at least one step. *)
Lemma binned_states_pos (environ_dt : PyFloat.float) (S : ndarray2)
  (bin : PyFloat.float) (dt : option PyFloat.float) (b : Z) :
  wf_ndarray2 S = true ->
  Correlation.bin_size environ_dt bin dt = Ok b ->
  (1 <= b)%Z ->
  binned_states environ_dt S bin dt =
  Ok (binned_activity S (Z.to_nat b) (num_bins (shape0 S) (Z.to_nat b))).
Proof.
  intros Hwf Hb Hbs. unfold binned_states. rewrite Hb. cbn [bind].
  set (bs := Z.to_nat b).
  assert (Ebs : b = Z.of_nat bs) by (unfold bs; lia).
  assert (Hbs1 : (1 <= bs)%nat) by (unfold bs; lia).
  rewrite Ebs. clearbody bs.
  rewrite int_truediv_ok by lia.
  cbn [bind]. rewrite (ceiling_num_bins _ _ Hbs1).
  set (nb := num_bins (shape0 S) bs).
  pose proof (num_bins_cover (shape0 S) bs Hbs1) as Hcover. fold nb in Hcover.
  assert (Epad :
    (if negb (Z.of_nat nb * Z.of_nat bs =? Z.of_nat (shape0 S))%Z
     then z <- jnp.zeros (Z.of_nat nb * Z.of_nat bs - Z.of_nat (shape0 S))
                 (shape1 S) ;;
          Ok (jnp.append0 (values S) z)
     else Ok (values S)) =
    Ok (map (fun t => map (fun i => fin (padded S t i)) (seq 0 (shape1 S)))
            (seq 0 (nb * bs)))).
  { destruct (Z.eqb_spec (Z.of_nat nb * Z.of_nat bs) (Z.of_nat (shape0 S)))
      as [E|E]; cbn [negb].
    - replace (nb * bs)%nat with (shape0 S) by lia.
      now rewrite (values_rows S Hwf).
    - unfold jnp.zeros.
      destruct (Z.ltb_spec (Z.of_nat nb * Z.of_nat bs - Z.of_nat (shape0 S)) 0);
        [lia|].
      cbn [bind]. rewrite (padded_rows S _ Hwf).
      replace (shape0 S +
               Z.to_nat (Z.of_nat nb * Z.of_nat bs - Z.of_nat (shape0 S)))%nat
        with (nb * bs)%nat by lia.
      reflexivity. }
  rewrite Epad. cbn [bind].
  rewrite (transpose_rows (fun t i => fin (padded S t i))).
  rewrite (reshape3_rows (fun t i => fin (padded S t i))).
  cbn [bind]. now rewrite gt0_sum_rows.
Qed.

(** With a bin size of 0 the number of bins cannot be computed. *)
Lemma binned_states_zero (environ_dt : PyFloat.float) (S : ndarray2)
  (bin : PyFloat.float) (dt : option PyFloat.float) :
  Correlation.bin_size environ_dt bin dt = Ok 0%Z ->
  binned_states environ_dt S bin dt = Raise ZeroDivisionError.
Proof. intros Hb. unfold binned_states. now rewrite Hb. Qed.

(** Without a bin size of at least 1 the pipeline raises, whatever the
    matrix holds. *)
Lemma binned_states_raises (environ_dt bin : PyFloat.float)
  (dt : option PyFloat.float) :
  (forall b, Correlation.bin_size environ_dt bin dt = Ok b -> (b < 1)%Z) ->
  exists e, forall S, binned_states environ_dt S bin dt = Raise e.
Proof.
  intros H. unfold binned_states.
  destruct (Correlation.bin_size environ_dt bin dt) as [b|e0].
  2:{ exists e0. reflexivity. }
  specialize (H b eq_refl). cbn [bind].
  destruct (Z.eq_dec b 0) as [->|Ez].
  { exists ZeroDivisionError. reflexivity. }
  exists ShapeError. intros S.
  rewrite int_truediv_ok by assumption.
  cbn [bind].
  assert (Hre : forall a d0 d1, jnp.reshape3 a d0 d1 b = Raise ShapeError).
  { intros a d0 d1. unfold jnp.reshape3.
    destruct (Z.ltb_spec b 0); [|lia]. now rewrite orb_true_r. }
  destruct (negb _).
  - unfold jnp.zeros. destruct (_ <? 0)%Z; cbn [bind]; [reflexivity|].
    now rewrite Hre.
  - cbn [bind]. now rewrite Hre.
Qed.

(** The bin size is at least 1, or the pipeline raises whatever the
    matrix holds. *)
Lemma bin_size_cases (environ_dt bin : PyFloat.float)
  (dt : option PyFloat.float) :
  (exists b, Correlation.bin_size environ_dt bin dt = Ok b /\ (1 <= b)%Z) \/
  (exists e, forall S, binned_states environ_dt S bin dt = Raise e).
Proof.
  destruct (Correlation.bin_size environ_dt bin dt) as [b|e0] eqn:E.
  - destruct (Z_le_gt_dec 1 b) as [Hb|Hb].
    + left. now exists b.
    + right. apply binned_states_raises. intros b' Hb'.
      rewrite E in Hb'. injection Hb' as <-. lia.
  - right. apply binned_states_raises. intros b' Hb'.
    rewrite E in Hb'. discriminate.
Qed.

End BinningFacts.

(** ** The pairwise pass of [cross_correlation] *)

Module PairFacts.

Import Correlation CorrelationSpec ListFacts NumFacts.

Lemma combine_fst_snd {A B : Type} (l : list (A * B)) :
  combine (map fst l) (map snd l) = l.
Proof.
  induction l as [|[a b] l IH]; simpl; [reflexivity | now rewrite IH].
Qed.

Lemma filter_all {A : Type} (f : A -> bool) (l : list A) :
  (forall x, In x l -> f x = true) -> filter f l = l.
Proof.
  induction l as [|a l IH]; simpl; intros H; [reflexivity|].
  rewrite (H a) by now left. f_equal. apply IH. intros x Hx. apply H. now right.
Qed.

Lemma filter_none {A : Type} (f : A -> bool) (l : list A) :
  (forall x, In x l -> f x = false) -> filter f l = [].
Proof.
  induction l as [|a l IH]; simpl; intros H; [reflexivity|].
  rewrite (H a) by now left. apply IH. intros x Hx. apply H. now right.
Qed.

Lemma filter_below (i n : nat) :
  (i <= n)%nat -> filter (fun j => jnp.tri (-1) i j) (seq 0 n) = seq 0 i.
Proof.
  intros Hi. replace n with (i + (n - i))%nat by lia.
  rewrite seq_app, filter_app, filter_all, filter_none.
  - apply app_nil_r.
  - intros j Hj. apply in_seq in Hj. unfold jnp.tri.
    apply Z.leb_gt. lia.
  - intros j Hj. apply in_seq in Hj. unfold jnp.tri.
    apply Z.leb_le. lia.
Qed.

Lemma filter_list_prod {A B : Type} (f : A * B -> bool) (l : list A)
  (l' : list B) :
  filter f (list_prod l l') =
  flat_map (fun x => map (fun y => (x, y)) (filter (fun y => f (x, y)) l')) l.
Proof.
  induction l as [|x l IH]; simpl; [reflexivity|].
  rewrite filter_app, IH. f_equal.
  clear IH. induction l' as [|y l' IH]; simpl; [reflexivity|].
  destruct (f (x, y)); simpl; now rewrite IH.
Qed.

Lemma flat_map_ext_in {A B : Type} (f g : A -> list B) (l : list A) :
  (forall x, In x l -> f x = g x) -> flat_map f l = flat_map g l.
Proof.
  induction l as [|a l IH]; simpl; intros H; [reflexivity|].
  rewrite (H a) by now left. f_equal. apply IH. intros x Hx. apply H. now right.
Qed.

(** [tril_indices(n, k=-1)] enumerates the pairs [(i, j)] with [j < i]. *)
Lemma tril_indices_pairs (n : nat) :
  combine (fst (jnp.tril_indices n (-1))) (snd (jnp.tril_indices n (-1))) =
  pairs n.
Proof.
  unfold jnp.tril_indices. cbn [fst snd].
  rewrite combine_fst_snd, filter_list_prod. unfold pairs.
  apply flat_map_ext_in. intros i Hi. apply in_seq in Hi. cbn [fst snd].
  rewrite filter_below by lia. reflexivity.
Qed.

Lemma in_pairs (n i j : nat) :
  In (i, j) (pairs n) <-> (j < i < n)%nat.
Proof.
  unfold pairs. rewrite in_flat_map. split.
  - intros [x [Hx H]]. apply in_seq in Hx. apply in_map_iff in H as [y [E Hy]].
    apply in_seq in Hy. inversion E; subst. lia.
  - intros H. exists i. split; [apply in_seq; lia|].
    apply in_map_iff. exists j. split; [reflexivity | apply in_seq; lia].
Qed.

Lemma B_cases (S : ndarray2) (bs i t : nat) :
  B S bs i t = 0 \/ B S bs i t = 1.
Proof. unfold B. destruct (Rlt_dec _ _); auto. Qed.

Lemma sum_upto_nonneg (n : nat) (f : nat -> R) :
  (forall t, 0 <= f t) -> 0 <= sum_upto n f.
Proof.
  intros H. apply Rlist_sum_nonneg, Forall_forall.
  intros x Hx. apply in_map_iff in Hx as [t [<- _]]. apply H.
Qed.

Lemma sum_B_nonneg (S : ndarray2) (bs nb i : nat) :
  0 <= sum_upto nb (B S bs i).
Proof.
  apply sum_upto_nonneg. intros t.
  destruct (B_cases S bs i t) as [-> | ->]; lra.
Qed.

(** On BinnedActivity both closures compute the pair value of the
    specification. *)
Lemma _f_pair_value (S : ndarray2) (bs nb i j : nat) :
  (i < shape1 S)%nat -> (j < shape1 S)%nat ->
  _f (binned_activity S bs nb) (i, j) = fin (pair_value S bs nb i j).
Proof.
  intros Hi Hj. unfold _f, binned_activity, jnp.getitem.
  rewrite !nth_map_seq by assumption.
  rewrite !jnp_sum_fin_seq, jnp_mul_fin, jnp_sum_fin_seq.
  unfold pair_value, lax_cond. cbn [nmul lift2 fin jnp.sqrt].
  pose proof (sum_B_nonneg S bs nb i) as Hsi.
  pose proof (sum_B_nonneg S bs nb j) as Hsj.
  destruct (Rlt_dec (sum_upto nb (B S bs i) * sum_upto nb (B S bs j)) 0)
    as [Hneg|_]; [nra|].
  unfold fin. cbn [neqb ndiv].
  destruct (Req_dec_T _ 0); reflexivity.
Qed.

Lemma _cc_eq_f (states : list (list num)) (ij : nat * nat) :
  _cc states ij = _f states ij.
Proof. reflexivity. Qed.

End PairFacts.

(** ** Claims on [cross_correlation] *)

Module CrossCorrelationFacts.

Import Correlation CorrelationSpec ListFacts NumFacts BinFacts BinningFacts.
Import PairFacts.

Lemma pass_pair_values (S : ndarray2) (bs nb : nat) :
  map (_f (binned_activity S bs nb)) (pairs (shape1 S)) =
  map fin (map (fun p => pair_value S bs nb (fst p) (snd p))
               (pairs (shape1 S))).
Proof.
  rewrite map_map. apply map_ext_in. intros [i j] H.
  apply in_pairs in H. cbn [fst snd]. apply _f_pair_value; lia.
Qed.

Lemma cross_correlation_correct (environ_dt : PyFloat.float) (S : ndarray2)
  (bin : PyFloat.float) (dt : option PyFloat.float) (method : string)
  (b : Z) :
  wf_ndarray2 S = true ->
  Correlation.bin_size environ_dt bin dt = Ok b ->
  (1 <= b)%Z ->
  method = "loop"%string \/ method = "vmap"%string ->
  Correlation.cross_correlation environ_dt S bin dt method =
  Ok (CorrelationSpec.cross_correlation S (Z.to_nat b)).
Proof.
  intros Hwf Hb Hbs Hm. unfold Correlation.cross_correlation.
  rewrite (binned_states_pos _ _ _ _ _ Hwf Hb Hbs). cbn [bind].
  rewrite tril_indices_pairs.
  unfold CorrelationSpec.cross_correlation.
  destruct Hm as [-> | ->]; cbn [String.eqb Ascii.eqb Bool.eqb andb bind].
  - rewrite for_loop_map, pass_pair_values, jnp_mean_fin. reflexivity.
  - unfold vmap. rewrite (map_ext _ _ (_cc_eq_f _)).
    rewrite pass_pair_values, jnp_mean_fin. reflexivity.
Qed.

(** With a bin size of 0 the number of bins cannot be computed. *)
Lemma cross_correlation_short_bin (environ_dt : PyFloat.float)
  (S : ndarray2) (bin : PyFloat.float) (dt : option PyFloat.float)
  (method : string) :
  Correlation.bin_size environ_dt bin dt = Ok 0%Z ->
  Correlation.cross_correlation environ_dt S bin dt method =
  Raise ZeroDivisionError.
Proof.
  intros Hb. unfold Correlation.cross_correlation.
  now rewrite (binned_states_zero _ S _ _ Hb).
Qed.

(** C1 (amended). For a spike matrix of shape (time, neuron) and two
    floats [bin] and [dt], let [bin_size] be [int(bin / dt)] as the code
    computes it: the binary64 quotient, rounded, then truncated. When
    [bin_size >= 1], [cross_correlation], with either method, returns what
    the specification describes for that bin size: the matrix zero-padded
    to a multiple of [bin_size] time steps and binned, BinnedActivity is 1
    where a bin sums to more than 0 and 0 elsewhere; the value of a pair
    [(i, j)], [j < i], is 0 if its norm is 0 and [dot / norm] otherwise;
    the result is the mean over these pairs. When [bin_size] is 0 the call
    raises [ZeroDivisionError]. *)
Theorem cross_correlation_spec (environ_dt : PyFloat.float) (S : ndarray2)
  (bin : PyFloat.float) (dt : option PyFloat.float) (method : string)
  (b : Z) :
  wf_ndarray2 S = true ->
  Correlation.bin_size environ_dt bin dt = Ok b ->
  method = "loop"%string \/ method = "vmap"%string ->
  ((1 <= b)%Z ->
   Correlation.cross_correlation environ_dt S bin dt method =
   Ok (CorrelationSpec.cross_correlation S (Z.to_nat b))) /\
  (b = 0%Z ->
   Correlation.cross_correlation environ_dt S bin dt method =
   Raise ZeroDivisionError).
Proof.
  intros Hwf Hb Hm. split.
  - intros Hbs. now apply cross_correlation_correct.
  - intros ->. now apply cross_correlation_short_bin.
Qed.

Lemma cross_correlation_spec_witness :
  Correlation.cross_correlation (PyFloat.literal 1 10) test_c_spikes
    (PyFloat.of_int 1) (Some (PyFloat.of_int 1)) "loop" =
  Ok (CorrelationSpec.cross_correlation test_c_spikes 1) /\
  Correlation.cross_correlation (PyFloat.literal 1 10) test_c_spikes
    (PyFloat.literal 5 100) None "vmap" = Raise ZeroDivisionError.
Proof.
  split.
  - apply (proj1 (cross_correlation_spec (PyFloat.literal 1 10) test_c_spikes
                    (PyFloat.of_int 1) (Some (PyFloat.of_int 1)) "loop" 1
                    eq_refl eq_refl (or_introl eq_refl))).
    lia.
  - apply (proj2 (cross_correlation_spec (PyFloat.literal 1 10) test_c_spikes
                    (PyFloat.literal 5 100) None "vmap" 0
                    eq_refl eq_refl (or_intror eq_refl))).
    reflexivity.
Defined.

(** C1, as stated, fails twice. For a positive bin width below the time
    step, here [bin = 0.05] and [dt = 0.1], the call raises instead of
    returning the mean. And the bin size is not the floor of the quotient
    of the two numbers: with [bin = 1.0] and [dt = 0.1] that quotient is
    below 10, since the float [0.1] is above one tenth, and its floor is
    9, while the code rounds the quotient to [10.0] and uses 10. *)
Lemma short_bin_counterexample :
  wf_ndarray2 test_c_spikes = true /\
  (0 < PyFloat.to_Q (PyFloat.literal 5 100))%Q /\
  (0 < PyFloat.to_Q (PyFloat.literal 1 10))%Q /\
  Correlation.cross_correlation (PyFloat.literal 1 10) test_c_spikes
    (PyFloat.literal 5 100) None "loop" = Raise ZeroDivisionError /\
  Correlation.bin_size (PyFloat.literal 1 10) (PyFloat.of_int 1) None =
  Ok 10%Z /\
  Qfloor (PyFloat.to_Q (PyFloat.of_int 1) /
          PyFloat.to_Q (PyFloat.literal 1 10)) = 9%Z.
Proof.
  split; [reflexivity|]. split; [reflexivity|]. split; [reflexivity|].
  split; [apply cross_correlation_short_bin; reflexivity|].
  split; [reflexivity|]. vm_compute. reflexivity.
Qed.

(** C3. For every spike matrix and identical [bin] and [dt],
    [cross_correlation] returns the same result with [method='loop'] (the
    sequential scan) and with [method='vmap'] (the vectorized map). *)
Theorem cross_correlation_loop_vmap (environ_dt : PyFloat.float)
  (S : ndarray2) (bin : PyFloat.float) (dt : option PyFloat.float) :
  Correlation.cross_correlation environ_dt S bin dt "loop" =
  Correlation.cross_correlation environ_dt S bin dt "vmap".
Proof.
  unfold Correlation.cross_correlation.
  destruct (binned_states environ_dt S bin dt) as [states|e]; [|reflexivity].
  cbn [bind String.eqb Ascii.eqb Bool.eqb andb].
  rewrite for_loop_map. unfold vmap.
  apply f_equal, f_equal, map_ext. intros ij. symmetry. apply _cc_eq_f.
Qed.

End CrossCorrelationFacts.

(** ** Sums over unordered pairs *)

Module PairSumFacts.

Import Correlation CorrelationSpec ListFacts NumFacts PairFacts.

Lemma Rlist_sum_perm (l l' : list R) :
  Permutation l l' -> Rlist_sum l = Rlist_sum l'.
Proof.
  induction 1; simpl; lra.
Qed.

Section Symmetric.

Variable v : nat -> nat -> R.
Hypothesis v_sym : forall x y, v x y = v y x.

Lemma pair_sum_perm (l l' : list nat) :
  Permutation l l' -> pair_sum v l = pair_sum v l'.
Proof.
  induction 1 as [| x l l' HP IH | x y l | l l' l'' _ IH1 _ IH2].
  - reflexivity.
  - cbn [pair_sum]. rewrite IH.
    now rewrite (Rlist_sum_perm _ _ (Permutation_map (v x) HP)).
  - cbn [pair_sum map Rlist_sum fold_right].
    fold (Rlist_sum (map (v x) l)). fold (Rlist_sum (map (v y) l)).
    rewrite (v_sym y x). lra.
  - now rewrite IH1.
Qed.

Lemma pair_sum_snoc (l : list nat) (x : nat) :
  pair_sum v (l ++ [x]) = pair_sum v l + Rlist_sum (map (fun y => v y x) l).
Proof.
  induction l as [|a l IH].
  - simpl. lra.
  - cbn [app pair_sum map]. rewrite IH, map_app, Rlist_sum_app.
    simpl. lra.
Qed.

Lemma pairs_succ (n : nat) :
  pairs (S n) = pairs n ++ map (fun j => (n, j)) (seq 0 n).
Proof.
  unfold pairs. rewrite seq_S, flat_map_app. simpl.
  now rewrite app_nil_r.
Qed.

(** The lower-triangle sum over the positions of a list is the sum over
    the pairs of its elements. *)
Lemma tril_sum_pair_sum (l : list nat) :
  Rlist_sum (map (fun ij => v (nth (fst ij) l 0%nat) (nth (snd ij) l 0%nat))
                 (pairs (length l))) =
  pair_sum v l.
Proof.
  induction l as [|x l IH] using rev_ind.
  - reflexivity.
  - rewrite length_app. cbn [length]. rewrite Nat.add_1_r.
    rewrite pairs_succ, map_app, Rlist_sum_app, pair_sum_snoc.
    f_equal.
    + rewrite <- IH. f_equal. apply map_ext_in. intros [i j] H.
      apply in_pairs in H. cbn [fst snd].
      rewrite !app_nth1 by lia. reflexivity.
    + rewrite map_map. cbn [fst snd].
      replace (map (fun y => v y x) l)
        with (map (fun y => v y x)
                  (map (fun i => nth i l 0%nat) (seq 0 (length l))))
        by now rewrite <- list_as_map_nth.
      rewrite map_map.
      f_equal. apply map_ext_in. intros j Hj. apply in_seq in Hj.
      rewrite nth_middle, app_nth1 by lia. apply v_sym.
Qed.

Lemma tril_sum_seq (n : nat) :
  Rlist_sum (map (fun ij => v (fst ij) (snd ij)) (pairs n)) =
  pair_sum v (seq 0 n).
Proof.
  rewrite <- tril_sum_pair_sum, length_seq. f_equal.
  apply map_ext_in. intros [i j] H. apply in_pairs in H. cbn [fst snd].
  rewrite !seq_nth by lia. reflexivity.
Qed.

(** Relabelling the indices by a permutation leaves the sum over
    unordered pairs unchanged. *)
Lemma tril_sum_relabel (n : nat) (p : list nat) :
  Permutation p (seq 0 n) ->
  Rlist_sum (map (fun ij => v (nth (fst ij) p 0%nat) (nth (snd ij) p 0%nat))
                 (pairs n)) =
  Rlist_sum (map (fun ij => v (fst ij) (snd ij)) (pairs n)).
Proof.
  intros HP.
  assert (Hlen : length p = n).
  { rewrite (Permutation_length HP). apply length_seq. }
  rewrite <- Hlen at 1. rewrite tril_sum_pair_sum, tril_sum_seq.
  now apply pair_sum_perm.
Qed.

End Symmetric.

Lemma is_permutation_spec (n : nat) (p : list nat) :
  is_permutation n p = true -> Permutation p (seq 0 n).
Proof.
  unfold is_permutation. intros H. apply andb_prop in H as [Hlen Hocc].
  apply Nat.eqb_eq in Hlen. rewrite forallb_forall in Hocc.
  symmetry. apply NoDup_Permutation_bis.
  - apply seq_NoDup.
  - rewrite length_seq. lia.
  - intros i Hi. apply Hocc in Hi. apply Nat.eqb_eq in Hi.
    apply (count_occ_In Nat.eq_dec). lia.
Qed.

End PairSumFacts.

(** ** Silent neurons and all-zero matrices *)

Module SilentFacts.

Import Correlation CorrelationSpec ListFacts NumFacts BinFacts BinningFacts.
Import PairFacts CrossCorrelationFacts.

(** The guard of the closures: a zero norm selects the constant 0. *)
Lemma guard_zero_norm (states : list (list num)) (i j : nat) :
  jnp.sqrt (nmul (jnp.sum (jnp.getitem states i))
                 (jnp.sum (jnp.getitem states j))) = fin 0 ->
  _f states (i, j) = fin 0 /\ _cc states (i, j) = fin 0.
Proof.
  intros H. unfold _f, _cc. rewrite H.
  unfold lax_cond, neqb, fin.
  destruct (Req_dec_T 0 0); [split; reflexivity | contradiction].
Qed.

Lemma sum_binned_row (S : ndarray2) (bs nb i : nat) :
  (i < shape1 S)%nat ->
  jnp.sum (jnp.getitem (binned_activity S bs nb) i) =
  fin (sum_upto nb (B S bs i)).
Proof.
  intros Hi. unfold binned_activity, jnp.getitem.
  rewrite nth_map_seq by assumption. apply jnp_sum_fin_seq.
Qed.

Lemma pair_value_silent (S : ndarray2) (bs nb i j : nat) :
  sum_upto nb (B S bs i) = 0 \/ sum_upto nb (B S bs j) = 0 ->
  pair_value S bs nb i j = 0.
Proof.
  intros H. unfold pair_value.
  assert (E : sum_upto nb (B S bs i) * sum_upto nb (B S bs j) = 0)
    by (destruct H as [-> | ->]; lra).
  rewrite E, sqrt_0.
  destruct (Req_dec_T 0 0); [reflexivity | contradiction].
Qed.

Lemma all_zero_nth (S : ndarray2) (t i : nat) :
  all_zero S -> nth i (nth t (cells S) []) 0 = 0.
Proof.
  unfold all_zero. intros H.
  assert (Hrow : Forall (fun x => x = 0) (nth t (cells S) [])).
  { destruct (Nat.lt_ge_cases t (length (cells S))) as [Ht|Ht].
    - rewrite Forall_forall in H. apply H, nth_In, Ht.
    - rewrite nth_overflow by assumption. constructor. }
  destruct (Nat.lt_ge_cases i (length (nth t (cells S) []))) as [Hi|Hi].
  - rewrite Forall_forall in Hrow. apply Hrow, nth_In, Hi.
  - now rewrite nth_overflow.
Qed.

Lemma Rlist_sum_zero (l : list R) :
  Forall (fun x => x = 0) l -> Rlist_sum l = 0.
Proof.
  induction 1 as [|x l Hx _ IH]; simpl; [reflexivity | lra].
Qed.

Lemma sum_upto_zero (n : nat) (f : nat -> R) :
  (forall t, f t = 0) -> sum_upto n f = 0.
Proof.
  intros H. apply Rlist_sum_zero, Forall_forall.
  intros x Hx. apply in_map_iff in Hx as [t [<- _]]. apply H.
Qed.

Lemma all_zero_B (S : ndarray2) (bs i t : nat) :
  all_zero S -> B S bs i t = 0.
Proof.
  intros H. unfold B.
  rewrite sum_upto_zero.
  - destruct (Rlt_dec 0 0); [lra | reflexivity].
  - intros k. unfold padded. destruct (_ <? _)%nat; [|reflexivity].
    now apply all_zero_nth.
Qed.

Lemma pairs_nonempty (n : nat) : (2 <= n)%nat -> pairs n <> [].
Proof.
  intros Hn E.
  assert (H : In (1, 0)%nat (pairs n)) by (apply in_pairs; lia).
  rewrite E in H. contradiction.
Qed.

Lemma mean_zero (l : list R) :
  l <> [] -> Forall (fun x => x = 0) l -> mean l = fin 0.
Proof.
  intros Hne H. unfold mean, ndiv, fin. rewrite (Rlist_sum_zero l H).
  destruct (Req_dec_T (INR (length l)) 0) as [E|E].
  - change 0 with (INR 0) in E. apply INR_eq in E.
    destruct l; [contradiction | discriminate].
  - f_equal. unfold Rdiv. ring.
Qed.

Lemma mean_nil : mean [] = nonfinite.
Proof.
  unfold mean, ndiv, fin. cbn [length INR].
  destruct (Req_dec_T 0 0); [reflexivity | contradiction].
Qed.

Lemma all_zero_result (environ_dt : PyFloat.float) (S : ndarray2)
  (bin : PyFloat.float) (dt : option PyFloat.float) (method : string)
  (b : Z) :
  wf_ndarray2 S = true ->
  Correlation.bin_size environ_dt bin dt = Ok b ->
  (1 <= b)%Z ->
  method = "loop"%string \/ method = "vmap"%string ->
  all_zero S -> (2 <= shape1 S)%nat ->
  Correlation.cross_correlation environ_dt S bin dt method = Ok (fin 0).
Proof.
  intros Hwf Hdt Hbin Hm Hz HN.
  rewrite (cross_correlation_correct _ _ _ _ _ _ Hwf Hdt Hbin Hm). f_equal.
  unfold CorrelationSpec.cross_correlation. apply mean_zero.
  - intros E. apply map_eq_nil in E. now apply pairs_nonempty in E.
  - apply Forall_forall. intros x Hx. apply in_map_iff in Hx as [p [<- _]].
    apply pair_value_silent. left. apply sum_upto_zero.
    intros t. now apply all_zero_B.
Qed.

Lemma no_pair_result (environ_dt : PyFloat.float) (S : ndarray2)
  (bin : PyFloat.float) (dt : option PyFloat.float) (method : string)
  (b : Z) :
  wf_ndarray2 S = true ->
  Correlation.bin_size environ_dt bin dt = Ok b ->
  (1 <= b)%Z ->
  method = "loop"%string \/ method = "vmap"%string ->
  (shape1 S < 2)%nat ->
  Correlation.cross_correlation environ_dt S bin dt method = Ok nonfinite.
Proof.
  intros Hwf Hdt Hbin Hm HN.
  rewrite (cross_correlation_correct _ _ _ _ _ _ Hwf Hdt Hbin Hm). f_equal.
  unfold CorrelationSpec.cross_correlation.
  assert (E : pairs (shape1 S) = []).
  { destruct (shape1 S) as [|[|n]]; [reflexivity | reflexivity | lia]. }
  rewrite E. apply mean_nil.
Qed.

Lemma zero_spikes_all_zero (T N : nat) : all_zero (zero_spikes T N).
Proof.
  unfold all_zero, zero_spikes. cbn [cells].
  apply Forall_forall. intros row H. apply repeat_spec in H. subst row.
  apply Forall_forall. intros x H. now apply repeat_spec in H.
Qed.

(** C2 (amended). On the binned activity of a spike matrix, for a bin
    size [int(bin / dt)] of at least 1, every pair value is a finite
    number, never NaN; a pair whose norm is 0, and so every pair in which
    one neuron has no binned spike, has the value exactly 0, for both
    closures; for an all-zero spike matrix with at least two neurons
    [cross_correlation] returns 0; with fewer than two neurons there is no
    pair and it returns NaN. *)
Theorem zero_norm_pairs_are_zero (environ_dt : PyFloat.float) (S : ndarray2)
  (bin : PyFloat.float) (dt : option PyFloat.float) (method : string)
  (b : Z) :
  wf_ndarray2 S = true ->
  Correlation.bin_size environ_dt bin dt = Ok b ->
  (1 <= b)%Z ->
  method = "loop"%string \/ method = "vmap"%string ->
  exists states,
    binned_states environ_dt S bin dt = Ok states /\
    (forall i j, (i < shape1 S)%nat -> (j < shape1 S)%nat ->
       (exists r, _f states (i, j) = fin r /\ _cc states (i, j) = fin r) /\
       (jnp.sqrt (nmul (jnp.sum (jnp.getitem states i))
                       (jnp.sum (jnp.getitem states j))) = fin 0 ->
        _f states (i, j) = fin 0 /\ _cc states (i, j) = fin 0) /\
       (jnp.sum (jnp.getitem states i) = fin 0 \/
        jnp.sum (jnp.getitem states j) = fin 0 ->
        _f states (i, j) = fin 0 /\ _cc states (i, j) = fin 0)) /\
    (all_zero S -> (2 <= shape1 S)%nat ->
     Correlation.cross_correlation environ_dt S bin dt method = Ok (fin 0)) /\
    ((shape1 S < 2)%nat ->
     Correlation.cross_correlation environ_dt S bin dt method = Ok nonfinite).
Proof.
  intros Hwf Hdt Hbin Hm.
  eexists. split; [apply (binned_states_pos _ _ _ _ _ Hwf Hdt Hbin)|].
  split; [|split].
  - intros i j Hi Hj. split; [|split].
    + eexists. change _cc with _f. split; now apply _f_pair_value.
    + apply guard_zero_norm.
    + intros H. change _cc with _f. rewrite _f_pair_value by assumption.
      rewrite !sum_binned_row in H by assumption.
      rewrite pair_value_silent; [split; reflexivity|].
      destruct H as [H|H]; inversion H; auto.
  - intros Hz HN. now apply (all_zero_result _ _ _ _ _ b).
  - intros HN. now apply (no_pair_result _ _ _ _ _ b).
Qed.

Lemma zero_norm_pairs_are_zero_witness :
  exists states,
    binned_states (PyFloat.literal 1 10) (zero_spikes 4 3) (PyFloat.of_int 1)
      (Some (PyFloat.of_int 1)) = Ok states /\
    (forall i j, (i < 3)%nat -> (j < 3)%nat ->
       (exists r, _f states (i, j) = fin r /\ _cc states (i, j) = fin r) /\
       (jnp.sqrt (nmul (jnp.sum (jnp.getitem states i))
                       (jnp.sum (jnp.getitem states j))) = fin 0 ->
        _f states (i, j) = fin 0 /\ _cc states (i, j) = fin 0) /\
       (jnp.sum (jnp.getitem states i) = fin 0 \/
        jnp.sum (jnp.getitem states j) = fin 0 ->
        _f states (i, j) = fin 0 /\ _cc states (i, j) = fin 0)) /\
    (all_zero (zero_spikes 4 3) -> (2 <= 3)%nat ->
     Correlation.cross_correlation (PyFloat.literal 1 10) (zero_spikes 4 3)
       (PyFloat.of_int 1) (Some (PyFloat.of_int 1)) "vmap" = Ok (fin 0)) /\
    ((3 < 2)%nat ->
     Correlation.cross_correlation (PyFloat.literal 1 10) (zero_spikes 4 3)
       (PyFloat.of_int 1) (Some (PyFloat.of_int 1)) "vmap" = Ok nonfinite).
Proof.
  apply (zero_norm_pairs_are_zero (PyFloat.literal 1 10) (zero_spikes 4 3)
           (PyFloat.of_int 1) (Some (PyFloat.of_int 1)) "vmap" 1).
  - reflexivity.
  - reflexivity.
  - lia.
  - right. reflexivity.
Defined.

(** C2, as stated, fails for an all-zero spike matrix with a single
    neuron: there is no pair, and the mean over no pair is NaN. *)
Lemma all_zero_single_neuron_counterexample :
  all_zero (zero_spikes 3 1) /\
  wf_ndarray2 (zero_spikes 3 1) = true /\
  Correlation.cross_correlation (PyFloat.literal 1 10) (zero_spikes 3 1)
    (PyFloat.of_int 1) (Some (PyFloat.of_int 1)) "loop" = Ok nonfinite /\
  Correlation.cross_correlation (PyFloat.literal 1 10) (zero_spikes 3 1)
    (PyFloat.of_int 1) (Some (PyFloat.of_int 1)) "loop" <> Ok (fin 0).
Proof.
  assert (E : Correlation.cross_correlation (PyFloat.literal 1 10)
                (zero_spikes 3 1) (PyFloat.of_int 1)
                (Some (PyFloat.of_int 1)) "loop" = Ok nonfinite).
  { apply (no_pair_result _ _ _ _ _ 1); cbn [zero_spikes shape1];
      [reflexivity | reflexivity | lia | now left | lia]. }
  split; [apply zero_spikes_all_zero|].
  split; [reflexivity|].
  split; [exact E|].
  rewrite E. discriminate.
Qed.

End SilentFacts.

(** ** All-ones matrices *)

Module AllOnesFacts.

Import Correlation CorrelationSpec ListFacts NumFacts BinFacts BinningFacts.
Import PairFacts CrossCorrelationFacts SilentFacts.

Lemma ones_spikes_wf (T N : nat) : wf_ndarray2 (ones_spikes T N) = true.
Proof.
  unfold wf_ndarray2, ones_spikes. cbn [cells shape0 shape1].
  rewrite repeat_length, Nat.eqb_refl. cbn [andb].
  apply forallb_forall. intros row H. apply repeat_spec in H. subst row.
  rewrite repeat_length. apply Nat.eqb_refl.
Qed.

Lemma ones_padded (T N t i : nat) :
  (i < N)%nat ->
  padded (ones_spikes T N) t i = if (t <? T)%nat then 1 else 0.
Proof.
  intros Hi. unfold padded, ones_spikes. cbn [cells shape0].
  destruct (Nat.ltb_spec t T) as [Ht|Ht]; [|reflexivity].
  rewrite (nth_indep _ [] (repeat 1 N)) by (rewrite repeat_length; lia).
  rewrite nth_repeat.
  rewrite (nth_indep _ 0 1) by (rewrite repeat_length; lia).
  apply nth_repeat.
Qed.

Lemma sum_upto_ge_first (n : nat) (f : nat -> R) :
  (1 <= n)%nat -> (forall k, 0 <= f k) -> f 0%nat <= sum_upto n f.
Proof.
  intros Hn Hf. destruct n as [|n]; [lia|].
  unfold sum_upto. cbn [seq map Rlist_sum fold_right].
  assert (H : 0 <= Rlist_sum (map f (seq 1 n))).
  { apply Rlist_sum_nonneg, Forall_forall. intros x Hx.
    apply in_map_iff in Hx as [k [<- _]]. apply Hf. }
  unfold Rlist_sum in H. lra.
Qed.

Lemma num_bins_tight (T bs b : nat) :
  (1 <= bs)%nat -> (b < num_bins T bs)%nat -> (b * bs < T)%nat.
Proof.
  intros Hbs Hb. unfold num_bins in Hb.
  pose proof (Nat.div_mod (T + bs - 1) bs ltac:(lia)) as E.
  pose proof (Nat.mod_upper_bound (T + bs - 1) bs ltac:(lia)) as Hr.
  nia.
Qed.

Lemma ones_B (T N bs i b : nat) :
  (1 <= bs)%nat -> (i < N)%nat -> (b < num_bins T bs)%nat ->
  B (ones_spikes T N) bs i b = 1.
Proof.
  intros Hbs Hi Hb. unfold B.
  pose proof (num_bins_tight T bs b Hbs Hb) as Ht.
  assert (H : 1 <= sum_upto bs (fun k => padded (ones_spikes T N)
                                           (b * bs + k) i)).
  { eapply Rle_trans; [|apply sum_upto_ge_first; [assumption|]].
    - rewrite ones_padded by assumption.
      destruct (Nat.ltb_spec (b * bs + 0) T); [lra | lia].
    - intros k. rewrite ones_padded by assumption.
      destruct (_ <? _)%nat; lra. }
  destruct (Rlt_dec 0 _); [reflexivity | lra].
Qed.

Lemma sum_upto_const (n : nat) (f : nat -> R) (c : R) :
  (forall t, (t < n)%nat -> f t = c) -> sum_upto n f = INR n * c.
Proof.
  intros H. unfold sum_upto.
  rewrite (map_ext_in f (fun _ => c))
    by (intros t Ht; apply in_seq in Ht; apply H; lia).
  rewrite <- (length_seq n 0) at 2.
  induction (seq 0 n) as [|x l IH].
  - simpl. ring.
  - cbn [map]. unfold Rlist_sum in *. cbn [fold_right]. rewrite IH.
    change (length (x :: l)) with (S (length l)). rewrite S_INR. ring.
Qed.

Lemma ones_pair_value (T N bs i j : nat) :
  (1 <= bs)%nat -> (1 <= T)%nat -> (i < N)%nat -> (j < N)%nat ->
  pair_value (ones_spikes T N) bs (num_bins T bs) i j = 1.
Proof.
  intros Hbs HT Hi Hj. unfold pair_value.
  set (nb := num_bins T bs).
  assert (Hnb : (1 <= nb)%nat).
  { pose proof (num_bins_cover T bs Hbs). fold nb in H. nia. }
  rewrite (sum_upto_const nb (fun t => B (ones_spikes T N) bs i t *
                                       B (ones_spikes T N) bs j t) 1)
    by (intros t Ht; rewrite !ones_B by assumption; ring).
  rewrite (sum_upto_const nb (B (ones_spikes T N) bs i) 1)
    by (intros t Ht; now apply ones_B).
  rewrite (sum_upto_const nb (B (ones_spikes T N) bs j) 1)
    by (intros t Ht; now apply ones_B).
  rewrite !Rmult_1_r.
  assert (Hpos : 0 < INR nb) by (apply lt_0_INR; lia).
  rewrite sqrt_square by lra.
  destruct (Req_dec_T (INR nb) 0); [lra|]. field. lra.
Qed.

Lemma mean_ones (l : list R) :
  l <> [] -> Forall (fun x => x = 1) l -> mean l = fin 1.
Proof.
  intros Hne H. unfold mean, ndiv, fin.
  assert (E : Rlist_sum l = INR (length l)).
  { clear Hne. induction H as [|x l Hx _ IH].
    - reflexivity.
    - unfold Rlist_sum in *. cbn [fold_right length]. rewrite IH, Hx.
      rewrite S_INR. ring. }
  rewrite E.
  destruct (Req_dec_T (INR (length l)) 0) as [E0|Hn].
  { change 0 with (INR 0) in E0. apply INR_eq in E0.
    destruct l; [contradiction | discriminate]. }
  f_equal. now field.
Qed.

(** The first testable property of the specification, and [test_cc]: on
    an all-ones matrix with at least one time step and two neurons every
    pair is perfectly coherent. *)
Lemma all_ones_result (environ_dt : PyFloat.float) (T N : nat)
  (bin : PyFloat.float) (dt : option PyFloat.float) (method : string)
  (b : Z) :
  Correlation.bin_size environ_dt bin dt = Ok b ->
  (1 <= b)%Z ->
  method = "loop"%string \/ method = "vmap"%string ->
  (1 <= T)%nat -> (2 <= N)%nat ->
  Correlation.cross_correlation environ_dt (ones_spikes T N) bin dt method =
  Ok (fin 1).
Proof.
  intros Hdt Hbin Hm HT HN.
  rewrite (cross_correlation_correct _ _ _ _ _ _ (ones_spikes_wf T N)
             Hdt Hbin Hm).
  f_equal. unfold CorrelationSpec.cross_correlation.
  change (shape0 (ones_spikes T N)) with T.
  change (shape1 (ones_spikes T N)) with N.
  pose proof Hbin as Hbs.
  apply mean_ones.
  - intros E. apply map_eq_nil in E. now apply pairs_nonempty in E.
  - apply Forall_forall. intros x Hx. apply in_map_iff in Hx as [[i j] [<- Hp]].
    apply in_pairs in Hp. cbn [fst snd].
    apply ones_pair_value; lia.
Qed.

End AllOnesFacts.

(** ** Relabelling the neurons *)

Module RelabelFacts.

Import Correlation CorrelationSpec ListFacts NumFacts BinFacts BinningFacts.
Import PairFacts CrossCorrelationFacts PairSumFacts.

Lemma take_columns_wf (S : ndarray2) (p : list nat) :
  wf_ndarray2 S = true -> wf_ndarray2 (take_columns S p) = true.
Proof.
  intros H. pose proof (wf_length S H) as HL.
  unfold wf_ndarray2, take_columns. cbn [cells shape0 shape1].
  rewrite length_map, HL, Nat.eqb_refl. cbn [andb].
  apply forallb_forall. intros row Hrow.
  apply in_map_iff in Hrow as [r [<- _]].
  rewrite length_map. apply Nat.eqb_refl.
Qed.

Lemma padded_take_columns (S : ndarray2) (p : list nat) (t i : nat) :
  wf_ndarray2 S = true -> (i < length p)%nat ->
  padded (take_columns S p) t i = padded S t (nth i p 0%nat).
Proof.
  intros H Hi. pose proof (wf_length S H) as HL.
  unfold padded, take_columns. cbn [cells shape0 shape1].
  destruct (Nat.ltb_spec t (shape0 S)) as [Ht|Ht]; [|reflexivity].
  set (g := fun row : list R => map (fun c => nth c row 0) p).
  rewrite (nth_indep (map g (cells S)) [] (g []))
    by (rewrite length_map; lia).
  rewrite map_nth. unfold g.
  set (row := nth t (cells S) []).
  rewrite (nth_indep _ 0 ((fun c => nth c row 0) 0%nat))
    by now rewrite length_map.
  now rewrite (map_nth (fun c => nth c row 0)).
Qed.

Lemma sum_upto_ext (n : nat) (f g : nat -> R) :
  (forall t, f t = g t) -> sum_upto n f = sum_upto n g.
Proof.
  intros H. unfold sum_upto. f_equal. apply map_ext, H.
Qed.

Lemma B_take_columns (S : ndarray2) (p : list nat) (bs i t : nat) :
  wf_ndarray2 S = true -> (i < length p)%nat ->
  B (take_columns S p) bs i t = B S bs (nth i p 0%nat) t.
Proof.
  intros H Hi. unfold B.
  rewrite (sum_upto_ext bs _ (fun k => padded S (t * bs + k) (nth i p 0%nat)));
    [reflexivity|].
  intros k. now apply padded_take_columns.
Qed.

Lemma pair_value_take_columns (S : ndarray2) (p : list nat) (bs nb i j : nat) :
  wf_ndarray2 S = true -> (i < length p)%nat -> (j < length p)%nat ->
  pair_value (take_columns S p) bs nb i j =
  pair_value S bs nb (nth i p 0%nat) (nth j p 0%nat).
Proof.
  intros H Hi Hj. unfold pair_value.
  rewrite (sum_upto_ext nb (fun t => B (take_columns S p) bs i t *
                                      B (take_columns S p) bs j t)
             (fun t => B S bs (nth i p 0%nat) t * B S bs (nth j p 0%nat) t))
    by (intros t; now rewrite !B_take_columns).
  rewrite (sum_upto_ext nb (B (take_columns S p) bs i)
             (B S bs (nth i p 0%nat)))
    by (intros t; now apply B_take_columns).
  rewrite (sum_upto_ext nb (B (take_columns S p) bs j)
             (B S bs (nth j p 0%nat)))
    by (intros t; now apply B_take_columns).
  reflexivity.
Qed.

Lemma pair_value_sym (S : ndarray2) (bs nb i j : nat) :
  pair_value S bs nb i j = pair_value S bs nb j i.
Proof.
  unfold pair_value.
  rewrite (sum_upto_ext nb (fun t => B S bs i t * B S bs j t)
             (fun t => B S bs j t * B S bs i t)) by (intros t; ring).
  rewrite (Rmult_comm (sum_upto nb (B S bs i))). reflexivity.
Qed.

(** The mean pair value is the same on the relabelled matrix. *)
Lemma mean_pairs_relabel (S : ndarray2) (p : list nat) (bs nb : nat) :
  wf_ndarray2 S = true -> Permutation p (seq 0 (shape1 S)) ->
  mean (map (fun ij => pair_value (take_columns S p) bs nb (fst ij) (snd ij))
            (pairs (shape1 (take_columns S p)))) =
  mean (map (fun ij => pair_value S bs nb (fst ij) (snd ij))
            (pairs (shape1 S))).
Proof.
  intros H HP.
  assert (Hlen : length p = shape1 S).
  { rewrite (Permutation_length HP). apply length_seq. }
  cbn [take_columns shape1]. rewrite Hlen.
  unfold mean. rewrite !length_map. f_equal. f_equal.
  rewrite <- (tril_sum_relabel (pair_value S bs nb) (pair_value_sym S bs nb)
                (shape1 S) p HP).
  f_equal. apply map_ext_in. intros [i j] Hij. apply in_pairs in Hij.
  cbn [fst snd]. apply pair_value_take_columns; [assumption | lia | lia].
Qed.

Lemma pass_mean (S : ndarray2) (bs nb : nat) :
  jnp.mean (map (_f (binned_activity S bs nb)) (pairs (shape1 S))) =
  mean (map (fun ij => pair_value S bs nb (fst ij) (snd ij))
            (pairs (shape1 S))).
Proof. now rewrite pass_pair_values, jnp_mean_fin. Qed.

Lemma cross_correlation_relabel (environ_dt : PyFloat.float) (S : ndarray2)
  (p : list nat) (bin : PyFloat.float) (dt : option PyFloat.float)
  (method : string) :
  wf_ndarray2 S = true ->
  Permutation p (seq 0 (shape1 S)) ->
  Correlation.cross_correlation environ_dt (take_columns S p) bin dt method =
  Correlation.cross_correlation environ_dt S bin dt method.
Proof.
  intros Hwf HP. unfold Correlation.cross_correlation.
  destruct (bin_size_cases environ_dt bin dt) as [[b [Hb Hge]] | [e He]].
  2:{ now rewrite !He. }
  rewrite (binned_states_pos _ _ _ _ _ (take_columns_wf S p Hwf) Hb Hge).
  rewrite (binned_states_pos _ _ _ _ _ Hwf Hb Hge).
  cbn [bind]. rewrite !tril_indices_pairs.
  change (shape0 (take_columns S p)) with (shape0 S).
  set (bs := Z.to_nat b).
  set (nb := num_bins (shape0 S) bs).
  destruct (String.eqb method "loop"); cbn [bind].
  { rewrite !for_loop_map, !pass_mean. f_equal.
    now apply mean_pairs_relabel. }
  destruct (String.eqb method "vmap"); cbn [bind]; [|reflexivity].
  unfold vmap. change _cc with _f.
  rewrite !pass_mean. f_equal. now apply mean_pairs_relabel.
Qed.

(** C7. For every spike matrix [S] and every permutation [p] of its neuron
    columns, [cross_correlation] applied to the permuted matrix [S[:, p]]
    returns what it returns on [S], whatever [bin], [dt] and [method]. *)
Theorem cross_correlation_permutation_invariant (environ_dt : PyFloat.float)
  (S : ndarray2) (p : list nat) (bin : PyFloat.float)
  (dt : option PyFloat.float) (method : string) :
  wf_ndarray2 S = true ->
  is_permutation (shape1 S) p = true ->
  Correlation.cross_correlation environ_dt (take_columns S p) bin dt method =
  Correlation.cross_correlation environ_dt S bin dt method.
Proof.
  intros Hwf Hp. apply cross_correlation_relabel; [assumption|].
  now apply is_permutation_spec.
Qed.

Lemma cross_correlation_permutation_invariant_witness :
  Correlation.cross_correlation (PyFloat.literal 1 10)
    (take_columns example_spikes [2; 0; 1]%nat)
    (PyFloat.of_int 2) (Some (PyFloat.of_int 1)) "loop" =
  Correlation.cross_correlation (PyFloat.literal 1 10) example_spikes
    (PyFloat.of_int 2) (Some (PyFloat.of_int 1)) "loop".
Proof.
  apply (cross_correlation_permutation_invariant (PyFloat.literal 1 10)
           example_spikes [2; 0; 1]%nat (PyFloat.of_int 2)
           (Some (PyFloat.of_int 1)) "loop").
  - reflexivity.
  - reflexivity.
Defined.

End RelabelFacts.

(** ** Means of lists of numbers *)

Module MeanFacts.

Import Correlation CorrelationSpec ListFacts NumFacts.

Lemma jnp_mul_map {A : Type} (f g : A -> num) (l : list A) :
  jnp.mul (map f l) (map g l) = map (fun a => nmul (f a) (g a)) l.
Proof.
  induction l as [|x l IH]; simpl; [reflexivity | now rewrite IH].
Qed.

Lemma INR_length_nonzero {A : Type} (l : list A) :
  l <> [] -> INR (length l) <> 0.
Proof.
  intros Hne E. change 0 with (INR 0) in E. apply INR_eq in E.
  destruct l; [contradiction | discriminate].
Qed.

Lemma mean_finite (r : list R) :
  r <> [] -> mean r = fin (Rlist_sum r / INR (length r)).
Proof.
  intros Hne. unfold mean, ndiv, fin.
  destruct (Req_dec_T (INR (length r)) 0) as [E|E]; [|reflexivity].
  now apply INR_length_nonzero in E.
Qed.

End MeanFacts.

(** ** [voltage_fluctuation] *)

Module VoltageFacts.

Import Correlation CorrelationSpec ListFacts.
Import Scalar.

Section Generic.

Context {F : Type} {O : Scalar.Ops F}.

Lemma times_self (l : list F) : times l l = map square l.
Proof.
  induction l as [|x l IH]; [reflexivity|].
  cbn [times map]. now rewrite IH.
Qed.

(** [_f_signal] computes the variance as the documentation writes it. *)
Lemma _f_signal_variance (l : list F) : _f_signal l = variance l.
Proof. unfold _f_signal, variance. now rewrite times_self. Qed.

Lemma per_neuron_variances (V : matrix F) :
  map _f_signal (moveaxis01 (cols V) (entries V)) =
  map (fun i => variance (neuron_signal V i)) (seq 0 (cols V)).
Proof.
  unfold moveaxis01. rewrite map_map.
  apply map_ext. intros i. apply _f_signal_variance.
Qed.

Lemma voltage_fluctuation_correct (V : matrix F) (method : string) :
  method = "loop"%string \/ method = "vmap"%string ->
  Correlation.voltage_fluctuation V method =
  Ok (CorrelationSpec.voltage_fluctuation V).
Proof.
  intros Hm. unfold Correlation.voltage_fluctuation.
  assert (E : (if String.eqb method "loop"
     then Ok (for_loop _f_signal (moveaxis01 (cols V) (entries V)))
     else if String.eqb method "vmap"
     then Ok (vmap_in_axes1 _f_signal (cols V) (entries V))
     else Raise ValueError) =
     Ok (map (fun i => variance (neuron_signal V i)) (seq 0 (cols V)))).
  { destruct Hm as [-> | ->]; cbn [String.eqb Ascii.eqb Bool.eqb andb].
    - now rewrite for_loop_map, per_neuron_variances.
    - rewrite <- per_neuron_variances.
      unfold vmap_in_axes1, moveaxis01. now rewrite map_map. }
  rewrite E. cbn [bind].
  unfold CorrelationSpec.voltage_fluctuation, where_.
  change (sub (mean (times (mean_axis1 (entries V))
                           (mean_axis1 (entries V))))
              (square (mean (mean_axis1 (entries V)))))
    with (_f_signal (population_average V)).
  now rewrite _f_signal_variance.
Qed.

Lemma voltage_fluctuation_unsupported (V : matrix F) (method : string) :
  method <> "loop"%string -> method <> "vmap"%string ->
  Correlation.voltage_fluctuation V method = Raise ValueError.
Proof.
  intros Hl Hv. unfold Correlation.voltage_fluctuation.
  apply String.eqb_neq in Hl, Hv. now rewrite Hl, Hv.
Qed.

End Generic.

(** *** Exact arithmetic on constant potentials *)

Lemma exact_sum_constant (c : R) (n : nat) :
  sum (repeat (fin c) n) = fin (INR n * c).
Proof.
  induction n as [|n IH].
  - unfold sum, fin. cbn [repeat fold_right of_nat exact INR].
    unfold fin. f_equal. ring.
  - cbn [repeat]. unfold sum in *. cbn [fold_right]. rewrite IH.
    unfold fin. cbn [add exact nadd lift2]. f_equal. rewrite S_INR. ring.
Qed.

Lemma exact_mean_constant (c : R) (n : nat) :
  (1 <= n)%nat -> mean (repeat (fin c) n) = fin c.
Proof.
  intros Hn. unfold mean. rewrite exact_sum_constant, repeat_length.
  unfold fin. cbn [div of_nat exact ndiv]. unfold fin.
  assert (Hne : INR n <> 0) by (apply not_0_INR; lia).
  destruct (Req_dec_T (INR n) 0); [contradiction|].
  f_equal. now field.
Qed.

Lemma exact_variance_constant (c : R) (n : nat) :
  (1 <= n)%nat -> variance (repeat (fin c) n) = fin 0.
Proof.
  intros Hn. unfold variance.
  rewrite map_repeat. change (square (fin c)) with (fin (c * c)).
  rewrite !exact_mean_constant by assumption.
  unfold fin. cbn [sub exact nsub lift2 square mul nmul]. f_equal. ring.
Qed.

(** In exact arithmetic constant potentials have the variance 0, the
    guard holds and the result is 1. *)
Lemma exact_constant_potentials (c : R) (T N : nat) (method : string) :
  (1 <= T)%nat -> (1 <= N)%nat ->
  method = "loop"%string \/ method = "vmap"%string ->
  Correlation.voltage_fluctuation (full T N (fin c)) method = Ok (fin 1).
Proof.
  intros HT HN Hm. rewrite (voltage_fluctuation_correct _ _ Hm). f_equal.
  unfold CorrelationSpec.voltage_fluctuation, neuron_signal, full.
  cbn [cols entries].
  assert (E : map (fun i => variance
                     (map (fun row => nth i row nan)
                          (repeat (repeat (fin c) N) T))) (seq 0 N) =
              repeat (fin 0) N).
  { rewrite <- (length_seq N 0) at 2.
    rewrite <- BinningFacts.map_const_repeat.
    apply map_ext_in. intros i Hi. apply in_seq in Hi.
    rewrite map_repeat, nth_repeat_lt by lia.
    now apply exact_variance_constant. }
  rewrite E, exact_mean_constant by assumption.
  unfold fin. cbn [eq0 exact neqb of_nat INR]. unfold fin.
  destruct (Req_dec_T 0 0); [reflexivity | contradiction].
Qed.

(** *** What every arithmetic does with [nan] *)

Lemma exact_nan_laws : Scalar.NaNLaws num.
Proof.
  constructor; try reflexivity.
  cbv [div of_nat exact nan ndiv fin nonfinite INR].
  destruct (Req_dec_T 0 0); [reflexivity | contradiction].
Qed.

Lemma ieee_nan_laws (prec emax : Z) :
  @Scalar.NaNLaws spec_float (ieee prec emax).
Proof.
  constructor; try reflexivity.
Qed.

Section NaN.

Context {F : Type} {O : Scalar.Ops F} {L : Scalar.NaNLaws F}.

Lemma mean_all_nan (l : list F) :
  Forall (fun x => x = nan) l -> mean l = nan.
Proof.
  intros H. unfold mean. destruct H as [|x l -> _].
  - cbn [sum fold_right length]. apply div_0_0.
  - cbn [sum fold_right]. now rewrite add_nan_l, div_nan_l.
Qed.

Lemma variance_all_nan (l : list F) :
  Forall (fun x => x = nan) l -> variance l = nan.
Proof.
  intros H. unfold variance. rewrite (mean_all_nan (map square l)).
  - apply sub_nan_l.
  - apply Forall_forall. intros y Hy. apply in_map_iff in Hy as [x [<- Hx]].
    rewrite Forall_forall in H. rewrite (H x Hx). apply mul_nan_l.
Qed.

Lemma voltage_fluctuation_empty (V : matrix F) (method : string) :
  wf_matrix V = true ->
  rows V = 0%nat \/ cols V = 0%nat ->
  method = "loop"%string \/ method = "vmap"%string ->
  Correlation.voltage_fluctuation V method = Ok nan.
Proof.
  intros Hwf Hs Hm. rewrite (voltage_fluctuation_correct _ _ Hm). f_equal.
  unfold wf_matrix in Hwf. apply andb_prop in Hwf as [Hr Hc].
  apply Nat.eqb_eq in Hr. rewrite forallb_forall in Hc.
  unfold CorrelationSpec.voltage_fluctuation.
  assert (Em : mean (map (fun i => variance (neuron_signal V i))
                         (seq 0 (cols V))) = nan).
  { apply mean_all_nan, Forall_forall. intros y Hy.
    apply in_map_iff in Hy as [i [<- Hi]]. apply in_seq in Hi.
    destruct Hs as [Hs | Hs]; [|lia].
    unfold neuron_signal. rewrite Hs in Hr.
    apply length_zero_iff_nil in Hr. rewrite Hr.
    now apply variance_all_nan. }
  rewrite Em, eq0_nan.
  rewrite (variance_all_nan (population_average V)); [apply div_nan_l|].
  apply Forall_forall. intros y Hy. unfold population_average in Hy.
  apply in_map_iff in Hy as [row [<- Hrow]].
  destruct Hs as [Hs | Hs].
  - rewrite Hs in Hr. apply length_zero_iff_nil in Hr.
    rewrite Hr in Hrow. contradiction.
  - specialize (Hc row Hrow). apply Nat.eqb_eq in Hc. rewrite Hs in Hc.
    apply length_zero_iff_nil in Hc. rewrite Hc.
    now apply mean_all_nan.
Qed.

End NaN.

(** C8. In exact arithmetic a matrix of constant potentials has the
    per-neuron variances 0 and [voltage_fluctuation] returns 1, as the
    claim has it. In floating point the difference
    [mean(x * x) - mean(x) ** 2] is not 0 on such a matrix, the guard
    [var_mean == 0.] does not hold, and the call returns the quotient of
    two rounding residues: [-0.0] for a 3 by 3 matrix of [0.1] in
    binary64, and [-0.5] for a 3 by 3 matrix of [0.9] in binary32. *)
Theorem constant_potentials_miss_the_guard :
  Correlation.voltage_fluctuation (O := exact) (full 3 3 (fin (1 / 10)))
    "loop" = Ok (fin 1) /\
  Correlation.voltage_fluctuation (O := binary64)
    (full 3 3 (decimal binary64 1 10)) "loop" = Ok (S754_zero true) /\
  Correlation.voltage_fluctuation (O := exact) (full 3 3 (fin (9 / 10)))
    "loop" = Ok (fin 1) /\
  Correlation.voltage_fluctuation (O := binary32)
    (full 3 3 (decimal binary32 9 10)) "loop" =
  Ok (S754_finite true 8388608 (-24)).
Proof.
  split; [apply exact_constant_potentials; (lia || now left)|].
  split; [vm_compute; reflexivity|].
  split; [apply exact_constant_potentials; (lia || now left)|].
  vm_compute. reflexivity.
Qed.

End VoltageFacts.

(** ** [weighted_correlation]: lengths *)

Module BroadcastFacts.

Import Correlation CorrelationSpec ListFacts NumFacts.

Lemma jnp_mul_length (a b : list num) :
  length a = length b -> length (jnp.mul a b) = length a.
Proof.
  revert b. induction a as [|x a IH]; intros [|y b] H; simpl in *;
    try reflexivity; try discriminate.
  f_equal. apply IH. now injection H.
Qed.

Lemma multiply_ok (a b : list num) :
  compatible (length a) (length b) = true ->
  exists c, jnp.multiply a b = Ok c /\
            length c = broadcast_length (length a) (length b).
Proof.
  unfold compatible, jnp.multiply, broadcast_length. intros H.
  destruct (Nat.eqb_spec (length a) (length b)) as [E|E].
  - eexists. split; [reflexivity | now apply jnp_mul_length].
  - destruct (Nat.eqb_spec (length a) 1) as [E1|E1].
    + eexists. split; [reflexivity | apply length_map].
    + destruct (Nat.eqb_spec (length b) 1) as [E2|E2]; [|discriminate].
      eexists. split; [reflexivity | apply length_map].
Qed.

Lemma multiply_raise (a b : list num) :
  compatible (length a) (length b) = false ->
  jnp.multiply a b = Raise ShapeError.
Proof.
  unfold compatible, jnp.multiply. intros H.
  destruct (length a =? length b)%nat; [discriminate|].
  destruct (length a =? 1)%nat; [discriminate|].
  destruct (length b =? 1)%nat; [discriminate | reflexivity].
Qed.

(** Two lengths are rejected when they differ and neither is 1. *)
Lemma compatible_false_iff (a b : nat) :
  compatible a b = false <-> a <> b /\ a <> 1%nat /\ b <> 1%nat.
Proof.
  unfold compatible.
  destruct (Nat.eqb_spec a b), (Nat.eqb_spec a 1), (Nat.eqb_spec b 1);
    cbn; split; intros H; try discriminate; try tauto; try lia.
Qed.

Lemma all_compatible_false_iff (lx ly lw : nat) :
  all_compatible lx ly lw = false <->
  compatible lx lw = false \/ compatible ly lw = false \/
  compatible lx ly = false.
Proof.
  unfold all_compatible.
  destruct (compatible lx lw), (compatible ly lw), (compatible lx ly);
    cbn; split; intros H; try discriminate; try tauto;
    try (destruct H as [H | [H | H]]; discriminate).
Qed.

Lemma compatible_sym (a b : nat) : compatible a b = compatible b a.
Proof.
  unfold compatible. rewrite (Nat.eqb_sym a b).
  destruct (b =? a)%nat, (a =? 1)%nat, (b =? 1)%nat; reflexivity.
Qed.

Lemma compatible_broadcast (lx ly lw : nat) :
  compatible lx lw = true -> compatible ly lw = true ->
  compatible (broadcast_length lw lx) ly = compatible lx ly.
Proof.
  unfold compatible, broadcast_length.
  destruct (Nat.eqb_spec lx lw), (Nat.eqb_spec lw lx), (Nat.eqb_spec lx 1),
    (Nat.eqb_spec lw 1), (Nat.eqb_spec ly lw), (Nat.eqb_spec ly 1),
    (Nat.eqb_spec lx ly); cbn; intros; try reflexivity; try discriminate;
    try lia;
    repeat match goal with
    | |- context [(?a =? ?b)%nat] => destruct (Nat.eqb_spec a b)
    end; cbn; try reflexivity; try lia.
Qed.

Lemma weighted_mean_ok (x w : list num) :
  compatible (length x) (length w) = true ->
  exists m, _weighted_mean x w = Ok m.
Proof.
  intros H. unfold _weighted_mean.
  destruct (multiply_ok x w H) as [c [-> _]]. cbn [bind]. eauto.
Qed.

Lemma weighted_mean_raise (x w : list num) :
  compatible (length x) (length w) = false ->
  _weighted_mean x w = Raise ShapeError.
Proof.
  intros H. unfold _weighted_mean. now rewrite (multiply_raise x w H).
Qed.

Lemma weighted_cov_ok (x y w : list num) :
  all_compatible (length x) (length y) (length w) = true ->
  exists v, _weighted_cov x y w = Ok v.
Proof.
  unfold all_compatible. intros H.
  apply andb_prop in H as [H Hxy]. apply andb_prop in H as [Hxw Hyw].
  unfold _weighted_cov.
  destruct (weighted_mean_ok x w Hxw) as [mx ->]. cbn [bind].
  assert (Hwx : compatible (length w) (length (jnp.sub_scalar x mx)) = true).
  { unfold jnp.sub_scalar. now rewrite length_map, compatible_sym. }
  destruct (multiply_ok _ _ Hwx) as [wx [-> Hlen]]. cbn [bind].
  destruct (weighted_mean_ok y w Hyw) as [my ->]. cbn [bind].
  assert (Hc : compatible (length wx) (length (jnp.sub_scalar y my)) = true).
  { unfold jnp.sub_scalar in *. rewrite length_map in *. rewrite Hlen.
    now rewrite compatible_broadcast. }
  destruct (multiply_ok _ _ Hc) as [wxy [-> _]]. cbn [bind]. eauto.
Qed.

Lemma weighted_cov_raise (x y w : list num) :
  all_compatible (length x) (length y) (length w) = false ->
  _weighted_cov x y w = Raise ShapeError.
Proof.
  unfold all_compatible. intros H. unfold _weighted_cov.
  destruct (compatible (length x) (length w)) eqn:Hxw;
    [|now rewrite (weighted_mean_raise x w Hxw)].
  destruct (weighted_mean_ok x w Hxw) as [mx ->]. cbn [bind].
  assert (Hwx : compatible (length w) (length (jnp.sub_scalar x mx)) = true).
  { unfold jnp.sub_scalar. now rewrite length_map, compatible_sym. }
  destruct (multiply_ok _ _ Hwx) as [wx [-> Hlen]]. cbn [bind].
  destruct (compatible (length y) (length w)) eqn:Hyw;
    [|now rewrite (weighted_mean_raise y w Hyw)].
  destruct (weighted_mean_ok y w Hyw) as [my ->]. cbn [bind].
  cbn [andb] in H.
  rewrite multiply_raise; [reflexivity|].
  unfold jnp.sub_scalar in *. rewrite length_map in *. rewrite Hlen.
  now rewrite compatible_broadcast.
Qed.

Lemma all_compatible_same (lx lw : nat) :
  all_compatible lx lx lw = compatible lx lw.
Proof.
  unfold all_compatible, compatible. rewrite Nat.eqb_refl.
  destruct (lx =? lw)%nat, (lx =? 1)%nat, (lw =? 1)%nat; reflexivity.
Qed.

Lemma weighted_correlation_lengths (x y w : ndarray) :
  ndim x = 1%nat -> ndim y = 1%nat -> ndim w = 1%nat ->
  if all_compatible (length (data x)) (length (data y)) (length (data w))
  then exists v, weighted_correlation x y w = Ok v
  else weighted_correlation x y w = Raise ShapeError.
Proof.
  intros Hx Hy Hw. unfold weighted_correlation.
  rewrite Hx, Hy, Hw. cbn [Nat.eqb negb].
  destruct (all_compatible _ _ _) eqn:H.
  - destruct (weighted_cov_ok (map fin (data x)) (map fin (data y))
                (map fin (data w))) as [cxy ->];
      [now rewrite !length_map|]. cbn [bind].
    unfold all_compatible in H.
    apply andb_prop in H as [H Hxy]. apply andb_prop in H as [Hxw Hyw].
    destruct (weighted_cov_ok (map fin (data x)) (map fin (data x))
                (map fin (data w))) as [cxx ->];
      [now rewrite !length_map, all_compatible_same|]. cbn [bind].
    destruct (weighted_cov_ok (map fin (data y)) (map fin (data y))
                (map fin (data w))) as [cyy ->];
      [now rewrite !length_map, all_compatible_same|]. cbn [bind].
    eauto.
  - rewrite weighted_cov_raise; [reflexivity|]. now rewrite !length_map.
Qed.

Lemma weighted_correlation_rank (x y w : ndarray) :
  ndim x <> 1%nat \/ ndim y <> 1%nat \/ ndim w <> 1%nat ->
  weighted_correlation x y w = Raise ValueError.
Proof.
  intros H. unfold weighted_correlation.
  destruct (Nat.eqb_spec (ndim x) 1); [|reflexivity].
  destruct (Nat.eqb_spec (ndim y) 1); [|reflexivity].
  destruct (Nat.eqb_spec (ndim w) 1); [|reflexivity].
  destruct H as [H | [H | H]]; contradiction.
Qed.

(** C5. The documentation of [weighted_correlation] requires [w] to have
    the length of [x] and [y], and the claim has a mismatch raise. With [x]
    and [y] of length 3 and [w] of length 1 the call raises nothing: only
    the ranks are checked, the single weight is broadcast by the
    element-wise products, and the call returns [109 / sqrt(50 * 238)],
    about 0.9992. *)
Theorem length_one_weight_is_broadcast :
  length [1; 2; 3] <> length [2] /\
  ndim (array1 [1; 2; 3]) = 1%nat /\ ndim (array1 [2; 4; 7]) = 1%nat /\
  ndim (array1 [2]) = 1%nat /\
  weighted_correlation (array1 [1; 2; 3]) (array1 [2; 4; 7]) (array1 [2]) =
  Ok (fin (109 / sqrt (50 * 238))).
Proof.
  split; [discriminate|]. repeat (split; [reflexivity|]).
  unfold weighted_correlation, array1, ndim.
  cbn [shape data length Nat.eqb negb map].
  unfold _weighted_cov, _weighted_mean, jnp.multiply.
  cbn [length Nat.eqb map hd jnp.mul bind jnp.sub_scalar jnp.sum fold_right].
  unfold fin, nmul, nadd, nsub, lift2, ndiv.
  repeat match goal with
  | |- context [Req_dec_T ?a ?b] =>
      destruct (Req_dec_T a b); [exfalso; lra|]
  end.
  cbn [bind map jnp.sub_scalar jnp.mul jnp.sum fold_right length Nat.eqb hd].
  unfold fin, nmul, nadd, nsub, lift2, ndiv.
  repeat match goal with
  | |- context [Req_dec_T ?a ?b] =>
      destruct (Req_dec_T a b); [exfalso; lra|]
  end.
  match goal with
  | |- context [jnp.sqrt (Some ?e)] => replace e with (50 * 238) by field
  end.
  unfold jnp.sqrt.
  destruct (Rlt_dec (50 * 238) 0) as [H|_]; [exfalso; lra|].
  destruct (Req_dec_T (sqrt (50 * 238)) 0) as [E|E];
    [apply sqrt_eq_0 in E; lra|].
  do 2 f_equal. field. exact E.
Qed.

End BroadcastFacts.

(** ** [weighted_correlation]: uniform weights *)

Module UniformWeightFacts.

Import Correlation CorrelationSpec ListFacts NumFacts MeanFacts.

Section OverIndexList.

Variable A : Type.
Variable l : list A.
Variable c : R.
Hypothesis l_nonempty : l <> [].
Hypothesis c_nonzero : c <> 0.

Let n : R := INR (length l).


Lemma multiply_same_length (f g : A -> num) :
  jnp.multiply (map f l) (map g l) = Ok (map (fun a => nmul (f a) (g a)) l).
Proof.
  unfold jnp.multiply. rewrite !length_map, Nat.eqb_refl.
  now rewrite jnp_mul_map.
Qed.

Lemma sum_fin_map (h : A -> R) :
  jnp.sum (map (fun a => fin (h a)) l) = fin (Rlist_sum (map h l)).
Proof. now rewrite <- jnp_sum_fin, map_map. Qed.






End OverIndexList.


Lemma map_fst_combine {A B : Type} (x : list A) (y : list B) :
  length x = length y -> map fst (combine x y) = x.
Proof.
  revert y. induction x as [|a x IH]; intros [|b y] H; simpl in *;
    try reflexivity; try discriminate.
  f_equal. apply IH. now injection H.
Qed.

Lemma map_snd_combine {A B : Type} (x : list A) (y : list B) :
  length x = length y -> map snd (combine x y) = y.
Proof.
  revert y. induction x as [|a x IH]; intros [|b y] H; simpl in *;
    try reflexivity; try discriminate.
  f_equal. apply IH. now injection H.
Qed.






End UniformWeightFacts.

(** ** Learning-rate schedulers *)

Module LrSchedulerFacts.

Import LrScheduler.

Lemma sum_gt_count (i : Z) (boundaries : list Z) :
  sum_gt i boundaries = Z.of_nat (count_below i boundaries).
Proof.
  unfold sum_gt, count_below.
  induction boundaries as [|b bs IH]; [reflexivity|].
  cbn [map fold_right filter]. rewrite IH.
  destruct (b <? i)%Z; cbn [length]; lia.
Qed.

Lemma count_below_le (i : Z) (boundaries : list Z) :
  (count_below i boundaries <= length boundaries)%nat.
Proof. apply filter_length_le. Qed.

Ltac unfold_call :=
  cbn [call];
  unfold ConstantLR_call, StepLR_call, MultiStepLR_call,
    CosineAnnealingLR_call, CosineAnnealingWarmRestarts_call,
    current_epoch, ExponentialLR_call, ExponentialDecayLR_call,
    InverseTimeDecayLR_call, PolynomialDecayLR_call,
    PiecewiseConstantLR_call, epoch_step, call_step, mbind, ret, get_lr,
    get_last_epoch, get_last_call, lift, step_div, step_pow, py_truediv.

Ltac split_call :=
  repeat match goal with
  | |- context [f_py_pow ?a ?b] => destruct (f_py_pow a b)
  | |- context [is_zero ?a] => destruct (is_zero a)
  | |- context [lax_cond ?a ?b ?c ?d] => destruct (lax_cond a b c d)
  | |- context [getitem ?v ?n] => destruct (getitem v n)
  | |- context [if ?b then _ else _] => destruct b
  end.

Section Generic.

Context {float : Type} {ops : FloatOps float}.

Lemma getitem_count (boundaries : list Z) (values : list float) (i : Z) :
  (length boundaries + 1 = length values)%nat ->
  exists v,
    nth_error values (count_below i boundaries) = Some v /\
    getitem values (sum_gt i boundaries) = Ok v.
Proof.
  intros Hlen. pose proof (count_below_le i boundaries) as Hle.
  destruct values as [|v0 vs]; [cbn in Hlen; lia|].
  exists (nth (count_below i boundaries) (v0 :: vs) v0). split.
  - apply nth_error_nth'. lia.
  - unfold getitem. rewrite sum_gt_count, Nat2Z.id.
    rewrite Nat.min_l by lia. reflexivity.
Qed.

Lemma piecewise_call (boundaries : list Z) (values : list float)
  (s : state float) (i : Z) :
  (length boundaries + 1 = length values)%nat ->
  exists v,
    nth_error values (count_below i boundaries) = Some v /\
    call (PiecewiseConstantLR boundaries values) (Some i) s = Ok (v, s).
Proof.
  intros Hlen.
  destruct (getitem_count boundaries values i Hlen) as [v [Hv Hg]].
  exists v. split; [assumption|].
  cbn [call]. unfold PiecewiseConstantLR_call, call_step, mbind, ret, lift.
  cbn [step_val]. now rewrite Hg.
Qed.

Lemma piecewise_init_mismatch (ditype : Z) (boundaries : list Z)
  (values : list float) (last_epoch last_call : Z) :
  Z.of_nat (length boundaries) <> (Z.of_nat (length values) - 1)%Z ->
  (exists e, PiecewiseConstantLR_init ditype boundaries values
               last_epoch last_call = Raise e) /\
  (forall s, CallBasedLRScheduler_init ditype (of_int 0) last_epoch last_call
             = Ok s ->
             PiecewiseConstantLR_init ditype boundaries values
               last_epoch last_call = Raise ValueError).
Proof.
  intros Hlen. unfold PiecewiseConstantLR_init.
  destruct (Z.eqb_spec (Z.of_nat (length boundaries))
              (Z.of_nat (length values) - 1)) as [E|_]; [contradiction|].
  cbn [negb]. split.
  - destruct (CallBasedLRScheduler_init _ _ _ _) as [s|e]; cbn [bind]; eauto.
  - intros s ->. reflexivity.
Qed.



(** The outcome of a call is determined by the parameters, the base
    rate and the evaluated step. *)
Lemma call_depends_on_step (k : kind float) (i : option Z)
  (s s' : state float) :
  lr s' = lr s ->
  evaluated_step k i s' = evaluated_step k i s ->
  outcome (call k i s') = outcome (call k i s).
Proof.
  intros Hlr Hstep. unfold evaluated_step in Hstep.
  destruct k; cbn [call_based] in Hstep; unfold_call; unfold outcome;
    destruct i as [i|]; cbn [step_val];
    repeat match goal with
    | H : context [last_call ?x] |- _ => destruct (last_call x)
    end;
    cbn [option_map] in Hstep; try discriminate Hstep;
    try (injection Hstep as Hstep);
    cbn [int_succ val step_val] in *; rewrite ?Hstep, ?Hlr;
    split_call;
    rewrite ?Hstep, ?Hlr; reflexivity.
Qed.

End Generic.

(** C4. A PiecewiseConstant scheduler whose boundaries are one fewer than
    its values returns, at step [i], [values[k]] with [k] the count of
    boundaries strictly below [i], and leaves its state as it was; with
    boundaries [10, 20] and values [0.1, 0.01, 0.001] it returns 0.1 at
    step 5, 0.01 at step 15 and 0.001 at step 25; and the constructor
    raises when the boundaries are not one fewer than the values, a
    [ValueError] once the counters are accepted. *)
Theorem piecewise_constant_spec {float : Type} {ops : FloatOps float}
  (ditype : Z) (boundaries : list Z) (values : list float)
  (last_epoch last_call : Z) (s : state float) (i : Z) :
  ((length boundaries + 1 = length values)%nat ->
   exists v,
     nth_error values (count_below i boundaries) = Some v /\
     call (PiecewiseConstantLR boundaries values) (Some i) s = Ok (v, s)) /\
  (forall s0 : state R,
     call (PiecewiseConstantLR [10; 20]%Z [0.1; 0.01; 0.001]) (Some 5%Z) s0 =
     Ok (0.1, s0) /\
     call (PiecewiseConstantLR [10; 20]%Z [0.1; 0.01; 0.001]) (Some 15%Z) s0 =
     Ok (0.01, s0) /\
     call (PiecewiseConstantLR [10; 20]%Z [0.1; 0.01; 0.001]) (Some 25%Z) s0 =
     Ok (0.001, s0)) /\
  (Z.of_nat (length boundaries) <> (Z.of_nat (length values) - 1)%Z ->
   (exists e, PiecewiseConstantLR_init ditype boundaries values
                last_epoch last_call = Raise e) /\
   (forall st,
      CallBasedLRScheduler_init ditype (of_int 0) last_epoch last_call =
      Ok st ->
      PiecewiseConstantLR_init ditype boundaries values
        last_epoch last_call = Raise ValueError)).
Proof.
  split; [apply piecewise_call|].
  split; [|apply piecewise_init_mismatch].
  intros s0. repeat split.
Qed.

Lemma piecewise_constant_spec_witness :
  (exists v,
     nth_error [0.1; 0.01; 0.001] (count_below 15 [10; 20]%Z) = Some v /\
     call (PiecewiseConstantLR [10; 20]%Z [0.1; 0.01; 0.001]) (Some 15%Z)
       (fresh_call_state 0) = Ok (v, fresh_call_state 0)) /\
  PiecewiseConstantLR_init 32 [10; 20]%Z [0.1; 0.01] (-1) (-1) =
  Raise ValueError.
Proof.
  split.
  - apply (proj1 (piecewise_constant_spec 32 [10; 20]%Z [0.1; 0.01; 0.001]
                    (-1) (-1) (fresh_call_state 0) 15)).
    reflexivity.
  - apply (proj2 (proj2 (proj2 (piecewise_constant_spec 32 [10; 20]%Z
                                  [0.1; 0.01] (-1) (-1)
                                  (fresh_call_state 0) 15))
                    ltac:(discriminate))
             (fresh_call_state 0)).
    reflexivity.
Defined.



(** C10. On the epoch-based classes (Constant, Step, MultiStep,
    CosineAnnealing, Exponential) [step_call] returns without changing
    [last_epoch] or any other attribute. *)
Theorem step_call_noop {float : Type} {ops : FloatOps float}
  (k : kind float) (s : state float) :
  epoch_based k = true -> step_call k s = Ok (tt, s).
Proof.
  intros H. destruct k; try discriminate H; reflexivity.
Qed.

Lemma step_call_noop_witness :
  step_call (MultiStepLR [-1; 5; 8; 2147483647]%Z 0.1) (fresh_epoch_state 1) =
  Ok (tt, fresh_epoch_state 1).
Proof.
  apply (step_call_noop (MultiStepLR [-1; 5; 8; 2147483647]%Z 0.1)
           (fresh_epoch_state 1)).
  reflexivity.
Defined.

End LrSchedulerFacts.

(** * Further properties *)

(** ** [cross_correlation]: range, synchrony, invariances, errors *)

Module CrossCorrelationMore.

Import Correlation CorrelationSpec CorrelationInputs.
Import ListFacts NumFacts BinFacts BinningFacts PairFacts.
Import CrossCorrelationFacts SilentFacts.

Lemma sum_upto_le (n : nat) (f g : nat -> R) :
  (forall t, f t <= g t) -> sum_upto n f <= sum_upto n g.
Proof.
  intros H. unfold sum_upto.
  induction (seq 0 n) as [|x l IH].
  - simpl. lra.
  - unfold Rlist_sum in *. cbn [map fold_right]. pose proof (H x). lra.
Qed.

Lemma sum_upto_ge_term (n k : nat) (f : nat -> R) :
  (k < n)%nat -> (forall t, 0 <= f t) -> f k <= sum_upto n f.
Proof.
  intros Hk Hf. unfold sum_upto.
  assert (Hin : In k (seq 0 n)) by (apply in_seq; lia).
  induction (seq 0 n) as [|x l IH]; [contradiction|].
  cbn [map Rlist_sum fold_right].
  assert (Hl : 0 <= Rlist_sum (map f l)).
  { apply Rlist_sum_nonneg, Forall_forall. intros y Hy.
    apply in_map_iff in Hy as [t [<- _]]. apply Hf. }
  unfold Rlist_sum in *.
  destruct Hin as [-> | Hin].
  - lra.
  - specialize (IH Hin). pose proof (Hf x). lra.
Qed.

Lemma B_bounds (S : ndarray2) (bs i t : nat) : 0 <= B S bs i t <= 1.
Proof. destruct (B_cases S bs i t) as [-> | ->]; lra. Qed.

(** Every pair value lies between 0 and 1. *)
Lemma pair_value_range (S : ndarray2) (bs nb i j : nat) :
  0 <= pair_value S bs nb i j <= 1.
Proof.
  unfold pair_value.
  set (dot := sum_upto nb (fun t => B S bs i t * B S bs j t)).
  set (ni := sum_upto nb (B S bs i)). set (nj := sum_upto nb (B S bs j)).
  assert (Hdot : 0 <= dot).
  { apply sum_upto_nonneg. intros t.
    pose proof (B_bounds S bs i t). pose proof (B_bounds S bs j t). nra. }
  assert (Hi : dot <= ni).
  { apply sum_upto_le. intros t.
    pose proof (B_bounds S bs i t). pose proof (B_bounds S bs j t). nra. }
  assert (Hj : dot <= nj).
  { apply sum_upto_le. intros t.
    pose proof (B_bounds S bs i t). pose proof (B_bounds S bs j t). nra. }
  assert (Hle : dot <= sqrt (ni * nj)).
  { rewrite <- (sqrt_square dot) at 1 by assumption.
    apply sqrt_le_1_alt. nra. }
  destruct (Req_dec_T (sqrt (ni * nj)) 0) as [E|E]; [lra|].
  assert (Hpos : 0 < sqrt (ni * nj)).
  { pose proof (sqrt_pos (ni * nj)). lra. }
  split.
  - apply Rmult_le_pos; [assumption|].
    apply Rlt_le, Rinv_0_lt_compat, Hpos.
  - apply (Rmult_le_reg_r (sqrt (ni * nj))); [assumption|].
    unfold Rdiv. rewrite Rmult_assoc, Rinv_l by assumption. lra.
Qed.

Lemma Rlist_sum_bounds (l : list R) :
  Forall (fun x => 0 <= x <= 1) l ->
  0 <= Rlist_sum l <= INR (length l).
Proof.
  induction 1 as [|x l Hx _ IH].
  - simpl. lra.
  - change (length (x :: l)) with (Datatypes.S (length l)). rewrite S_INR.
    unfold Rlist_sum in *. cbn [fold_right]. lra.
Qed.

Lemma mean_range (l : list R) :
  l <> [] -> Forall (fun x => 0 <= x <= 1) l ->
  exists r, mean l = fin r /\ 0 <= r <= 1.
Proof.
  intros Hne H. rewrite (MeanFacts.mean_finite l Hne).
  eexists. split; [reflexivity|].
  pose proof (Rlist_sum_bounds l H) as Hb.
  assert (Hn : 0 < INR (length l)).
  { apply lt_0_INR. destruct l; [contradiction | cbn; lia]. }
  split.
  - apply Rmult_le_pos; [lra|]. apply Rlt_le, Rinv_0_lt_compat, Hn.
  - apply (Rmult_le_reg_r (INR (length l))); [assumption|].
    unfold Rdiv. rewrite Rmult_assoc, Rinv_l by lra. lra.
Qed.

(** X1. With at least two neurons and a bin size [int(bin / dt)] of at
    least 1, the cross-correlation index is a finite number between 0
    and 1. *)
Theorem cross_correlation_range (environ_dt : PyFloat.float) (S : ndarray2)
  (bin : PyFloat.float) (dt : option PyFloat.float) (method : string)
  (b : Z) :
  wf_ndarray2 S = true ->
  Correlation.bin_size environ_dt bin dt = Ok b ->
  (1 <= b)%Z ->
  method = "loop"%string \/ method = "vmap"%string ->
  (2 <= shape1 S)%nat ->
  exists r,
    Correlation.cross_correlation environ_dt S bin dt method = Ok (fin r) /\
    0 <= r <= 1.
Proof.
  intros Hwf Hdt Hbin Hm HN.
  rewrite (cross_correlation_correct _ _ _ _ _ _ Hwf Hdt Hbin Hm).
  unfold CorrelationSpec.cross_correlation.
  destruct (mean_range
              (map (fun p => pair_value S (Z.to_nat b)
                      (num_bins (shape0 S) (Z.to_nat b))
                      (fst p) (snd p)) (pairs (shape1 S))))
    as [r [Hr Hb]].
  - intros E. apply map_eq_nil in E. now apply pairs_nonempty in E.
  - apply Forall_forall. intros x Hx. apply in_map_iff in Hx as [p [<- _]].
    apply pair_value_range.
  - exists r. split; [now rewrite Hr | assumption].
Qed.

Lemma cross_correlation_range_witness :
  exists r,
    Correlation.cross_correlation (PyFloat.literal 1 10) example_spikes
      (PyFloat.literal 2 10) None "vmap" = Ok (fin r) /\ 0 <= r <= 1.
Proof.
  apply (cross_correlation_range (PyFloat.literal 1 10) example_spikes
           (PyFloat.literal 2 10) None "vmap" 2).
  - reflexivity.
  - reflexivity.
  - lia.
  - right. reflexivity.
  - cbn. lia.
Defined.

End CrossCorrelationMore.

Module SynchronyMore.

Import Correlation CorrelationSpec CorrelationInputs.
Import ListFacts NumFacts BinFacts BinningFacts PairFacts.
Import CrossCorrelationFacts SilentFacts CrossCorrelationMore.

Lemma identical_columns_wf (xs : list R) (N : nat) :
  wf_ndarray2 (identical_columns xs N) = true.
Proof.
  unfold wf_ndarray2, identical_columns. cbn [cells shape0 shape1].
  rewrite length_map, Nat.eqb_refl. cbn [andb].
  apply forallb_forall. intros row H. apply in_map_iff in H as [x [<- _]].
  rewrite repeat_length. apply Nat.eqb_refl.
Qed.

Lemma identical_columns_padded (xs : list R) (N t i : nat) :
  (i < N)%nat -> padded (identical_columns xs N) t i = nth t xs 0.
Proof.
  intros Hi. unfold padded, identical_columns. cbn [cells shape0].
  destruct (Nat.ltb_spec t (length xs)) as [Ht|Ht].
  - rewrite (nth_indep _ [] ((fun x => repeat x N) 0))
      by now rewrite length_map.
    rewrite (map_nth (fun x => repeat x N)).
    rewrite (nth_indep _ 0 (nth t xs 0)) by now rewrite repeat_length.
    apply nth_repeat.
  - now rewrite nth_overflow.
Qed.

Lemma nth_nonneg (xs : list R) (t : nat) :
  Forall (fun x => 0 <= x) xs -> 0 <= nth t xs 0.
Proof.
  intros H. destruct (Nat.lt_ge_cases t (length xs)) as [Ht|Ht].
  - rewrite Forall_forall in H. apply H, nth_In, Ht.
  - rewrite nth_overflow by assumption. lra.
Qed.

(** The binned activity shared by all neurons of [identical_columns]. *)
Lemma identical_columns_B (xs : list R) (N bs i t : nat) :
  (i < N)%nat ->
  B (identical_columns xs N) bs i t =
  if Rlt_dec 0 (sum_upto bs (fun k => nth (t * bs + k) xs 0)) then 1 else 0.
Proof.
  intros Hi. unfold B.
  rewrite (RelabelFacts.sum_upto_ext bs _ (fun k => nth (t * bs + k) xs 0));
    [reflexivity|].
  intros k. now apply identical_columns_padded.
Qed.

Lemma active_bin (xs : list R) (bs : nat) :
  (1 <= bs)%nat ->
  Forall (fun x => 0 <= x) xs -> Exists (fun x => 0 < x) xs ->
  exists b, (b < num_bins (length xs) bs)%nat /\
            0 < sum_upto bs (fun k => nth (b * bs + k) xs 0).
Proof.
  intros Hbs Hnn Hex.
  apply Exists_exists in Hex as [x [Hin Hx]].
  destruct (In_nth xs x 0 Hin) as [t0 [Ht0 E]].
  pose proof (Nat.div_mod t0 bs ltac:(lia)) as Hdm.
  pose proof (Nat.mod_upper_bound t0 bs ltac:(lia)) as Hr.
  pose proof (num_bins_cover (length xs) bs Hbs) as Hcover.
  exists (t0 / bs)%nat. split.
  - apply Nat.Div0.div_lt_upper_bound. nia.
  - eapply Rlt_le_trans;
      [|apply (sum_upto_ge_term bs (t0 mod bs)); [assumption|]].
    + cbv beta. replace (t0 / bs * bs + t0 mod bs)%nat with t0 by lia.
      now rewrite E.
    + intros k. now apply nth_nonneg.
Qed.

Lemma identical_columns_pair_value (xs : list R) (N bs i j : nat) :
  (1 <= bs)%nat -> (i < N)%nat -> (j < N)%nat ->
  Forall (fun x => 0 <= x) xs -> Exists (fun x => 0 < x) xs ->
  pair_value (identical_columns xs N) bs (num_bins (length xs) bs) i j = 1.
Proof.
  intros Hbs Hi Hj Hnn Hex. unfold pair_value.
  set (nb := num_bins (length xs) bs).
  set (b := fun t => if Rlt_dec 0 (sum_upto bs (fun k => nth (t * bs + k) xs 0))
                     then 1 else 0).
  assert (Hb01 : forall t, b t = 0 \/ b t = 1).
  { intros t. unfold b. destruct (Rlt_dec _ _); auto. }
  rewrite (RelabelFacts.sum_upto_ext nb
             (fun t => B (identical_columns xs N) bs i t *
                       B (identical_columns xs N) bs j t) b).
  2:{ intros t. rewrite !identical_columns_B by assumption. fold (b t).
      destruct (Hb01 t) as [-> | ->]; ring. }
  rewrite (RelabelFacts.sum_upto_ext nb (B (identical_columns xs N) bs i) b)
    by (intros t; now apply identical_columns_B).
  rewrite (RelabelFacts.sum_upto_ext nb (B (identical_columns xs N) bs j) b)
    by (intros t; now apply identical_columns_B).
  assert (Hn : 1 <= sum_upto nb b).
  { destruct (active_bin xs bs Hbs Hnn Hex) as [b0 [Hb0 Hact]].
    eapply Rle_trans; [|apply (sum_upto_ge_term nb b0); [exact Hb0|]].
    - unfold b. destruct (Rlt_dec _ _); [lra | contradiction].
    - intros t. destruct (Hb01 t) as [-> | ->]; lra. }
  rewrite sqrt_square by lra.
  destruct (Req_dec_T (sum_upto nb b) 0); [lra|]. field. lra.
Qed.

(** X2. When every neuron carries the same non-negative spike train,
    that train has at least one spike and the bin size [int(bin / dt)] is
    at least 1, the cross-correlation index is exactly 1. The all-ones
    matrices of [test_cc] are the case of a train of ones. *)
Theorem identical_trains_are_coherent (environ_dt : PyFloat.float)
  (xs : list R) (N : nat) (bin : PyFloat.float) (dt : option PyFloat.float)
  (method : string) (b : Z) :
  Correlation.bin_size environ_dt bin dt = Ok b ->
  (1 <= b)%Z ->
  method = "loop"%string \/ method = "vmap"%string ->
  Forall (fun x => 0 <= x) xs -> Exists (fun x => 0 < x) xs ->
  (2 <= N)%nat ->
  Correlation.cross_correlation environ_dt (identical_columns xs N)
    bin dt method = Ok (fin 1).
Proof.
  intros Hdt Hbin Hm Hnn Hex HN.
  rewrite (cross_correlation_correct _ _ _ _ _ _ (identical_columns_wf xs N)
             Hdt Hbin Hm).
  f_equal. unfold CorrelationSpec.cross_correlation.
  change (shape0 (identical_columns xs N)) with (length xs).
  change (shape1 (identical_columns xs N)) with N.
  pose proof Hbin as Hbs.
  apply AllOnesFacts.mean_ones.
  - intros E. apply map_eq_nil in E. now apply pairs_nonempty in E.
  - apply Forall_forall. intros x Hx.
    apply in_map_iff in Hx as [[i j] [<- Hp]].
    apply in_pairs in Hp. cbn [fst snd].
    apply identical_columns_pair_value; try assumption; lia.
Qed.

Lemma identical_trains_are_coherent_witness :
  Correlation.cross_correlation (PyFloat.literal 1 10)
    (identical_columns [1; 0; 1; 0; 0] 3)
    (PyFloat.of_int 1) None "loop" = Ok (fin 1).
Proof.
  apply (identical_trains_are_coherent (PyFloat.literal 1 10)
           [1; 0; 1; 0; 0] 3 (PyFloat.of_int 1) None "loop" 10).
  - reflexivity.
  - lia.
  - left. reflexivity.
  - repeat constructor; lra.
  - constructor. lra.
  - lia.
Defined.

(** *** Amplitude *)

Lemma scale_matrix_wf (c : R) (S : ndarray2) :
  wf_ndarray2 S = true -> wf_ndarray2 (scale_matrix c S) = true.
Proof.
  unfold wf_ndarray2, scale_matrix. cbn [cells shape0 shape1]. intros H.
  apply andb_prop in H as [H1 H2]. rewrite length_map, H1. cbn [andb].
  rewrite forallb_forall in *. intros row Hrow.
  apply in_map_iff in Hrow as [r [<- Hr]]. rewrite length_map. now apply H2.
Qed.

Lemma nth_map_scale (c : R) (row : list R) (i : nat) :
  nth i (map (Rmult c) row) 0 = c * nth i row 0.
Proof.
  destruct (Nat.lt_ge_cases i (length row)) as [Hi|Hi].
  - rewrite (nth_indep _ 0 (c * 0)) by now rewrite length_map.
    apply (map_nth (Rmult c)).
  - rewrite !nth_overflow by (rewrite ?length_map; assumption). ring.
Qed.

Lemma scale_matrix_padded (c : R) (S : ndarray2) (t i : nat) :
  padded (scale_matrix c S) t i = c * padded S t i.
Proof.
  unfold padded, scale_matrix. cbn [cells shape0].
  destruct (_ <? _)%nat; [|ring].
  change (@nil R) with (map (Rmult c) []) at 1.
  rewrite (map_nth (map (Rmult c))). apply nth_map_scale.
Qed.

Lemma sum_upto_scale (n : nat) (c : R) (f : nat -> R) :
  sum_upto n (fun t => c * f t) = c * sum_upto n f.
Proof.
  unfold sum_upto. induction (seq 0 n) as [|x l IH].
  - simpl. ring.
  - unfold Rlist_sum in *. cbn [map fold_right]. rewrite IH. ring.
Qed.

Lemma scale_matrix_B (c : R) (S : ndarray2) (bs i t : nat) :
  0 < c -> B (scale_matrix c S) bs i t = B S bs i t.
Proof.
  intros Hc. unfold B.
  rewrite (RelabelFacts.sum_upto_ext bs _
             (fun k => c * padded S (t * bs + k) i))
    by (intros k; apply scale_matrix_padded).
  rewrite sum_upto_scale.
  destruct (Rlt_dec 0 (c * _)) as [H1|H1], (Rlt_dec 0 _) as [H2|H2];
    try reflexivity; exfalso.
  - apply H2. nra.
  - apply H1. nra.
Qed.

(** X3. Multiplying every entry of the spike matrix by a positive factor
    leaves the result of [cross_correlation] unchanged, whatever [bin],
    [dt] and [method]: only the presence of activity in a bin counts. *)
Theorem cross_correlation_amplitude_invariant (environ_dt : PyFloat.float)
  (S : ndarray2) (c : R) (bin : PyFloat.float) (dt : option PyFloat.float)
  (method : string) :
  wf_ndarray2 S = true ->
  0 < c ->
  Correlation.cross_correlation environ_dt (scale_matrix c S) bin dt method =
  Correlation.cross_correlation environ_dt S bin dt method.
Proof.
  intros Hwf Hc. unfold Correlation.cross_correlation.
  destruct (bin_size_cases environ_dt bin dt) as [[b [Hb Hge]] | [e He]].
  2:{ now rewrite !He. }
  rewrite (binned_states_pos _ _ _ _ _ (scale_matrix_wf c S Hwf) Hb Hge).
  rewrite (binned_states_pos _ _ _ _ _ Hwf Hb Hge).
  change (shape0 (scale_matrix c S)) with (shape0 S).
  change (shape1 (scale_matrix c S)) with (shape1 S).
  assert (E : forall bs nb,
             binned_activity (scale_matrix c S) bs nb =
             binned_activity S bs nb).
  { intros bs nb. unfold binned_activity.
    change (shape1 (scale_matrix c S)) with (shape1 S).
    apply map_ext. intros i. apply map_ext. intros t.
    now rewrite scale_matrix_B. }
  now rewrite E.
Qed.

Lemma cross_correlation_amplitude_invariant_witness :
  Correlation.cross_correlation (PyFloat.literal 1 10)
    (scale_matrix 3 example_spikes) (PyFloat.literal 2 10) None "loop" =
  Correlation.cross_correlation (PyFloat.literal 1 10) example_spikes
    (PyFloat.literal 2 10) None "loop".
Proof.
  apply (cross_correlation_amplitude_invariant (PyFloat.literal 1 10)
           example_spikes 3 (PyFloat.literal 2 10) None "loop").
  - reflexivity.
  - lra.
Defined.

End SynchronyMore.

Module PaddingAndErrors.

Import Correlation CorrelationSpec CorrelationInputs.
Import ListFacts NumFacts BinFacts BinningFacts PairFacts.
Import CrossCorrelationFacts SilentFacts.

Lemma append_zero_rows_wf (S : ndarray2) (k : nat) :
  wf_ndarray2 S = true -> wf_ndarray2 (append_zero_rows S k) = true.
Proof.
  intros H. pose proof (wf_length S H) as HL.
  unfold wf_ndarray2, append_zero_rows in *. cbn [cells shape0 shape1].
  apply andb_prop in H as [_ H2].
  rewrite length_app, repeat_length, HL, Nat.eqb_refl. cbn [andb].
  rewrite forallb_app, H2. cbn [andb].
  apply forallb_forall. intros row Hrow. apply repeat_spec in Hrow.
  subst row. rewrite repeat_length. apply Nat.eqb_refl.
Qed.

Lemma nth_zero_row (N i : nat) : nth i (repeat 0 N) 0 = 0.
Proof. apply nth_repeat. Qed.

Lemma append_zero_rows_padded (S : ndarray2) (k t i : nat) :
  wf_ndarray2 S = true ->
  padded (append_zero_rows S k) t i = padded S t i.
Proof.
  intros H. pose proof (wf_length S H) as HL.
  unfold padded, append_zero_rows. cbn [cells shape0].
  destruct (Nat.ltb_spec t (shape0 S)) as [Ht|Ht].
  - destruct (Nat.ltb_spec t (shape0 S + k)); [|lia].
    rewrite app_nth1 by lia. reflexivity.
  - destruct (Nat.ltb_spec t (shape0 S + k)) as [Ht'|Ht']; [|reflexivity].
    rewrite app_nth2 by lia.
    rewrite (nth_indep _ [] (repeat 0 (shape1 S)))
      by (rewrite repeat_length; lia).
    rewrite nth_repeat. apply nth_zero_row.
Qed.

Lemma num_bins_same (T k bs : nat) :
  (1 <= bs)%nat -> (T + k <= num_bins T bs * bs)%nat ->
  num_bins (T + k) bs = num_bins T bs.
Proof.
  intros Hbs Hk. unfold num_bins in *.
  pose proof (Nat.div_mod (T + bs - 1) bs ltac:(lia)) as E1.
  pose proof (Nat.mod_upper_bound (T + bs - 1) bs ltac:(lia)) as R1.
  pose proof (Nat.div_mod (T + k + bs - 1) bs ltac:(lia)) as E2.
  pose proof (Nat.mod_upper_bound (T + k + bs - 1) bs ltac:(lia)) as R2.
  nia.
Qed.

(** X4. Appending rows of zeros to a spike matrix, without reaching
    beyond the last bin, leaves the result of [cross_correlation]
    unchanged: the padding the function adds itself is the same as padding
    given by the caller. *)
Theorem cross_correlation_zero_rows (environ_dt : PyFloat.float)
  (S : ndarray2) (k : nat) (bin : PyFloat.float) (dt : option PyFloat.float)
  (method : string) :
  wf_ndarray2 S = true ->
  (forall b, Correlation.bin_size environ_dt bin dt = Ok b ->
     (shape0 S + k <=
      num_bins (shape0 S) (Z.to_nat b) * Z.to_nat b)%nat) ->
  Correlation.cross_correlation environ_dt (append_zero_rows S k)
    bin dt method =
  Correlation.cross_correlation environ_dt S bin dt method.
Proof.
  intros Hwf Hk. unfold Correlation.cross_correlation.
  destruct (bin_size_cases environ_dt bin dt) as [[b [Hb Hge]] | [e He]].
  2:{ now rewrite !He. }
  specialize (Hk b Hb).
  rewrite (binned_states_pos _ _ _ _ _ (append_zero_rows_wf S k Hwf) Hb Hge).
  rewrite (binned_states_pos _ _ _ _ _ Hwf Hb Hge).
  change (shape0 (append_zero_rows S k)) with (shape0 S + k)%nat.
  change (shape1 (append_zero_rows S k)) with (shape1 S).
  set (bs := Z.to_nat b) in *.
  assert (Hbs : (1 <= bs)%nat) by (unfold bs; lia).
  rewrite (num_bins_same _ _ _ Hbs Hk).
  assert (E : forall nb,
             binned_activity (append_zero_rows S k) bs nb =
             binned_activity S bs nb).
  { intros nb. unfold binned_activity.
    change (shape1 (append_zero_rows S k)) with (shape1 S).
    apply map_ext. intros i. apply map_ext. intros t. unfold B.
    rewrite (RelabelFacts.sum_upto_ext bs _
               (fun j => padded S (t * bs + j) i));
      [reflexivity|].
    intros j. now apply append_zero_rows_padded. }
  now rewrite E.
Qed.

Lemma cross_correlation_zero_rows_witness :
  Correlation.cross_correlation (PyFloat.literal 1 10)
    (append_zero_rows test_c_spikes 1) (PyFloat.literal 2 10) None "loop" =
  Correlation.cross_correlation (PyFloat.literal 1 10) test_c_spikes
    (PyFloat.literal 2 10) None "loop".
Proof.
  apply (cross_correlation_zero_rows (PyFloat.literal 1 10) test_c_spikes 1
           (PyFloat.literal 2 10) None "loop").
  - reflexivity.
  - intros b Hb. vm_compute in Hb. injection Hb as <-. vm_compute. lia.
Defined.

(** X5. Once the bins can be formed (a bin size [int(bin / dt)] of at
    least 1), a [method] other than ['loop'] and ['vmap'] makes
    [cross_correlation] raise [ValueError]. *)
Theorem cross_correlation_unsupported_method (environ_dt : PyFloat.float)
  (S : ndarray2) (bin : PyFloat.float) (dt : option PyFloat.float)
  (method : string) (b : Z) :
  wf_ndarray2 S = true ->
  Correlation.bin_size environ_dt bin dt = Ok b ->
  (1 <= b)%Z ->
  method <> "loop"%string -> method <> "vmap"%string ->
  Correlation.cross_correlation environ_dt S bin dt method =
  Raise ValueError.
Proof.
  intros Hwf Hdt Hbin Hl Hv. unfold Correlation.cross_correlation.
  rewrite (binned_states_pos _ _ _ _ _ Hwf Hdt Hbin). cbn [bind].
  apply String.eqb_neq in Hl, Hv. now rewrite Hl, Hv.
Qed.

Lemma cross_correlation_unsupported_method_witness :
  Correlation.cross_correlation (PyFloat.literal 1 10) test_c_spikes
    (PyFloat.of_int 1) None "scan" = Raise ValueError.
Proof.
  apply (cross_correlation_unsupported_method (PyFloat.literal 1 10)
           test_c_spikes (PyFloat.of_int 1) None "scan" 10).
  - reflexivity.
  - reflexivity.
  - lia.
  - discriminate.
  - discriminate.
Defined.

(** X6. With a time step of zero, or with a bin width whose quotient by
    the time step truncates to a bin size of 0, [cross_correlation] raises
    [ZeroDivisionError], whatever the matrix holds and even when [method]
    is not supported: the divisions come first. *)
Theorem cross_correlation_zero_division (environ_dt : PyFloat.float)
  (S : ndarray2) (bin : PyFloat.float) (dt : option PyFloat.float)
  (method : string) :
  (exists sg, time_step environ_dt dt = S754_zero sg) \/
  Correlation.bin_size environ_dt bin dt = Ok 0%Z ->
  Correlation.cross_correlation environ_dt S bin dt method =
  Raise ZeroDivisionError.
Proof.
  intros [[sg E0] | Hb].
  - unfold Correlation.cross_correlation, binned_states.
    now rewrite (bin_size_zero_step _ _ _ sg E0).
  - now apply cross_correlation_short_bin.
Qed.

Lemma cross_correlation_zero_division_witness :
  Correlation.cross_correlation (PyFloat.literal 1 10) test_c_spikes
    (PyFloat.of_int 1) (Some (PyFloat.of_int 0)) "scan" =
  Raise ZeroDivisionError /\
  Correlation.cross_correlation (PyFloat.literal 1 10) test_c_spikes
    (PyFloat.literal 5 100) None "scan" = Raise ZeroDivisionError.
Proof.
  split.
  - apply (cross_correlation_zero_division (PyFloat.literal 1 10)
             test_c_spikes (PyFloat.of_int 1) (Some (PyFloat.of_int 0))
             "scan").
    left. exists false. reflexivity.
  - apply (cross_correlation_zero_division (PyFloat.literal 1 10)
             test_c_spikes (PyFloat.literal 5 100) None "scan").
    right. reflexivity.
Defined.

End PaddingAndErrors.

(** ** [voltage_fluctuation] in every arithmetic *)

Module VoltageMore.

Import Correlation CorrelationSpec ListFacts.
Import Scalar VoltageFacts.

(** X7. On a potentials matrix without time steps or without neurons,
    [voltage_fluctuation] returns NaN; it does not raise. This holds in
    every arithmetic in which [0 / 0] is NaN and NaN propagates, exact or
    IEEE. *)
Theorem voltage_fluctuation_degenerate {F : Type} {O : Scalar.Ops F}
  {L : Scalar.NaNLaws F} (V : matrix F) (method : string) :
  wf_matrix V = true ->
  rows V = 0%nat \/ cols V = 0%nat ->
  method = "loop"%string \/ method = "vmap"%string ->
  Correlation.voltage_fluctuation V method = Ok nan.
Proof. exact (voltage_fluctuation_empty V method). Qed.

Lemma voltage_fluctuation_degenerate_witness :
  Correlation.voltage_fluctuation (O := binary32)
    {| rows := 0; cols := 3; entries := [] |} "loop" = Ok S754_nan /\
  Correlation.voltage_fluctuation (O := exact)
    {| rows := 2; cols := 0; entries := [[]; []] |} "vmap" = Ok nonfinite.
Proof.
  split.
  - apply (voltage_fluctuation_degenerate (O := binary32)
             (L := ieee_nan_laws 24 128)
             {| rows := 0; cols := 3; entries := [] |} "loop").
    + reflexivity.
    + left. reflexivity.
    + left. reflexivity.
  - apply (voltage_fluctuation_degenerate (O := exact)
             (L := exact_nan_laws)
             {| rows := 2; cols := 0; entries := [[]; []] |} "vmap").
    + reflexivity.
    + right. reflexivity.
    + right. reflexivity.
Defined.


(** X9. A [method] other than ['loop'] and ['vmap'] makes
    [voltage_fluctuation] raise [ValueError], whatever the matrix
    holds. *)
Theorem voltage_fluctuation_unsupported_method {F : Type}
  {O : Scalar.Ops F} (V : matrix F) (method : string) :
  method <> "loop"%string -> method <> "vmap"%string ->
  Correlation.voltage_fluctuation V method = Raise ValueError.
Proof. exact (voltage_fluctuation_unsupported V method). Qed.

Lemma voltage_fluctuation_unsupported_method_witness :
  Correlation.voltage_fluctuation (O := binary64)
    (full 3 3 (decimal binary64 1 10)) "scan" = Raise ValueError.
Proof.
  apply (voltage_fluctuation_unsupported_method (O := binary64)
           (full 3 3 (decimal binary64 1 10)) "scan"); discriminate.
Defined.

End VoltageMore.

(** ** [weighted_correlation]: symmetry, invariances, bounds, degenerate
    series *)

Module WeightedMore.

Import Correlation CorrelationSpec RealStatistics.
Import ListFacts NumFacts MeanFacts UniformWeightFacts.

Section Indexed.

Variable A : Type.
Variable l : list A.



Lemma Rsum_ext (f g : A -> R) :
  (forall a, In a l -> f a = g a) ->
  Rlist_sum (map f l) = Rlist_sum (map g l).
Proof. intros H. f_equal. now apply map_ext_in. Qed.



Variable w : A -> R.

(** The weighted mean of the code, when the weights do not sum to 0. *)
Lemma weighted_mean_real (f : A -> R) :
  Rlist_sum (map w l) <> 0 ->
  _weighted_mean (map (fun a => fin (f a)) l) (map (fun a => fin (w a)) l) =
  Ok (fin (wmean l w f)).
Proof.
  intros HW. unfold _weighted_mean.
  rewrite (multiply_same_length A l). cbn [bind].
  change (map (fun a => nmul (fin (f a)) (fin (w a))) l)
    with (map (fun a => fin (f a * w a)) l).
  rewrite !(sum_fin_map A l). unfold ndiv, fin, wmean.
  destruct (Req_dec_T _ 0); [contradiction | reflexivity].
Qed.

(** The weighted covariance of the code. *)
Lemma weighted_cov_real (f g : A -> R) :
  Rlist_sum (map w l) <> 0 ->
  _weighted_cov (map (fun a => fin (f a)) l) (map (fun a => fin (g a)) l)
                (map (fun a => fin (w a)) l) =
  Ok (fin (wcov l w f g)).
Proof.
  intros HW. unfold _weighted_cov. rewrite !weighted_mean_real by assumption.
  cbn [bind]. unfold jnp.sub_scalar. rewrite !map_map.
  rewrite (multiply_same_length A l). cbn [bind].
  rewrite (multiply_same_length A l). cbn [bind].
  change (map (fun a => nmul (nmul (fin (w a))
                                   (nsub (fin (f a)) (fin (wmean l w f))))
                             (nsub (fin (g a)) (fin (wmean l w g)))) l)
    with (map (fun a => fin (w a * (f a - wmean l w f) *
                             (g a - wmean l w g))) l).
  rewrite !(sum_fin_map A l). unfold ndiv, fin, wcov.
  destruct (Req_dec_T _ 0); [contradiction | reflexivity].
Qed.

Lemma ndiv_by_zero (a : num) : ndiv a (fin 0) = nonfinite.
Proof.
  destruct a as [x|]; [|reflexivity]. unfold ndiv, fin.
  destruct (Req_dec_T 0 0); [reflexivity | contradiction].
Qed.

(** With weights that sum to 0 every covariance is not a number. *)
Lemma weighted_cov_zero_weight (f g : A -> R) :
  Rlist_sum (map w l) = 0 ->
  _weighted_cov (map (fun a => fin (f a)) l) (map (fun a => fin (g a)) l)
                (map (fun a => fin (w a)) l) =
  Ok nonfinite.
Proof.
  intros HW. unfold _weighted_cov, _weighted_mean.
  rewrite !(multiply_same_length A l). cbn [bind].
  rewrite !(sum_fin_map A l w), HW, !ndiv_by_zero. cbn [bind].
  unfold jnp.sub_scalar. rewrite !map_map.
  rewrite (multiply_same_length A l). cbn [bind].
  rewrite (multiply_same_length A l). cbn [bind].
  now rewrite ndiv_by_zero.
Qed.

Lemma weighted_correlation_real (f g : A -> R) :
  Rlist_sum (map w l) <> 0 ->
  weighted_correlation (array1 (map f l)) (array1 (map g l))
                       (array1 (map w l)) =
  Ok (ndiv (fin (wcov l w f g))
           (jnp.sqrt (fin (wcov l w f f * wcov l w g g)))).
Proof.
  intros HW. unfold weighted_correlation, array1, ndim.
  cbn [shape data length Nat.eqb negb]. rewrite !map_map.
  rewrite !weighted_cov_real by assumption. reflexivity.
Qed.

Lemma weighted_correlation_zero_weight (f g : A -> R) :
  Rlist_sum (map w l) = 0 ->
  weighted_correlation (array1 (map f l)) (array1 (map g l))
                       (array1 (map w l)) =
  Ok nonfinite.
Proof.
  intros HW. unfold weighted_correlation, array1, ndim.
  cbn [shape data length Nat.eqb negb]. rewrite !map_map.
  rewrite !weighted_cov_zero_weight by assumption. reflexivity.
Qed.

Lemma wcov_sym (f g : A -> R) : wcov l w f g = wcov l w g f.
Proof.
  unfold wcov. f_equal. apply Rsum_ext. intros a _. ring.
Qed.

End Indexed.

(** Three series of one length are three readings of one index list. *)
Lemma as_indexed (x y w : list R) :
  length x = length y -> length y = length w ->
  exists (l : list (R * (R * R))),
    x = map fst l /\
    y = map (fun p => fst (snd p)) l /\
    w = map (fun p => snd (snd p)) l.
Proof.
  intros Hxy Hyw. exists (combine x (combine y w)).
  assert (Hlen : length x = length (combine y w)).
  { rewrite length_combine, <- Hyw, Nat.min_id. exact Hxy. }
  split; [now rewrite map_fst_combine|].
  rewrite <- !(map_map snd).
  rewrite (map_snd_combine x (combine y w) Hlen).
  split; [now rewrite map_fst_combine | now rewrite map_snd_combine].
Qed.

(** X12. For three 1D vectors of one length, [weighted_correlation] is
    symmetric in its two data series. *)
Theorem weighted_correlation_symmetric (x y w : list R) :
  length x = length y -> length y = length w ->
  weighted_correlation (array1 x) (array1 y) (array1 w) =
  weighted_correlation (array1 y) (array1 x) (array1 w).
Proof.
  intros Hxy Hyw.
  destruct (as_indexed x y w Hxy Hyw) as (l & -> & -> & ->).
  destruct (Req_dec_T (Rlist_sum (map (fun p => snd (snd p)) l)) 0)
    as [HW|HW].
  - now rewrite !weighted_correlation_zero_weight.
  - rewrite !weighted_correlation_real by assumption.
    rewrite (wcov_sym _ l _ fst), (Rmult_comm (wcov _ _ fst fst)).
    reflexivity.
Qed.

Lemma weighted_correlation_symmetric_witness :
  weighted_correlation (array1 [1; 2; 3]) (array1 [2; 4; 7])
                       (array1 [1; 2; 1]) =
  weighted_correlation (array1 [2; 4; 7]) (array1 [1; 2; 3])
                       (array1 [1; 2; 1]).
Proof.
  apply (weighted_correlation_symmetric [1; 2; 3] [2; 4; 7] [1; 2; 1]);
    reflexivity.
Defined.

End WeightedMore.

Module WeightedInvariance.

Import Correlation CorrelationSpec RealStatistics.
Import ListFacts NumFacts MeanFacts UniformWeightFacts WeightedMore.

Section Indexed.

Variable A : Type.
Variable l : list A.
Variable w : A -> R.











End Indexed.












(** X17. For three 1D vectors of which two have different lengths,
    neither of them 1, [weighted_correlation] raises the shape error of
    the element-wise product: it has no length check of its own. *)
Theorem weighted_correlation_incompatible (x y w : ndarray) :
  ndim x = 1%nat -> ndim y = 1%nat -> ndim w = 1%nat ->
  (length (data x) <> length (data w) /\
   length (data x) <> 1%nat /\ length (data w) <> 1%nat) \/
  (length (data y) <> length (data w) /\
   length (data y) <> 1%nat /\ length (data w) <> 1%nat) \/
  (length (data x) <> length (data y) /\
   length (data x) <> 1%nat /\ length (data y) <> 1%nat) ->
  weighted_correlation x y w = Raise ShapeError.
Proof.
  intros Hx Hy Hw H.
  pose proof (BroadcastFacts.weighted_correlation_lengths x y w Hx Hy Hw)
    as Hl.
  assert (E : all_compatible (length (data x)) (length (data y))
                (length (data w)) = false).
  { apply BroadcastFacts.all_compatible_false_iff.
    rewrite !BroadcastFacts.compatible_false_iff. exact H. }
  now rewrite E in Hl.
Qed.

Lemma weighted_correlation_incompatible_witness :
  weighted_correlation (array1 [1; 2; 3]) (array1 [2; 4; 7]) (array1 [1; 1]) =
  Raise ShapeError.
Proof.
  apply (weighted_correlation_incompatible
           (array1 [1; 2; 3]) (array1 [2; 4; 7]) (array1 [1; 1]));
    try reflexivity.
  left. cbn. repeat split; lia.
Defined.

End WeightedInvariance.

(** ** Schedulers: counters, constructors and rules *)

Module LrSchedulerMore.

Import LrScheduler LrSchedulerInit LrSchedulerFacts.

Lemma wrap_in_range (b z : Z) :
  (- 2 ^ (b - 1) <= z < 2 ^ (b - 1))%Z -> wrap b z = z.
Proof.
  intros H. unfold wrap.
  assert (Hb : (1 <= b)%Z).
  { destruct (Z_lt_le_dec b 1) as [Hlt|]; [|assumption].
    rewrite (Z.pow_neg_r 2 (b - 1)) in H by lia. lia. }
  assert (E : (2 ^ b = 2 * 2 ^ (b - 1))%Z).
  { rewrite <- Z.pow_succ_r by lia. f_equal. lia. }
  rewrite Z.mod_small by lia. lia.
Qed.

Section Generic.

Context {float : Type} {ops : FloatOps float}.

(** [n] calls of [step_epoch] without overflow. *)
Lemma times_step_epoch (n : nat) (s : state float) :
  (- 2 ^ (bits (last_epoch s) - 1) <= val (last_epoch s))%Z ->
  (val (last_epoch s) + Z.of_nat n < 2 ^ (bits (last_epoch s) - 1))%Z ->
  times n step_epoch s =
  Ok (tt, {| lr := lr s;
             last_epoch := {| bits := bits (last_epoch s);
                              val := val (last_epoch s) + Z.of_nat n |};
             last_call := last_call s |}).
Proof.
  revert s. induction n as [|n IH]; intros s Hlo Hhi.
  - cbn [times]. unfold ret. rewrite Z.add_0_r.
    destruct s as [l [b v] c]. reflexivity.
  - cbn [times]. unfold mbind at 1.
    unfold step_epoch, mbind, get_last_epoch, set_last_epoch.
    rewrite IH; cbn [last_epoch lr last_call int_succ bits val].
    + rewrite wrap_in_range by lia. do 4 f_equal. lia.
    + rewrite wrap_in_range by lia. lia.
    + rewrite wrap_in_range by lia. lia.
Qed.

Lemma step_call_once (k : kind float) (s : state float) (c : int_scalar) :
  call_based k = true ->
  last_call s = Some c ->
  step_call k s =
  Ok (tt, {| lr := lr s; last_epoch := last_epoch s;
             last_call := Some (int_succ c) |}).
Proof.
  intros Hk Hc. unfold step_call. rewrite Hk.
  unfold CallBasedLRScheduler_step_call, mbind, get_last_call,
    set_last_call.
  now rewrite Hc.
Qed.

Lemma times_step_call (n : nat) (k : kind float) (s : state float)
  (c : int_scalar) :
  call_based k = true ->
  last_call s = Some c ->
  (- 2 ^ (bits c - 1) <= val c)%Z ->
  (val c + Z.of_nat n < 2 ^ (bits c - 1))%Z ->
  times n (step_call k) s =
  Ok (tt, {| lr := lr s;
             last_epoch := last_epoch s;
             last_call := Some {| bits := bits c;
                                  val := val c + Z.of_nat n |} |}).
Proof.
  intros Hk. revert s c. induction n as [|n IH]; intros s c Hc Hlo Hhi.
  - cbn [times]. unfold ret. rewrite Z.add_0_r.
    destruct s as [l e c']. cbn in Hc. subst c'. destruct c. reflexivity.
  - cbn [times]. unfold mbind.
    rewrite (step_call_once k s c Hk Hc).
    rewrite (IH _ (int_succ c));
      cbn [last_epoch lr last_call int_succ bits val];
      rewrite ?wrap_in_range by lia; try reflexivity; try lia.
    do 5 f_equal. lia.
Qed.

(** A call without a step is the call at the evaluated step, when the
    Python arithmetic on that explicit step agrees with the array
    arithmetic. *)
Lemma call_default_step (k : kind float) (s : state float) (j : Z) :
  evaluated_step k None s = Some j ->
  python_agrees k j ->
  call k None s = call k (Some j) s.
Proof.
  unfold evaluated_step. intros Hstep Hpy.
  destruct k; cbn [call_based] in Hstep; cbn [python_agrees] in Hpy;
    unfold_call;
    repeat match goal with
    | H : context [last_call ?x] |- _ => destruct (last_call x)
    end;
    cbn [option_map] in Hstep; try discriminate Hstep;
    try (injection Hstep as Hstep);
    cbn [int_succ val step_val] in *; rewrite ?Hstep;
    repeat match goal with
    | H : _ /\ _ |- _ => destruct H
    | H : is_zero _ = false |- _ => rewrite H; clear H
    | H : f_py_pow _ _ = Ok _ |- _ => rewrite H; clear H
    | b : bool |- _ => destruct b
    end;
    reflexivity.
Qed.

End Generic.

(** X19. After [n] calls of [step_epoch] that do not overflow the
    counter, [last_epoch] has grown by [n], [lr] and [last_call] are as
    before, and a call without a step of an epoch-based scheduler returns
    what a call with the explicit step [last_epoch + n + 1] returned
    before, provided the Python arithmetic on that explicit step agrees
    with the array arithmetic: [T_max] is not 0 for [CosineAnnealingLR]
    and [gamma ** step] does not raise for [ExponentialLR]; the other
    classes need nothing. *)
Theorem step_epoch_advances {float : Type} {ops : FloatOps float}
  (k : kind float) (n : nat) (s : state float) :
  epoch_based k = true ->
  (- 2 ^ (bits (last_epoch s) - 1) <= val (last_epoch s))%Z ->
  (val (last_epoch s) + Z.of_nat n + 1 < 2 ^ (bits (last_epoch s) - 1))%Z ->
  python_agrees k (val (last_epoch s) + Z.of_nat n + 1) ->
  exists s',
    times n step_epoch s = Ok (tt, s') /\
    val (last_epoch s') = (val (last_epoch s) + Z.of_nat n)%Z /\
    lr s' = lr s /\ last_call s' = last_call s /\
    outcome (call k None s') =
    outcome (call k (Some (val (last_epoch s) + Z.of_nat n + 1)%Z) s).
Proof.
  intros Hk Hlo Hhi Hpy.
  eexists. split; [apply times_step_epoch; lia|].
  cbn [last_epoch lr last_call val]. repeat split.
  assert (Hcb : call_based k = false)
    by (destruct k; try discriminate Hk; reflexivity).
  rewrite (call_default_step k _ (val (last_epoch s) + Z.of_nat n + 1)).
  - apply call_depends_on_step; reflexivity.
  - unfold evaluated_step. rewrite Hcb. cbn [last_epoch int_succ val bits].
    now rewrite wrap_in_range by lia.
  - exact Hpy.
Qed.

Lemma step_epoch_advances_witness :
  exists s',
    times 25 step_epoch (fresh_epoch_state 1) = Ok (tt, s') /\
    val (last_epoch s') = (val (last_epoch (fresh_epoch_state 1)) + 25)%Z /\
    lr s' = lr (fresh_epoch_state 1) /\
    last_call s' = last_call (fresh_epoch_state 1) /\
    outcome (call (StepLR 10 0.5) None s') =
    outcome (call (StepLR 10 0.5)
                  (Some (val (last_epoch (fresh_epoch_state 1)) + 25 + 1)%Z)
                  (fresh_epoch_state 1)).
Proof.
  apply (step_epoch_advances (StepLR 10 0.5) 25 (fresh_epoch_state 1)).
  - reflexivity.
  - cbn. lia.
  - cbn. lia.
  - exact I.
Defined.

(** X20. After [n] calls of [step_call] on a call-based scheduler that do
    not overflow the counter, [last_call] has grown by [n], [lr] and
    [last_epoch] are as before, and a call without a step returns what a
    call with the explicit step [last_call + n + 1] returned before,
    provided the Python arithmetic on that explicit step agrees with the
    array arithmetic: the divisor ([decay_steps], [num_call_per_epoch]) is
    not 0 and [decay_rate ** (step / decay_steps)] does not raise. With a
    divisor of 0 the two calls differ: the explicit one raises. *)
Theorem step_call_advances {float : Type} {ops : FloatOps float}
  (k : kind float) (n : nat) (s : state float) (c : int_scalar) :
  call_based k = true ->
  last_call s = Some c ->
  (- 2 ^ (bits c - 1) <= val c)%Z ->
  (val c + Z.of_nat n + 1 < 2 ^ (bits c - 1))%Z ->
  python_agrees k (val c + Z.of_nat n + 1) ->
  exists s',
    times n (step_call k) s = Ok (tt, s') /\
    last_call s' = Some {| bits := bits c; val := val c + Z.of_nat n |} /\
    lr s' = lr s /\ last_epoch s' = last_epoch s /\
    outcome (call k None s') =
    outcome (call k (Some (val c + Z.of_nat n + 1)%Z) s).
Proof.
  intros Hk Hc Hlo Hhi Hpy.
  eexists. split; [apply (times_step_call n k s c); (assumption || lia)|].
  cbn [last_epoch lr last_call val]. repeat split.
  rewrite (call_default_step k _ (val c + Z.of_nat n + 1)).
  - apply call_depends_on_step; reflexivity.
  - unfold evaluated_step. rewrite Hk.
    cbn [last_call option_map int_succ val bits].
    now rewrite wrap_in_range by lia.
  - exact Hpy.
Qed.

Lemma step_call_advances_witness :
  exists s',
    times 15 (step_call (PiecewiseConstantLR [10; 20]%Z [0.1; 0.01; 0.001]))
      (fresh_call_state 0) = Ok (tt, s') /\
    last_call s' = Some {| bits := 32; val := -1 + 15 |} /\
    lr s' = lr (fresh_call_state 0) /\
    last_epoch s' = last_epoch (fresh_call_state 0) /\
    outcome (call (PiecewiseConstantLR [10; 20]%Z [0.1; 0.01; 0.001]) None s')
    = outcome (call (PiecewiseConstantLR [10; 20]%Z [0.1; 0.01; 0.001])
                 (Some (-1 + 15 + 1)%Z) (fresh_call_state 0)).
Proof.
  apply (step_call_advances
           (PiecewiseConstantLR [10; 20]%Z [0.1; 0.01; 0.001]) 15
           (fresh_call_state 0) {| bits := 32; val := -1 |}).
  - reflexivity.
  - reflexivity.
  - cbn. lia.
  - cbn. lia.
  - exact I.
Defined.




(** X21. Advancing the epoch never changes what a call-based scheduler
    returns: after [step_epoch], a call, with or without a step, has the
    outcome it had before. *)
Theorem step_epoch_ignored_by_call_based {float : Type}
  {ops : FloatOps float} (k : kind float) (i : option Z) (s : state float) :
  call_based k = true ->
  exists s',
    step_epoch s = Ok (tt, s') /\
    last_call s' = last_call s /\
    outcome (call k i s') = outcome (call k i s).
Proof.
  intros Hk. eexists. split; [reflexivity|].
  split; [reflexivity|].
  apply call_depends_on_step; [reflexivity|].
  unfold evaluated_step. now rewrite Hk.
Qed.

Lemma step_epoch_ignored_by_call_based_witness :
  exists s',
    step_epoch (fresh_call_state 0) = Ok (tt, s') /\
    last_call s' = last_call (fresh_call_state 0) /\
    outcome (call (ExponentialDecayLR 100 0.5) None s') =
    outcome (call (ExponentialDecayLR 100 0.5) None (fresh_call_state 0)).
Proof.
  apply (step_epoch_ignored_by_call_based (ExponentialDecayLR 100 0.5) None
           (fresh_call_state 0)).
  reflexivity.
Defined.

(** X22. At the largest value of its integer type the epoch counter wraps
    around: [step_epoch] then stores the smallest value of the type,
    which is below the -1 the constructor accepts. *)
Theorem step_epoch_wraps {float : Type} {ops : FloatOps float}
  (s : state float) :
  (2 <= bits (last_epoch s))%Z ->
  val (last_epoch s) = (2 ^ (bits (last_epoch s) - 1) - 1)%Z ->
  exists s',
    step_epoch s = Ok (tt, s') /\
    val (last_epoch s') = (- 2 ^ (bits (last_epoch s) - 1))%Z /\
    (val (last_epoch s') < -1)%Z.
Proof.
  intros Hb Hv. eexists. split; [reflexivity|].
  cbn [last_epoch int_succ val bits]. rewrite Hv. unfold wrap.
  set (b := bits (last_epoch s)) in *.
  assert (E : (2 ^ b = 2 * 2 ^ (b - 1))%Z).
  { rewrite <- Z.pow_succ_r by lia. f_equal. lia. }
  assert (Hp : (2 <= 2 ^ (b - 1))%Z).
  { change 2%Z with (2 ^ 1)%Z at 1. apply Z.pow_le_mono_r; lia. }
  replace (2 ^ (b - 1) - 1 + 1 + 2 ^ (b - 1))%Z with (2 ^ b)%Z by lia.
  rewrite Z.mod_same by lia. lia.
Qed.

Lemma step_epoch_wraps_witness :
  exists s',
    step_epoch {| lr := 1; last_epoch := {| bits := 32; val := 2147483647 |};
                  last_call := None |} = Ok (tt, s') /\
    val (last_epoch s') = (- 2 ^ (32 - 1))%Z /\
    (val (last_epoch s') < -1)%Z.
Proof.
  apply (step_epoch_wraps
           {| lr := 1; last_epoch := {| bits := 32; val := 2147483647 |};
              last_call := None |}).
  - cbn. lia.
  - reflexivity.
Defined.

End LrSchedulerMore.

Module ConstructedSchedulers.

Import LrScheduler LrSchedulerInit LrSchedulerFacts LrSchedulerMore.

(** The conditions [MultiStepLR.__call__] tests, for the stored array
    [lo :: ms ++ [int32_max]]. *)
Lemma conditions_unfold (i lo : Z) (ms : list Z) :
  logical_and
    (map (fun m => (m <=? i)%Z) (removelast (lo :: ms ++ [int32_max])))
    (map (fun m => (i <? m)%Z) (tl (lo :: ms ++ [int32_max]))) =
  logical_and (map (fun m => (m <=? i)%Z) (lo :: ms))
              (map (fun m => (i <? m)%Z) (ms ++ [int32_max])).
Proof.
  change (lo :: ms ++ [int32_max]) with ((lo :: ms) ++ [int32_max]) at 1.
  rewrite removelast_last. reflexivity.
Qed.

Lemma increasing_above (m : Z) (ms : list Z) :
  increasing (m :: ms) = true -> Forall (fun x => (m < x)%Z) ms.
Proof.
  revert m. induction ms as [|a ms IH]; intros m H; [constructor|].
  cbn [increasing] in H. apply andb_prop in H as [Hlt Hinc].
  apply Z.ltb_lt in Hlt. constructor; [assumption|].
  specialize (IH a Hinc). eapply Forall_impl; [|exact IH].
  cbv beta. intros x Hx. lia.
Qed.

Lemma count_reached_none (i : Z) (ms : list Z) :
  Forall (fun x => (i < x)%Z) ms -> count_reached i ms = 0%Z.
Proof.
  intros H. unfold count_reached.
  induction H as [|x ms Hx _ IH]; [reflexivity|].
  cbn [filter]. destruct (Z.leb_spec x i); [lia | exact IH].
Qed.

Lemma count_reached_cons (i m : Z) (ms : list Z) :
  (m <= i)%Z -> count_reached i (m :: ms) = (1 + count_reached i ms)%Z.
Proof.
  intros H. unfold count_reached. cbn [filter].
  destruct (Z.leb_spec m i); [|lia]. cbn [length]. lia.
Qed.

(** Below the lower end of every interval no condition holds. *)
Lemma conditions_none (i : Z) (l1 l2 : list Z) :
  Forall (fun x => (i < x)%Z) l1 ->
  existsb (fun b => b)
    (logical_and (map (fun m => (m <=? i)%Z) l1)
                 (map (fun m => (i <? m)%Z) l2)) = false.
Proof.
  revert l2. induction l1 as [|a l1 IH1]; intros l2 Hf; [reflexivity|].
  destruct l2 as [|b l2]; [reflexivity|].
  inversion Hf; subst. cbn [map logical_and existsb].
  destruct (Z.leb_spec a i); [lia|]. cbn [andb orb]. now apply IH1.
Qed.

(** From the lower end of the first interval on, the index of the first
    condition that holds is the count of milestones reached. *)
Lemma conditions_reached (i lo : Z) (ms : list Z) :
  increasing (lo :: ms) = true -> (lo <= i)%Z -> (i < int32_max)%Z ->
  let c := logical_and (map (fun m => (m <=? i)%Z) (lo :: ms))
                       (map (fun m => (i <? m)%Z) (ms ++ [int32_max])) in
  existsb (fun b => b) c = true /\ argmax c = count_reached i ms.
Proof.
  revert lo. induction ms as [|m ms IH]; intros lo Hinc Hlo Hmax.
  - cbn. destruct (Z.leb_spec lo i); [|lia].
    destruct (Z.ltb_spec i int32_max); [|lia]. cbn. split; reflexivity.
  - cbn [increasing] in Hinc. apply andb_prop in Hinc as [Hlt Hinc].
    apply Z.ltb_lt in Hlt.
    cbv zeta.
    change (logical_and (map (fun m0 => (m0 <=? i)%Z) (lo :: m :: ms))
              (map (fun m0 => (i <? m0)%Z) ((m :: ms) ++ [int32_max])))
      with (((lo <=? i)%Z && (i <? m)%Z) ::
            logical_and (map (fun m0 => (m0 <=? i)%Z) (m :: ms))
              (map (fun m0 => (i <? m0)%Z) (ms ++ [int32_max]))).
    cbn [argmax existsb].
    destruct (Z.leb_spec lo i); [|lia]. cbn [andb].
    destruct (Z.ltb_spec i m) as [Him|Him].
    + cbn [orb]. split; [reflexivity|].
      symmetry. apply count_reached_none. constructor; [assumption|].
      eapply Forall_impl; [|exact (increasing_above m ms Hinc)].
      cbv beta. intros x Hx. lia.
    + destruct (IH m Hinc Him Hmax) as [Hex Harg].
      cbn [orb]. rewrite Hex. split; [reflexivity|].
      rewrite Harg. symmetry. now apply count_reached_cons.
Qed.

Lemma multistep_index (i : Z) (ms : list Z) :
  increasing ms = true -> (i < int32_max)%Z ->
  argmax (logical_and
            (map (fun m => (m <=? i)%Z)
                 (removelast ((-1)%Z :: ms ++ [int32_max])))
            (map (fun m => (i <? m)%Z) (tl ((-1)%Z :: ms ++ [int32_max])))) =
  count_reached i ms.
Proof.
  intros Hinc Hmax. rewrite conditions_unfold.
  destruct ms as [|m ms].
  - cbn. destruct (Z.leb_spec (-1) i); cbn; [|reflexivity].
    destruct (Z.ltb_spec i int32_max); reflexivity.
  - change (logical_and (map (fun m0 => (m0 <=? i)%Z) ((-1)%Z :: m :: ms))
              (map (fun m0 => (i <? m0)%Z) ((m :: ms) ++ [int32_max])))
      with (((-1 <=? i)%Z && (i <? m)%Z) ::
            logical_and (map (fun m0 => (m0 <=? i)%Z) (m :: ms))
              (map (fun m0 => (i <? m0)%Z) (ms ++ [int32_max]))).
    cbn [argmax].
    destruct (Z.ltb_spec i m) as [Him|Him].
    + assert (Hnone : Forall (fun x => (i < x)%Z) (m :: ms)).
      { constructor; [assumption|].
        eapply Forall_impl; [|exact (increasing_above m ms Hinc)].
        cbv beta. intros x Hx. lia. }
      rewrite (count_reached_none i (m :: ms) Hnone).
      destruct ((-1 <=? i)%Z); cbn [andb]; [reflexivity|].
      rewrite (conditions_none i (m :: ms) (ms ++ [int32_max]) Hnone).
      reflexivity.
    + rewrite andb_false_r.
      destruct (conditions_reached i m ms Hinc Him Hmax) as [Hex Harg].
      rewrite Hex, Harg.
      symmetry. now apply count_reached_cons.
Qed.

Lemma count_below_none (j : Z) (boundaries : list Z) :
  Forall (fun m => (j <= m)%Z) boundaries -> count_below j boundaries = 0%nat.
Proof.
  intros Hj. unfold count_below.
  induction Hj as [|m l Hm _ IH]; [reflexivity|].
  cbn [filter]. destruct (Z.ltb_spec m j); [lia | exact IH].
Qed.

Lemma count_below_all (j : Z) (boundaries : list Z) :
  Forall (fun m => (m < j)%Z) boundaries ->
  count_below j boundaries = length boundaries.
Proof.
  intros Hj. unfold count_below.
  induction Hj as [|m l Hm _ IH]; [reflexivity|].
  cbn [filter]. destruct (Z.ltb_spec m j); [|lia]. cbn [length].
  now rewrite IH.
Qed.

Section Generic.

Context {float : Type} {ops : FloatOps float}.

Lemma multistep_init_inv (ditype : Z) (lr0 : float) (ms : list Z)
  (gamma : float) (last_epoch : Z) (k : kind float) (s : state float) :
  MultiStepLR_init ditype lr0 ms gamma last_epoch = Ok (k, s) ->
  ms <> [] /\ increasing ms = true /\
  k = MultiStepLR ((-1)%Z :: ms ++ [int32_max]) gamma /\
  lr s = lr0 /\ LearningRateScheduler_init ditype lr0 last_epoch = Ok s.
Proof.
  unfold MultiStepLR_init. intros H.
  destruct (LearningRateScheduler_init ditype lr0 last_epoch) as [s0|e] eqn:E0;
    [|discriminate].
  cbn [bind] in H.
  destruct (0 <? length ms)%nat eqn:Elen; [|discriminate]. cbn [negb] in H.
  destruct (increasing ms) eqn:Einc; [|discriminate]. cbn [negb] in H.
  destruct (f_ge (of_int 1) gamma && f_ge gamma (of_int 0)); [|discriminate].
  cbn [negb] in H.
  unfold as_ints in H.
  destruct (forallb _ _); [|discriminate]. cbn [bind] in H.
  injection H as <- <-.
  split; [intros ->; discriminate|]. split; [reflexivity|].
  split; [reflexivity|]. split; [|reflexivity].
  unfold LearningRateScheduler_init in E0.
  destruct (negb _); [discriminate|].
  destruct (as_int ditype last_epoch); [|discriminate].
  cbn [bind] in E0. now injection E0 as <-.
Qed.

End Generic.

(** X23. A [MultiStepLR] scheduler that its constructor accepted returns,
    at every step [i] below the largest 32-bit integer, the base rate times
    [gamma] to the power of the count of milestones at or below [i], and
    leaves its state as it was. *)
Theorem multistep_counts_milestones {float : Type} {ops : FloatOps float}
  (ditype : Z) (lr0 : float) (ms : list Z) (gamma : float) (last_epoch : Z)
  (k : kind float) (s : state float) (i : Z) :
  MultiStepLR_init ditype lr0 ms gamma last_epoch = Ok (k, s) ->
  (i < int32_max)%Z ->
  call k (Some i) s =
  Ok (f_mul lr0 (f_pow gamma (of_int (count_reached i ms))), s).
Proof.
  intros Hinit Hi.
  destruct (multistep_init_inv _ _ _ _ _ _ _ Hinit)
    as (_ & Hinc & -> & Hlr & _).
  cbn [call]. unfold MultiStepLR_call, epoch_step, mbind, ret, get_lr.
  cbn [step_val].
  rewrite (multistep_index i ms Hinc Hi), Hlr. reflexivity.
Qed.

(** X24. The constructor of [MultiStepLR] raises [AssertionError] for an
    empty sequence of milestones and for milestones that are not strictly
    increasing, as soon as the base rate and [last_epoch] are accepted. *)
Theorem multistep_rejects_milestones {float : Type} {ops : FloatOps float}
  (ditype : Z) (lr0 : float) (ms : list Z) (gamma : float) (last_epoch : Z)
  (s0 : state float) :
  LearningRateScheduler_init ditype lr0 last_epoch = Ok s0 ->
  ms = [] \/ increasing ms = false ->
  MultiStepLR_init ditype lr0 ms gamma last_epoch = Raise AssertionError.
Proof.
  intros H0 H. unfold MultiStepLR_init. rewrite H0. cbn [bind].
  destruct H as [-> | H]; [reflexivity|].
  destruct (0 <? length ms)%nat; cbn [negb]; [|reflexivity].
  now rewrite H.
Qed.

Lemma multistep_rejects_milestones_witness :
  MultiStepLR_init 32 1 [5; 3]%Z 0.1 (-1) = Raise AssertionError.
Proof.
  apply (multistep_rejects_milestones 32 1 [5; 3]%Z 0.1 (-1)
           (fresh_epoch_state 1)).
  - reflexivity.
  - right. reflexivity.
Defined.

Lemma multistep_init_example :
  MultiStepLR_init 32 1 [5; 8]%Z 0.1 (-1) =
  Ok (MultiStepLR [-1; 5; 8; 2147483647]%Z 0.1, fresh_epoch_state 1).
Proof.
  unfold MultiStepLR_init. cbn [LearningRateScheduler_init].
  change (LearningRateScheduler_init 32 1 (-1))
    with (Ok (fresh_epoch_state 1)).
  cbn [bind length Nat.ltb Nat.leb negb increasing Z.ltb Z.compare
       Pos.compare Pos.compare_cont andb].
  unfold f_ge, real_ops, of_int.
  destruct (Rle_dec 0.1 1) as [_|H]; [|exfalso; apply H; lra].
  destruct (Rle_dec 0 0.1) as [_|H]; [|exfalso; apply H; lra].
  reflexivity.
Qed.

Lemma multistep_counts_milestones_witness :
  call (MultiStepLR [-1; 5; 8; 2147483647]%Z 0.1) (Some 6%Z)
       (fresh_epoch_state 1) =
  Ok (f_mul 1 (f_pow 0.1 (of_int (count_reached 6 [5; 8]%Z))),
      fresh_epoch_state 1).
Proof.
  apply (multistep_counts_milestones 32 1 [5; 8]%Z 0.1 (-1)
           (MultiStepLR [-1; 5; 8; 2147483647]%Z 0.1)
           (fresh_epoch_state 1) 6).
  - exact multistep_init_example.
  - reflexivity.
Defined.

(** X25. A [PiecewiseConstantLR] scheduler that its constructor accepted
    returns, at every step and also without a step, one of its values and
    leaves its state as it was; at a step not above any boundary it
    returns the first value, and at a step above every boundary the
    last. *)
Theorem piecewise_returns_a_value {float : Type} {ops : FloatOps float}
  (ditype : Z) (boundaries : list Z) (values : list float)
  (last_epoch last_call : Z) (k : kind float) (s : state float) :
  PiecewiseConstantLR_init ditype boundaries values last_epoch last_call =
  Ok (k, s) ->
  (forall i : option Z, exists x, call k i s = Ok (x, s) /\ In x values) /\
  (forall j, Forall (fun m => (j <= m)%Z) boundaries ->
     exists x, nth_error values 0 = Some x /\ call k (Some j) s = Ok (x, s)) /\
  (forall j, Forall (fun m => (m < j)%Z) boundaries ->
     exists x, nth_error values (length boundaries) = Some x /\
               call k (Some j) s = Ok (x, s)).
Proof.
  unfold PiecewiseConstantLR_init. intros H.
  destruct (CallBasedLRScheduler_init ditype (of_int 0) last_epoch last_call)
    as [s0|e] eqn:E0; [|discriminate].
  cbn [bind] in H.
  destruct (Z.eqb_spec (Z.of_nat (length boundaries))
              (Z.of_nat (length values) - 1)) as [Hlen|Hlen];
    [|discriminate].
  cbn [negb] in H. injection H as <- <-.
  assert (Hlen' : (length boundaries + 1 = length values)%nat) by lia.
  assert (Hc : exists c, LrScheduler.last_call s0 = Some c).
  { unfold CallBasedLRScheduler_init in E0.
    destruct (LearningRateScheduler_init _ _ _) as [s1|]; [|discriminate].
    cbn [bind] in E0. destruct (negb _); [discriminate|].
    destruct (as_int ditype last_call) as [c|]; [|discriminate].
    cbn [bind] in E0. destruct s1. injection E0 as <-. now exists c. }
  destruct Hc as [c Hc].
  split; [|split].
  - intros [i|].
    + destruct (piecewise_call boundaries values s0 i Hlen')
        as [x [Hx Hcall]].
      exists x. split; [assumption|]. eapply nth_error_In, Hx.
    + rewrite (call_default_step _ s0 (val (int_succ c)))
        by (try exact I; unfold evaluated_step; cbn [call_based];
            now rewrite Hc).
      destruct (piecewise_call boundaries values s0 (val (int_succ c)) Hlen')
        as [x [Hx Hcall]].
      exists x. split; [assumption|]. eapply nth_error_In, Hx.
  - intros j Hj.
    destruct (piecewise_call boundaries values s0 j Hlen') as [x [Hx Hcall]].
    exists x. split; [|assumption].
    now rewrite (count_below_none j boundaries Hj) in Hx.
  - intros j Hj.
    destruct (piecewise_call boundaries values s0 j Hlen') as [x [Hx Hcall]].
    exists x. split; [|assumption].
    now rewrite (count_below_all j boundaries Hj) in Hx.
Qed.

Lemma piecewise_returns_a_value_witness :
  (forall i : option Z,
     exists x,
       call (PiecewiseConstantLR [10; 20]%Z [0.1; 0.01; 0.001]) i
            (fresh_call_state 0) = Ok (x, fresh_call_state 0) /\
       In x [0.1; 0.01; 0.001]) /\
  (forall j, Forall (fun m => (j <= m)%Z) [10; 20]%Z ->
     exists x, nth_error [0.1; 0.01; 0.001] 0 = Some x /\
               call (PiecewiseConstantLR [10; 20]%Z [0.1; 0.01; 0.001])
                    (Some j) (fresh_call_state 0) =
               Ok (x, fresh_call_state 0)) /\
  (forall j, Forall (fun m => (m < j)%Z) [10; 20]%Z ->
     exists x, nth_error [0.1; 0.01; 0.001] (length [10; 20]%Z) = Some x /\
               call (PiecewiseConstantLR [10; 20]%Z [0.1; 0.01; 0.001])
                    (Some j) (fresh_call_state 0) =
               Ok (x, fresh_call_state 0)).
Proof.
  apply (piecewise_returns_a_value 32 [10; 20]%Z [0.1; 0.01; 0.001]
           (-1) (-1)).
  reflexivity.
Defined.

End ConstructedSchedulers.

(** ** The schedules in exact real arithmetic *)

Module ScheduleRules.

Import LrScheduler LrSchedulerInit LrSchedulerFacts LrSchedulerMore.

Lemma IZR_pos (z : Z) : (1 <= z)%Z -> 0 < IZR z.
Proof. intros H. apply (IZR_lt 0). lia. Qed.

(** The floor of a quotient of integers is their floor division. *)
Lemma Int_part_quotient (i n : Z) :
  (1 <= n)%Z -> Int_part (IZR i / IZR n) = (i / n)%Z.
Proof.
  intros Hn. symmetry. apply Int_part_spec.
  pose proof (IZR_pos n Hn) as Hpos.
  pose proof (Z.div_mod i n ltac:(lia)) as Hdiv.
  pose proof (Z.mod_pos_bound i n ltac:(lia)) as [Hlo Hhi].
  assert (E : IZR i = IZR n * IZR (i / n) + IZR (i mod n)).
  { rewrite <- mult_IZR, <- plus_IZR. now f_equal. }
  apply IZR_le in Hlo. apply IZR_lt in Hhi.
  assert (Eq : IZR i / IZR n = IZR (i / n) + IZR (i mod n) / IZR n).
  { rewrite E. field. lra. }
  assert (H0 : 0 <= IZR (i mod n) / IZR n).
  { apply Rmult_le_pos; [assumption|].
    apply Rlt_le, Rinv_0_lt_compat, Hpos. }
  assert (H1 : IZR (i mod n) / IZR n < 1).
  { apply (Rmult_lt_reg_r (IZR n)); [assumption|].
    unfold Rdiv. rewrite Rmult_assoc, Rinv_l by lra. lra. }
  lra.
Qed.

Lemma real_is_zero_false (x : R) : x <> 0 -> is_zero x = false.
Proof.
  intros Hx. unfold is_zero, f_ge, of_int, real_ops.
  destruct (Rle_dec 0 x), (Rle_dec x 0); try reflexivity.
  exfalso. apply Hx. lra.
Qed.

Lemma real_py_truediv (a b : R) : b <> 0 -> py_truediv a b = Ok (a / b).
Proof.
  intros Hb. unfold py_truediv. now rewrite (real_is_zero_false b Hb).
Qed.

Lemma real_py_pow (x y : R) : 0 < x -> f_py_pow x y = Ok (Rpower x y).
Proof.
  intros Hx. unfold f_py_pow, real_ops.
  destruct (Req_dec_T x 0); [lra | reflexivity].
Qed.

Lemma cosine_call (T_max : Z) (eta_min : R) (i : Z) (s : state R) :
  (1 <= T_max)%Z ->
  call (CosineAnnealingLR T_max eta_min) (Some i) s =
  Ok (eta_min +
      (lr s - eta_min) * (1 + cos (PI * IZR i / IZR T_max)) / 2, s).
Proof.
  intros HT. pose proof (IZR_pos T_max HT) as Hpos.
  cbn [call]. unfold CosineAnnealingLR_call, epoch_step, mbind, ret, get_lr,
    lift, step_div.
  cbn [step_val of_int real_ops f_mul f_pi].
  rewrite real_py_truediv by lra. reflexivity.
Qed.

Lemma cosine_default_step (T_max : Z) (eta_min : R) (s : state R) :
  (1 <= T_max)%Z ->
  call (CosineAnnealingLR T_max eta_min) None s =
  call (CosineAnnealingLR T_max eta_min)
       (Some (val (int_succ (last_epoch s)))) s.
Proof.
  intros HT. rewrite cosine_call by assumption. reflexivity.
Qed.

Lemma half_cosine_range (lo hi c : R) :
  lo <= hi -> -1 <= c <= 1 ->
  lo <= lo + (hi - lo) * (1 + c) / 2 <= hi.
Proof. intros H [Hc1 Hc2]. split; nra. Qed.

Lemma exponential_call (gamma : R) (i : Z) (s : state R) :
  0 < gamma ->
  call (ExponentialLR gamma) (Some i) s =
  Ok (lr s * Rpower gamma (IZR i), s).
Proof.
  intros Hg. cbn [call].
  unfold ExponentialLR_call, epoch_step, mbind, ret, get_lr, lift, step_pow.
  cbn [step_val of_int real_ops].
  rewrite (real_py_pow gamma (IZR i) Hg). reflexivity.
Qed.

Lemma step_call_value (step_size : Z) (gamma : R) (i : Z) (s : state R) :
  call (StepLR step_size gamma) (Some i) s =
  Ok (lr s * Rpower gamma (IZR (i / step_size)), s).
Proof. reflexivity. Qed.

Lemma Rpower_succ (gamma : R) (z : Z) :
  0 < gamma -> Rpower gamma (IZR (z + 1)) = gamma * Rpower gamma (IZR z).
Proof.
  intros H. rewrite plus_IZR, Rpower_plus, Rpower_1 by assumption.
  apply Rmult_comm.
Qed.

(** The position within the current cycle, for [T_mult = 1]. *)
Lemma warm_restarts_call (n T_0 : Z) (eta_min : R) (i : Z) (s : state R) :
  (1 <= n)%Z -> (1 <= T_0)%Z -> (0 <= i)%Z ->
  call (CosineAnnealingWarmRestarts n T_0 1 eta_min) (Some i) s =
  Ok (eta_min +
      (lr s - eta_min) *
      (1 + cos (PI * IZR ((i / n) mod T_0) / IZR T_0)) / 2, s).
Proof.
  intros Hn HT Hi. cbn [call].
  unfold CosineAnnealingWarmRestarts_call, current_epoch, call_step, mbind,
    ret, get_lr, lax_cond, _cond1, _cond2, lift, step_div.
  cbn [Z.eqb Pos.eqb step_val].
  cbn [of_int real_ops].
  rewrite real_py_truediv by (pose proof (IZR_pos n Hn); lra).
  cbn [f_floor f_div of_int f_ge f_mod f_add f_sub f_mul f_cos f_pi
       real_ops].
  rewrite (Int_part_quotient i n Hn).
  assert (Hq : (0 <= i / n)%Z) by (apply Z.div_pos; lia).
  destruct (Rle_dec (IZR T_0) (IZR (i / n))) as [Hge|Hlt].
  - rewrite (Int_part_quotient (i / n) T_0 HT).
    replace (IZR (i / n) - IZR (i / n / T_0) * IZR T_0)
      with (IZR ((i / n) mod T_0)); [reflexivity|].
    rewrite <- mult_IZR, <- minus_IZR. f_equal.
    rewrite Z.mod_eq by lia. lia.
  - rewrite Z.mod_small; [reflexivity|].
    split; [assumption|]. apply lt_IZR. lra.
Qed.

(** X26. In exact real arithmetic a [CosineAnnealingLR] scheduler with
    [T_max >= 1] and [eta_min <= lr] returns, at every step and also
    without a step, a rate between [eta_min] and [lr], and leaves its
    state as it was. *)
Theorem cosine_annealing_range (T_max : Z) (eta_min : R) (i : option Z)
  (s : state R) :
  (1 <= T_max)%Z -> eta_min <= lr s ->
  exists r,
    call (CosineAnnealingLR T_max eta_min) i s = Ok (r, s) /\
    eta_min <= r <= lr s.
Proof.
  intros HT Hle. destruct i as [i|].
  - rewrite cosine_call by assumption. eexists. split; [reflexivity|].
    apply half_cosine_range; [assumption | apply COS_bound].
  - rewrite cosine_default_step, cosine_call by assumption. eexists.
    split; [reflexivity|].
    apply half_cosine_range; [assumption | apply COS_bound].
Qed.

Lemma cosine_annealing_range_witness :
  exists r,
    call (CosineAnnealingLR 10 0.001) (Some 3%Z) (fresh_epoch_state 0.1) =
    Ok (r, fresh_epoch_state 0.1) /\
    0.001 <= r <= lr (fresh_epoch_state 0.1).
Proof.
  apply (cosine_annealing_range 10 0.001 (Some 3%Z) (fresh_epoch_state 0.1)).
  - lia.
  - cbn. lra.
Defined.

(** X27. In exact real arithmetic a [CosineAnnealingLR] scheduler with
    [T_max >= 1] returns [lr] at step 0 and [eta_min] at step [T_max], and
    its rate at step [i + 2 * T_max] is its rate at step [i]: it does not
    stay at [eta_min] after [T_max] but climbs back. *)
Theorem cosine_annealing_cycle (T_max : Z) (eta_min : R) (s : state R) :
  (1 <= T_max)%Z ->
  call (CosineAnnealingLR T_max eta_min) (Some 0%Z) s = Ok (lr s, s) /\
  call (CosineAnnealingLR T_max eta_min) (Some T_max) s = Ok (eta_min, s) /\
  (forall i : Z,
     call (CosineAnnealingLR T_max eta_min) (Some (i + 2 * T_max)%Z) s =
     call (CosineAnnealingLR T_max eta_min) (Some i) s) /\
  call (CosineAnnealingLR T_max eta_min) (Some (2 * T_max)%Z) s =
  Ok (lr s, s).
Proof.
  intros HT. pose proof (IZR_pos T_max HT) as Hpos.
  assert (H0 : call (CosineAnnealingLR T_max eta_min) (Some 0%Z) s =
               Ok (lr s, s)).
  { rewrite cosine_call by assumption. do 2 f_equal.
    replace (PI * 0 / IZR T_max) with 0 by (field; lra).
    rewrite cos_0. field. }
  assert (Hper : forall i : Z,
     call (CosineAnnealingLR T_max eta_min) (Some (i + 2 * T_max)%Z) s =
     call (CosineAnnealingLR T_max eta_min) (Some i) s).
  { intros i. rewrite !cosine_call by assumption.
    rewrite plus_IZR, mult_IZR.
    replace (PI * (IZR i + 2 * IZR T_max) / IZR T_max)
      with (PI * IZR i / IZR T_max + 2 * INR 1 * PI)
      by (cbn [INR]; field; lra).
    now rewrite cos_period. }
  split; [exact H0|]. split; [|split; [exact Hper|]].
  - rewrite cosine_call by assumption. do 2 f_equal.
    replace (PI * IZR T_max / IZR T_max) with PI by (field; lra).
    rewrite cos_PI. field.
  - change (2 * T_max)%Z with (0 + 2 * T_max)%Z. now rewrite Hper.
Qed.

Lemma cosine_annealing_cycle_witness :
  call (CosineAnnealingLR 10 0.001) (Some 0%Z) (fresh_epoch_state 0.1) =
  Ok (lr (fresh_epoch_state 0.1), fresh_epoch_state 0.1) /\
  call (CosineAnnealingLR 10 0.001) (Some 10%Z) (fresh_epoch_state 0.1) =
  Ok (0.001, fresh_epoch_state 0.1) /\
  (forall i : Z,
     call (CosineAnnealingLR 10 0.001) (Some (i + 2 * 10)%Z)
          (fresh_epoch_state 0.1) =
     call (CosineAnnealingLR 10 0.001) (Some i) (fresh_epoch_state 0.1)) /\
  call (CosineAnnealingLR 10 0.001) (Some (2 * 10)%Z)
       (fresh_epoch_state 0.1) =
  Ok (lr (fresh_epoch_state 0.1), fresh_epoch_state 0.1).
Proof.
  apply (cosine_annealing_cycle 10 0.001 (fresh_epoch_state 0.1)).
  lia.
Defined.

(** X28. In exact real arithmetic an [ExponentialLR] scheduler with
    [gamma > 0] returns [lr] at step 0, and its rate at step [i + 1] is
    [gamma] times its rate at step [i]. *)
Theorem exponential_decays_by_gamma (gamma : R) (s : state R) :
  0 < gamma ->
  call (ExponentialLR gamma) (Some 0%Z) s = Ok (lr s, s) /\
  forall i : Z,
    exists r,
      call (ExponentialLR gamma) (Some i) s = Ok (r, s) /\
      call (ExponentialLR gamma) (Some (i + 1)%Z) s = Ok (gamma * r, s).
Proof.
  intros Hg. split.
  - rewrite exponential_call, Rpower_O by assumption.
    now rewrite Rmult_1_r.
  - intros i. rewrite !exponential_call by assumption.
    eexists. split; [reflexivity|].
    rewrite Rpower_succ by assumption. do 2 f_equal. ring.
Qed.

Lemma exponential_decays_by_gamma_witness :
  call (ExponentialLR 0.9) (Some 0%Z) (fresh_epoch_state 0.1) =
  Ok (lr (fresh_epoch_state 0.1), fresh_epoch_state 0.1) /\
  forall i : Z,
    exists r,
      call (ExponentialLR 0.9) (Some i) (fresh_epoch_state 0.1) =
      Ok (r, fresh_epoch_state 0.1) /\
      call (ExponentialLR 0.9) (Some (i + 1)%Z) (fresh_epoch_state 0.1) =
      Ok (0.9 * r, fresh_epoch_state 0.1).
Proof.
  apply (exponential_decays_by_gamma 0.9 (fresh_epoch_state 0.1)).
  lra.
Defined.

(** X29. In exact real arithmetic a [StepLR] scheduler with
    [step_size >= 1] and [gamma > 0] returns [lr] at each of the first
    [step_size] steps, and its rate at step [i + step_size] is [gamma]
    times its rate at step [i]. *)
Theorem step_lr_decays_every_step_size (step_size : Z) (gamma : R)
  (s : state R) :
  (1 <= step_size)%Z -> 0 < gamma ->
  (forall i : Z, (0 <= i < step_size)%Z ->
     call (StepLR step_size gamma) (Some i) s = Ok (lr s, s)) /\
  (forall i : Z,
     exists r,
       call (StepLR step_size gamma) (Some i) s = Ok (r, s) /\
       call (StepLR step_size gamma) (Some (i + step_size)%Z) s =
       Ok (gamma * r, s)).
Proof.
  intros Hs Hg. split.
  - intros i Hi. rewrite step_call_value, Z.div_small by assumption.
    rewrite Rpower_O by assumption. now rewrite Rmult_1_r.
  - intros i. rewrite !step_call_value. eexists. split; [reflexivity|].
    replace ((i + step_size) / step_size)%Z with (i / step_size + 1)%Z.
    + rewrite Rpower_succ by assumption. do 2 f_equal. ring.
    + replace (i + step_size)%Z with (i + 1 * step_size)%Z by lia.
      rewrite Z.div_add by lia. reflexivity.
Qed.

Lemma step_lr_decays_every_step_size_witness :
  (forall i : Z, (0 <= i < 30)%Z ->
     call (StepLR 30 0.1) (Some i) (fresh_epoch_state 0.05) =
     Ok (lr (fresh_epoch_state 0.05), fresh_epoch_state 0.05)) /\
  (forall i : Z,
     exists r,
       call (StepLR 30 0.1) (Some i) (fresh_epoch_state 0.05) =
       Ok (r, fresh_epoch_state 0.05) /\
       call (StepLR 30 0.1) (Some (i + 30)%Z) (fresh_epoch_state 0.05) =
       Ok (0.1 * r, fresh_epoch_state 0.05)).
Proof.
  apply (step_lr_decays_every_step_size 30 0.1 (fresh_epoch_state 0.05)).
  - lia.
  - lra.
Defined.

(** X30. In exact real arithmetic a [CosineAnnealingWarmRestarts]
    scheduler with [T_mult = 1], [T_0 >= 1] and [num_call_per_epoch >= 1]
    restarts every [T_0] epochs: at call 0 it returns [lr], and at every
    call [i >= 0] its rate [T_0 * num_call_per_epoch] calls later is its
    rate at call [i]. *)
Theorem warm_restarts_period (n T_0 : Z) (eta_min : R) (s : state R) :
  (1 <= n)%Z -> (1 <= T_0)%Z ->
  call (CosineAnnealingWarmRestarts n T_0 1 eta_min) (Some 0%Z) s =
  Ok (lr s, s) /\
  forall i : Z, (0 <= i)%Z ->
    call (CosineAnnealingWarmRestarts n T_0 1 eta_min)
         (Some (i + T_0 * n)%Z) s =
    call (CosineAnnealingWarmRestarts n T_0 1 eta_min) (Some i) s.
Proof.
  intros Hn HT. pose proof (IZR_pos T_0 HT) as Hpos. split.
  - rewrite warm_restarts_call by lia.
    rewrite Z.div_0_l, Z.mod_0_l by lia. do 2 f_equal.
    replace (PI * 0 / IZR T_0) with 0 by (field; lra).
    rewrite cos_0. field.
  - intros i Hi. rewrite !warm_restarts_call by nia.
    rewrite Z.div_add by lia.
    replace (i / n + T_0)%Z with (i / n + 1 * T_0)%Z by lia.
    rewrite Z.mod_add by lia. reflexivity.
Qed.

Lemma warm_restarts_period_witness :
  call (CosineAnnealingWarmRestarts 5 10 1 0.001) (Some 0%Z)
       (fresh_call_state 0.1) =
  Ok (lr (fresh_call_state 0.1), fresh_call_state 0.1) /\
  forall i : Z, (0 <= i)%Z ->
    call (CosineAnnealingWarmRestarts 5 10 1 0.001) (Some (i + 10 * 5)%Z)
         (fresh_call_state 0.1) =
    call (CosineAnnealingWarmRestarts 5 10 1 0.001) (Some i)
         (fresh_call_state 0.1).
Proof.
  apply (warm_restarts_period 5 10 0.001 (fresh_call_state 0.1)); lia.
Defined.

End ScheduleRules.

(** ** [matrix_correlation]: the entries it reads *)

Module MatrixCorrelationFacts.

Import Correlation MatrixCorrelation.

Lemma triu_indices_above (arr : ndarray) (p : nat * nat) :
  In p (triu_indices_from arr 1) ->
  (fst p < snd p)%nat /\
  (fst p < nth 0 (shape arr) 0)%nat /\ (snd p < nth 1 (shape arr) 0)%nat.
Proof.
  unfold triu_indices_from. intros H. apply filter_In in H as [Hin Htri].
  destruct p as [i j]. apply in_prod_iff in Hin as [Hi Hj].
  apply in_seq in Hi, Hj. cbn [fst snd] in *.
  unfold jnp.tri in Htri. apply negb_true_iff, Z.leb_gt in Htri.
  repeat split; lia.
Qed.

Lemma triu_indices_complete (arr : ndarray) (i j : nat) :
  (i < j)%nat -> (i < nth 0 (shape arr) 0)%nat ->
  (j < nth 1 (shape arr) 0)%nat ->
  In (i, j) (triu_indices_from arr 1).
Proof.
  intros Hij Hi Hj. unfold triu_indices_from. apply filter_In. split.
  - apply in_prod_iff. split; apply in_seq; lia.
  - cbn [fst snd]. unfold jnp.tri. apply negb_true_iff, Z.leb_gt. lia.
Qed.

Lemma take_upper_ext (x x' : ndarray) :
  shape x = shape x' ->
  (forall i j, (i < j)%nat -> (i < nth 0 (shape x) 0)%nat ->
               (j < nth 1 (shape x) 0)%nat -> entry x i j = entry x' i j) ->
  take x (triu_indices_from x 1) = take x' (triu_indices_from x' 1).
Proof.
  intros Hs H. unfold take.
  replace (triu_indices_from x' 1) with (triu_indices_from x 1)
    by (unfold triu_indices_from; now rewrite Hs).
  apply map_ext_in. intros p Hp.
  destruct (triu_indices_above x p Hp) as (Hij & Hi & Hj).
  now apply H.
Qed.

(** X18. [matrix_correlation] reads only the entries strictly above the
    diagonal of its two matrices: two pairs of matrices of the same
    shapes that agree there have the same correlation, whatever they hold
    on and below the diagonal, and every such entry is among those
    passed on to [corrcoef]. *)
Theorem matrix_correlation_upper_triangle
  (corrcoef01 : list R -> list R -> result num) (x x' y y' : ndarray) :
  shape x = shape x' -> shape y = shape y' ->
  (forall i j, (i < j)%nat -> (i < nth 0 (shape x) 0)%nat ->
               (j < nth 1 (shape x) 0)%nat -> entry x i j = entry x' i j) ->
  (forall i j, (i < j)%nat -> (i < nth 0 (shape y) 0)%nat ->
               (j < nth 1 (shape y) 0)%nat -> entry y i j = entry y' i j) ->
  matrix_correlation corrcoef01 x y = matrix_correlation corrcoef01 x' y' /\
  (forall i j, (i < j)%nat -> (i < nth 0 (shape x) 0)%nat ->
               (j < nth 1 (shape x) 0)%nat ->
               In (entry x i j) (take x (triu_indices_from x 1))) /\
  (forall p, In p (triu_indices_from x 1) -> (fst p < snd p)%nat).
Proof.
  intros Hsx Hsy Hx Hy. split; [|split].
  - unfold matrix_correlation, ndim. rewrite <- Hsx, <- Hsy.
    destruct (length (shape x) =? 2)%nat; cbn [negb]; [|reflexivity].
    destruct (length (shape y) =? 2)%nat; cbn [negb]; [|reflexivity].
    now rewrite (take_upper_ext x x' Hsx Hx), (take_upper_ext y y' Hsy Hy).
  - intros i j Hij Hi Hj. unfold take.
    apply (in_map (fun p => entry x (fst p) (snd p)) _ (i, j)).
    now apply triu_indices_complete.
  - intros p Hp. now destruct (triu_indices_above x p Hp).
Qed.

Lemma matrix_correlation_upper_triangle_witness :
  matrix_correlation (fun _ _ => Ok (fin 1))
    {| shape := [2; 2]%nat; data := [1; 2; 3; 4] |}
    {| shape := [2; 2]%nat; data := [5; 6; 7; 8] |} =
  matrix_correlation (fun _ _ => Ok (fin 1))
    {| shape := [2; 2]%nat; data := [0; 2; 0; 0] |}
    {| shape := [2; 2]%nat; data := [9; 6; 9; 9] |} /\
  (forall i j, (i < j)%nat -> (i < 2)%nat -> (j < 2)%nat ->
     In (entry {| shape := [2; 2]%nat; data := [1; 2; 3; 4] |} i j)
        (take {| shape := [2; 2]%nat; data := [1; 2; 3; 4] |}
           (triu_indices_from
              {| shape := [2; 2]%nat; data := [1; 2; 3; 4] |} 1))) /\
  (forall p,
     In p (triu_indices_from
             {| shape := [2; 2]%nat; data := [1; 2; 3; 4] |} 1) ->
     (fst p < snd p)%nat).
Proof.
  apply (matrix_correlation_upper_triangle (fun _ _ => Ok (fin 1))
           {| shape := [2; 2]%nat; data := [1; 2; 3; 4] |}
           {| shape := [2; 2]%nat; data := [0; 2; 0; 0] |}
           {| shape := [2; 2]%nat; data := [5; 6; 7; 8] |}
           {| shape := [2; 2]%nat; data := [9; 6; 9; 9] |}).
  - reflexivity.
  - reflexivity.
  - intros i j Hij Hi Hj. cbn in Hi, Hj.
    assert (i = 0%nat) by lia. assert (j = 1%nat) by lia. subst.
    reflexivity.
  - intros i j Hij Hi Hj. cbn in Hi, Hj.
    assert (i = 0%nat) by lia. assert (j = 1%nat) by lia. subst.
    reflexivity.
Defined.

(** The rank checks come first, the first matrix before the second. *)
Lemma matrix_correlation_rank
  (corrcoef01 : list R -> list R -> result num) (x y : ndarray) :
  ndim x <> 2%nat \/ ndim y <> 2%nat ->
  matrix_correlation corrcoef01 x y = Raise ValueError.
Proof.
  intros H. unfold matrix_correlation.
  destruct (Nat.eqb_spec (ndim x) 2); cbn [negb]; [|reflexivity].
  destruct (Nat.eqb_spec (ndim y) 2); cbn [negb]; [|reflexivity].
  destruct H; contradiction.
Qed.

End MatrixCorrelationFacts.
